(** * Deployment archive builders: exclusion predicate and archive assembly

    A shallow embedding of the two packaging scripts
    [create_deployment_zip.py] (Archive Builder B) and [create_aws_zip.py]
    (Archive Builder A), together with the parts of [posixpath], [pathlib],
    [os.walk] and [zipfile.ZipFile.write] that decide what ends up in the
    archive and under which name.

    Python strings are modelled as [string] (sequences of bytes).  For text
    outside ASCII the bytes are the UTF-8 encoding; prefix tests, substring
    tests and splitting at ['/'] commute with that encoding.

    The platform is POSIX ([os.sep] is ['/'], there is no drive).  The file
    system holds regular files and directories only: symbolic links,
    permissions and a full disk are outside the model, so the exceptions a
    run can raise are those the kind of a path decides (missing, a file
    where a directory is needed, a directory where a file is needed). *)

From Stdlib Require Import Bool Arith NArith List Ascii String Lia.
From Stdlib Require Import DecimalString Permutation.
Import ListNotations.

Open Scope string_scope.
Open Scope list_scope.

Infix "+++" := String.append (right associativity, at level 60).

(** ** Python string primitives *)

Module Str.

(** [s.split(sep)] for a one-character separator: never empty, keeps empty
    fields. *)
Fixpoint split (sep : ascii) (s : string) : list string :=
  match s with
  | EmptyString => [EmptyString]
  | String c s' =>
      if Ascii.eqb c sep then EmptyString :: split sep s'
      else match split sep s' with
           | [] => [String c EmptyString]
           | h :: t => String c h :: t
           end
  end.

(** [s.startswith(pre)] *)
Definition startswith (s pre : string) : bool := String.prefix pre s.

(** [s.endswith(suf)] *)
Fixpoint endswith (s suf : string) : bool :=
  String.eqb s suf ||
  match s with
  | EmptyString => false
  | String _ s' => endswith s' suf
  end.

(** [pat in s]: [pat] occurs in [s] as a contiguous substring. *)
Fixpoint contains (pat s : string) : bool :=
  String.prefix pat s ||
  match s with
  | EmptyString => false
  | String _ s' => contains pat s'
  end.

(** [x in xs] for a collection of strings. *)
Definition mem (x : string) (xs : list string) : bool :=
  existsb (String.eqb x) xs.

(** [sep.join(xs)] *)
Definition join (sep : string) (xs : list string) : string :=
  String.concat sep xs.

End Str.

(** ** pathlib: [PurePosixPath(path).parts] *)

Module Pathlib.

(** [posixpath.splitroot]: the drive is always empty; the root is ['/'],
    or ['//'] for exactly two leading slashes. *)
Definition splitroot (p : string) : string * string :=
  match p with
  | String "/" rest =>
      match rest with
      | String "/" rest2 =>
          match rest2 with
          | String "/" _ => ("/", rest)
          | _ => ("//", rest2)
          end
      | _ => ("/", rest)
      end
  | _ => ("", p)
  end.

(** The tail keeps [x for x in rel.split('/') if x and x != '.']. *)
Definition keep_component (x : string) : bool :=
  negb (String.eqb x "") && negb (String.eqb x ".").

Definition parts (p : string) : list string :=
  let '(root, rel) := splitroot p in
  (if String.eqb root "" then [] else [root])
    ++ filter keep_component (Str.split "/" rel).

End Pathlib.

(** ** The exclusion predicate of Archive Builder B *)

Definition exclude_patterns : list string :=
  [ "node_modules"; ".git"; "dist"; ".env"; ".DS_Store"; "__pycache__";
    "*.log"; "*.tmp"; ".vscode"; ".idea" ].

Definition dot_exceptions : list string := [ ".ebextensions"; ".platform" ].

(** [any(pattern in part for pattern in exclude_patterns)] *)
Definition pattern_hit (part : string) : bool :=
  existsb (fun pattern => Str.contains pattern part) exclude_patterns.

(** [part.startswith('.') and part not in {'.ebextensions', '.platform'}] *)
Definition hidden_hit (part : string) : bool :=
  Str.startswith part "." && negb (Str.mem part dot_exceptions).

(** The [for part in path_parts] loop with its two early returns. *)
Fixpoint exclude_loop (path_parts : list string) : bool :=
  match path_parts with
  | [] => false
  | part :: rest =>
      if pattern_hit part then true
      else if hidden_hit part then true
      else exclude_loop rest
  end.

Definition should_exclude (path_str : string) : bool :=
  exclude_loop (Pathlib.parts path_str).

(** The textual segments of a path: the fields between slashes. *)
Definition segments (path_str : string) : list string :=
  Str.split "/" path_str.

(** ** posixpath: [join], [normpath], [abspath], [relpath] *)

Module OsPath.

(** One step of [posixpath.join(a, *p)]. *)
Definition join2 (path b : string) : string :=
  if Str.startswith b "/" then b
  else if String.eqb path "" || Str.endswith path "/" then path +++ b
  else path +++ "/" +++ b.

Definition join (a : string) (p : list string) : string :=
  fold_left join2 p a.

Definition isabs (s : string) : bool := Str.startswith s "/".

Definition is_nil {A} (l : list A) : bool :=
  match l with [] => true | _ => false end.

(** The body of the [for comp in comps] loop of [normpath]. *)
Definition norm_step (initial_slashes : nat) (new_comps : list string)
    (comp : string) : list string :=
  if String.eqb comp "" || String.eqb comp "." then new_comps
  else if negb (String.eqb comp "..")
          || (Nat.eqb initial_slashes 0 && is_nil new_comps)
          || (negb (is_nil new_comps) && String.eqb (last new_comps "") "..")
  then new_comps ++ [comp]
  else if negb (is_nil new_comps) then removelast new_comps
  else new_comps.

Fixpoint slashes (n : nat) : string :=
  match n with
  | O => ""
  | S n' => String "/" (slashes n')
  end.

Definition normpath (path : string) : string :=
  if String.eqb path "" then "."
  else
    let initial_slashes :=
      if Str.startswith path "/" then
        if Str.startswith path "//" && negb (Str.startswith path "///")
        then 2 else 1
      else 0 in
    let comps := fold_left (norm_step initial_slashes) (Str.split "/" path) [] in
    let path' := slashes initial_slashes +++ Str.join "/" comps in
    if String.eqb path' "" then "." else path'.

(** [abspath], with the result of [os.getcwd()] passed in. *)
Definition abspath (cwd path : string) : string :=
  if isabs path then normpath path else normpath (join2 cwd path).

(** [len(commonprefix([l1, l2]))] on two lists of components. *)
Fixpoint common_len (l1 l2 : list string) : nat :=
  match l1, l2 with
  | x :: l1', y :: l2' => if String.eqb x y then S (common_len l1' l2') else 0
  | _, _ => 0
  end.

Definition nonempty (x : string) : bool := negb (String.eqb x "").

(** [relpath(path, start)]; [None] stands for the [ValueError] raised on an
    empty [path]. *)
Definition relpath (cwd path start : string) : option string :=
  if String.eqb path "" then None
  else
    let start_list := filter nonempty (Str.split "/" (abspath cwd start)) in
    let path_list := filter nonempty (Str.split "/" (abspath cwd path)) in
    let i := common_len start_list path_list in
    let rel_list := List.repeat ".." (List.length start_list - i) ++ skipn i path_list in
    match rel_list with
    | [] => Some "."
    | a :: p => Some (join a p)
    end.

End OsPath.

(** ** The file system and the process state *)

(** What a regular file holds: plain bytes, or a ZIP archive given by its
    member list (member name, member data) in the order of the writes.  The
    deflate encoding itself belongs to [zipfile]. *)
#[warnings="-register-all"]
Inductive content : Type :=
| Bytes (b : string)
| Zip (members : list (string * content)).

(** A directory lists its entries in the order [os.scandir] reports them. *)
#[warnings="-register-all"]
Inductive node : Type :=
| File (c : content)
| Dir (entries : list (string * node)).

Definition directory : Type := list (string * node).
Definition archive : Type := list (string * content).

Fixpoint assoc {A : Type} (name : string) (es : list (string * A)) : option A :=
  match es with
  | [] => None
  | (k, v) :: es' => if String.eqb k name then Some v else assoc name es'
  end.

Definition drop {A : Type} (name : string) (es : list (string * A))
  : list (string * A) :=
  filter (fun e => negb (String.eqb (fst e) name)) es.

(** Create or replace an entry.  The place a new entry takes in the
    listing is up to the file system; here it goes to the end.  What is
    stated about a directory after a write is stated on lookups, which do
    not depend on that place. *)
Fixpoint put {A : Type} (name : string) (v : A) (es : list (string * A))
  : list (string * A) :=
  match es with
  | [] => [(name, v)]
  | (k, old) :: es' =>
      if String.eqb k name then (k, v) :: es' else (k, old) :: put name v es'
  end.

(** The components the kernel walks for a relative path: empty fields and
    ['.'] are skipped.  The paths the scripts build are never empty and
    never contain ['..']. *)
Definition components (p : string) : list string :=
  filter Pathlib.keep_component (Str.split "/" p).

Fixpoint resolve (segs : list string) (n : node) : option node :=
  match segs with
  | [] => Some n
  | s :: rest =>
      match n with
      | Dir es =>
          match assoc s es with
          | Some child => resolve rest child
          | None => None
          end
      | File _ => None
      end
  end.

Inductive exn : Type :=
| FileNotFoundError
| IsADirectoryError
| NotADirectoryError
| FileExistsError
| ValueError.

(** Rewrite the directory reached by [segs] with [f]. *)
Fixpoint update_dir (segs : list string) (f : directory -> exn + directory)
    (es : directory) : exn + directory :=
  match segs with
  | [] => f es
  | d :: rest =>
      match assoc d es with
      | Some (Dir sub) =>
          match update_dir rest f sub with
          | inr sub' => inr (put d (Dir sub') es)
          | inl e => inl e
          end
      | Some (File _) => inl NotADirectoryError
      | None => inl FileNotFoundError
      end
  end.

(** A running script: its working directory (the string [os.getcwd()]
    returns), the entries of that directory, and the members buffered in the
    [ZipFile] object it has open, if any. *)
Record process : Type := mkProcess {
  cwd : string;
  disk : directory;
  zipf : option archive
}.

Definition set_disk (d : directory) (s : process) : process :=
  mkProcess (cwd s) d (zipf s).

Definition set_zipf (z : option archive) (s : process) : process :=
  mkProcess (cwd s) (disk s) z.

Definition lookup (p : string) (s : process) : option node :=
  resolve (components p) (Dir (disk s)).

(** ** A state, exception and output monad *)

Inductive outcome (A : Type) : Type :=
| Done (a : A) (s : process) (out : list string)
| Raised (e : exn) (s : process) (out : list string).

Arguments Done {A} a s out.
Arguments Raised {A} e s out.

Definition M (A : Type) : Type := process -> outcome A.

Definition ret {A : Type} (a : A) : M A := fun s => Done a s [].

(** The lines [o1] were printed before the computation that ended in [r]. *)
Definition after {A : Type} (o1 : list string) (r : outcome A) : outcome A :=
  match r with
  | Done a s o2 => Done a s (o1 ++ o2)
  | Raised e s o2 => Raised e s (o1 ++ o2)
  end.

Definition bind {A B : Type} (m : M A) (k : A -> M B) : M B :=
  fun s =>
    match m s with
    | Done a s1 o1 => after o1 (k a s1)
    | Raised e s1 o1 => Raised e s1 o1
    end.

Declare Scope script_scope.
Delimit Scope script_scope with script.
Notation "x <- m ;; k" := (bind m (fun x => k))
  (at level 61, m at next level, right associativity) : script_scope.
Notation "m ;; k" := (bind m (fun _ => k))
  (at level 61, right associativity) : script_scope.
Open Scope script_scope.

(** [if c: m] *)
Definition when (c : bool) (m : M unit) : M unit :=
  if c then m else ret tt.

(** [for x in xs: body(x)] *)
Fixpoint for_each {A : Type} (xs : list A) (body : A -> M unit) : M unit :=
  match xs with
  | [] => ret tt
  | x :: xs' => body x ;; for_each xs' body
  end.

(** [print(line)] *)
Definition print (line : string) : M unit := fun s => Done tt s [line].

(** [try: m finally: h] *)
Definition finally {A : Type} (m : M A) (h : M unit) : M A :=
  fun s =>
    match m s with
    | Done a s1 o1 =>
        match h s1 with
        | Done _ s2 o2 => Done a s2 (o1 ++ o2)
        | Raised e s2 o2 => Raised e s2 (o1 ++ o2)
        end
    | Raised e s1 o1 =>
        match h s1 with
        | Done _ s2 o2 => Raised e s2 (o1 ++ o2)
        | Raised e' s2 o2 => Raised e' s2 (o1 ++ o2)
        end
    end.

(** ** File-system primitives used by the scripts *)

Definition is_some {A : Type} (o : option A) : bool :=
  match o with Some _ => true | None => false end.

Fixpoint split_last (segs : list string) : option (list string * string) :=
  match segs with
  | [] => None
  | [x] => Some ([], x)
  | x :: rest =>
      match split_last rest with
      | Some (parent, name) => Some (x :: parent, name)
      | None => None
      end
  end.

(** Apply [f] to the directory that holds the last component of [p]. *)
Definition in_parent (p : string)
    (f : string -> directory -> exn + directory) : M unit :=
  fun s =>
    match split_last (components p) with
    | None => Raised IsADirectoryError s []
    | Some (parent, name) =>
        match update_dir parent (f name) (disk s) with
        | inr d => Done tt (set_disk d s) []
        | inl e => Raised e s []
        end
    end.

(** [os.path.exists(p)], [Path(p).exists()] *)
Definition path_exists (p : string) : M bool :=
  fun s => Done (is_some (lookup p s)) s [].

(** [os.path.isdir(p)] *)
Definition path_isdir (p : string) : M bool :=
  fun s => Done (match lookup p s with Some (Dir _) => true | _ => false end) s [].

(** [os.remove(p)], [Path(p).unlink()] *)
Definition os_remove (p : string) : M unit :=
  fun s =>
    match lookup p s with
    | None => Raised FileNotFoundError s []
    | Some (Dir _) => Raised IsADirectoryError s []
    | Some (File _) => in_parent p (fun name es => inr (drop name es)) s
    end.

(** [shutil.rmtree(p)] *)
Definition shutil_rmtree (p : string) : M unit :=
  fun s =>
    match lookup p s with
    | None => Raised FileNotFoundError s []
    | Some (File _) => Raised NotADirectoryError s []
    | Some (Dir _) => in_parent p (fun name es => inr (drop name es)) s
    end.

(** The directories [os.makedirs] creates along [segs]. *)
Fixpoint mkdirs (exist_ok : bool) (segs : list string) (es : directory)
  : exn + directory :=
  match segs with
  | [] => inr es
  | d :: rest =>
      match assoc d es with
      | Some (Dir sub) =>
          if OsPath.is_nil rest && negb exist_ok then inl FileExistsError
          else
            match mkdirs exist_ok rest sub with
            | inr sub' => inr (put d (Dir sub') es)
            | inl e => inl e
            end
      | Some (File _) =>
          inl (if OsPath.is_nil rest then FileExistsError else NotADirectoryError)
      | None =>
          match mkdirs exist_ok rest [] with
          | inr sub' => inr (put d (Dir sub') es)
          | inl e => inl e
          end
      end
  end.

(** [os.makedirs(p, exist_ok=exist_ok)] *)
Definition os_makedirs (p : string) (exist_ok : bool) : M unit :=
  fun s =>
    match mkdirs exist_ok (components p) (disk s) with
    | inr d => Done tt (set_disk d s) []
    | inl e => Raised e s []
    end.

(** [open(p, 'w')], write, close: create or truncate the file [p]. *)
Definition write_file (p : string) (c : content) : M unit :=
  fun s =>
    match lookup p s with
    | Some (Dir _) => Raised IsADirectoryError s []
    | _ => in_parent p (fun name es => inr (put name (File c) es)) s
    end.

(** [shutil.copytree(src, dst)]: list [src], create [dst] (which must not
    exist), and copy the entries in listing order. *)
Definition shutil_copytree (src dst : string) : M unit :=
  fun s =>
    match lookup src s with
    | None => Raised FileNotFoundError s []
    | Some (File _) => Raised NotADirectoryError s []
    | Some (Dir es) =>
        (os_makedirs dst false ;;
         fun s' =>
           match update_dir (components dst) (fun _ => inr es) (disk s') with
           | inr d => Done tt (set_disk d s') []
           | inl e => Raised e s' []
           end) s
    end.

(** [os.path.basename(p)] *)
Definition basename (p : string) : string := last (Str.split "/" p) "".

(** [shutil.copy2(src, dst)] *)
Definition shutil_copy2 (src dst : string) : M unit :=
  isdir <- path_isdir dst ;;
  let dst' := if isdir then OsPath.join2 dst (basename src) else dst in
  fun s =>
    match lookup src s with
    | None => Raised FileNotFoundError s []
    | Some (Dir _) => Raised IsADirectoryError s []
    | Some (File c) => write_file dst' c s
    end.

(** [os.path.relpath(path, start)] *)
Definition os_path_relpath (path start : string) : M string :=
  fun s =>
    match OsPath.relpath (cwd s) path start with
    | Some r => Done r s []
    | None => Raised ValueError s []
    end.

(** ** zipfile *)

Fixpoint lstrip_slashes (s : string) : string :=
  match s with
  | String "/" s' => lstrip_slashes s'
  | _ => s
  end.

(** The member name [ZipInfo.from_file] derives from [arcname]. *)
Definition member_name (arcname : string) : string :=
  lstrip_slashes (OsPath.normpath arcname).

(** [zipfile.ZipFile(p, 'w', ZIP_DEFLATED)]: the file is created or
    truncated at once. *)
Definition zip_open (p : string) : M unit :=
  write_file p (Bytes "") ;;
  fun s => Done tt (set_zipf (Some []) s) [].

(** [zipf.write(filename, arcname)].  Files carry no modification time
    and names are byte strings taken as they are: the refusal of a time
    stamp before 1980 and of a name that cannot be encoded are outside the
    model. *)
Definition zip_write (filename arcname : string) : M unit :=
  fun s =>
    match zipf s with
    | None => Raised ValueError s []
    | Some members =>
        match lookup filename s with
        | None => Raised FileNotFoundError s []
        | Some (Dir _) =>
            Done tt (set_zipf
                       (Some (members ++ [(member_name arcname +++ "/", Bytes "")])) s) []
        | Some (File c) =>
            Done tt (set_zipf (Some (members ++ [(member_name arcname, c)])) s) []
        end
    end.

(** [zipf.close()]: the archive on disk now holds the buffered members. *)
Definition zip_close (p : string) : M unit :=
  fun s =>
    match zipf s with
    | None => Done tt s []
    | Some members =>
        (write_file p (Zip members) ;;
         fun s' => Done tt (set_zipf None s') []) s
    end.

(** [with zipfile.ZipFile(p, 'w', ZIP_DEFLATED) as zipf: body] *)
Definition with_zip (p : string) (body : M unit) : M unit :=
  zip_open p ;; finally body (zip_close p).

(** ** os.walk *)

Definition is_dir_entry (e : string * node) : bool :=
  match snd e with Dir _ => true | File _ => false end.

Definition dirnames (es : directory) : list string :=
  map fst (filter is_dir_entry es).

Definition filenames (es : directory) : list string :=
  map fst (filter (fun e => negb (is_dir_entry e)) es).

(** [os.walk(top)], top-down, with the loop body [visit root dirs files]
    run at each yielded triple; the body returns the list [dirs] as it has
    left it, and the walk descends into exactly those names.  A [top] that
    cannot be listed yields nothing ([onerror] is [None]). *)
Fixpoint walk_node (visit : string -> list string -> list string -> M (list string))
    (top : string) (n : node) {struct n} : M unit :=
  match n with
  | File _ => ret tt
  | Dir es =>
      let children :=
        (fix sub (es : directory) : list (string * (string -> M unit)) :=
           match es with
           | [] => []
           | (name, child) :: es' =>
               (name, fun new_path => walk_node visit new_path child) :: sub es'
           end) es in
      dirs <- visit top (dirnames es) (filenames es) ;;
      for_each dirs (fun dirname =>
        let new_path := OsPath.join2 top dirname in
        match assoc dirname children with
        | Some descend => descend new_path
        | None => ret tt
        end)
  end.

Definition os_walk (top : string)
    (visit : string -> list string -> list string -> M (list string)) : M unit :=
  fun s =>
    match lookup top s with
    | Some n => walk_node visit top n s
    | None => Done tt s []
    end.

(** ** Size summary *)

Definition decimal (n : N) : string := NilZero.string_of_uint (N.to_uint n).

(** [size_bytes / (1024 * 1024)].  True division of two integers gives the
    double nearest to the quotient, ties to the even significand.  The
    divisor is a power of two, so the result is [double_of size_bytes]
    over 2^20, where [double_of n] is the integer with a significand of 53
    bits nearest to [n]: [n] itself below 2^53.  ([os.stat] reports sizes
    below 2^63, far from the range where the division overflows.) *)
Definition double_of (n : N) : N :=
  let ulp := (2 ^ (N.log2 n - 52))%N in
  let q := (n / ulp)%N in
  let r := (n mod ulp)%N in
  if (ulp <? 2 * r)%N || ((2 * r =? ulp)%N && N.odd q)
  then ((q + 1) * ulp)%N else (q * ulp)%N.

(** [f"{size_bytes / (1024 * 1024):.1f}"].  The format prints the decimal
    with one digit after the point nearest to the exact value of the
    double, ties to the even digit. *)
Definition format_mb (size_bytes : N) : string :=
  let scaled := (double_of size_bytes * 10)%N in
  let q := (scaled / 1048576)%N in
  let r := (scaled mod 1048576)%N in
  let tenths :=
    if (524288 <? r)%N || ((r =? 524288)%N && N.odd q) then (q + 1)%N else q in
  decimal (tenths / 10) +++ "." +++ decimal (tenths mod 10).

Definition newline : string := String "010"%char "".

(** ** The two archive builders *)

Section Builders.

(** [st_size] as [os.stat] reports it; the length of a deflate archive and
    of a directory are not modelled. *)
Variable st_size : node -> N.

(** [os.path.getsize(p)], [Path(p).stat().st_size] *)
Definition getsize (p : string) : M N :=
  fun s =>
    match lookup p s with
    | Some n => Done (st_size n) s []
    | None => Raised FileNotFoundError s []
    end.

(** *** Archive Builder B: [create_deployment_zip.py] *)

Definition source_dir : string := "clean-aws-deploy".
Definition zip_path : string := "kgc-healthcare-BUILD-COMPLETE.zip".

(** The body of [for root, dirs, files in os.walk(source_dir)]. *)
Definition visit_B (root : string) (dirs files : list string) : M (list string) :=
  let dirs' :=
    filter (fun d => negb (should_exclude (OsPath.join2 root d))) dirs in
  for_each files (fun file =>
    let file_path := OsPath.join2 root file in
    when (negb (should_exclude file_path))
      (arcname <- os_path_relpath file_path source_dir ;;
       zip_write file_path arcname ;;
       print ("Added: " +++ arcname))) ;;
  ret dirs'.

Definition create_deployment_zip : M unit :=
  present <- path_exists zip_path ;;
  when present (os_remove zip_path) ;;
  with_zip zip_path (os_walk source_dir visit_B) ;;
  size <- getsize zip_path ;;
  print (newline +++ "✅ Deployment package created: " +++ zip_path) ;;
  print ("📦 Size: " +++ format_mb size +++ " MB") ;;
  print "🚀 Ready for AWS Elastic Beanstalk deployment".

(** *** Archive Builder A: [create_aws_zip.py] *)

Definition staging_A : string := "aws-clean-deployment".
Definition zip_A : string := "keep-going-care-aws-deployment.zip".

Definition essential_dirs : list string :=
  [ "client"; "server"; "shared"; "public" ].

Definition files_to_copy : list string :=
  [ "package.json"; "package-lock.json"; "vite.config.ts";
    "tailwind.config.ts"; "postcss.config.js"; "tsconfig.json";
    "drizzle.config.ts"; ".env.example" ].

(** The body of [for root, dirs, files in os.walk('aws-clean-deployment')]. *)
Definition visit_A (root : string) (dirs files : list string) : M (list string) :=
  for_each files (fun file =>
    let file_path := OsPath.join2 root file in
    arcname <- os_path_relpath file_path staging_A ;;
    zip_write file_path arcname) ;;
  ret dirs.

(** Remove existing files. *)
Definition cleanup_A : M unit :=
  present <- path_exists zip_A ;;
  when present (os_remove zip_A) ;;
  present <- path_exists staging_A ;;
  when present (shutil_rmtree staging_A).

(** Create the clean deployment directory and fill it. *)
Definition stage_A : M unit :=
  os_makedirs staging_A true ;;
  for_each essential_dirs (fun dir_name =>
    present <- path_exists dir_name ;;
    when present (shutil_copytree dir_name ("aws-clean-deployment/" +++ dir_name))) ;;
  for_each files_to_copy (fun file_name =>
    present <- path_exists file_name ;;
    when present (shutil_copy2 file_name ("aws-clean-deployment/" +++ file_name))) ;;
  present <- path_exists ".platform" ;;
  when present (shutil_copytree ".platform" "aws-clean-deployment/.platform") ;;
  write_file "aws-clean-deployment/Procfile" (Bytes ("web: npm start" +++ newline)).

(** Create the ZIP file. *)
Definition zip_stage_A : M unit :=
  with_zip zip_A (os_walk staging_A visit_A).

Definition create_aws_zip : M unit :=
  print "🚀 Creating clean AWS deployment package with Python..." ;;
  cleanup_A ;;
  stage_A ;;
  zip_stage_A ;;
  shutil_rmtree staging_A ;;
  size_bytes <- getsize zip_A ;;
  print ("✅ Clean AWS deployment package created: " +++ zip_A) ;;
  print ("📦 Size: " +++ format_mb size_bytes +++ " MB") ;;
  print "🎯 Ready for AWS Elastic Beanstalk deployment".

(** A script started in directory [dir] whose entries are [d]: no archive
    is open yet. *)
Definition run (script : M unit) (dir : string) (d : directory) : outcome unit :=
  script (mkProcess dir d None).

End Builders.

(** ** Well-formed directory trees and their file listings *)

(** A name a directory entry can carry: not empty, not ['.'] or ['..'],
    without a slash. *)
Definition valid_name (s : string) : bool :=
  negb (String.eqb s "") && negb (String.eqb s ".")
  && negb (String.eqb s "..") && negb (Str.contains "/" s).

Fixpoint distinct (names : list string) : bool :=
  match names with
  | [] => true
  | x :: rest => negb (Str.mem x rest) && distinct rest
  end.

(** Every directory of the tree lists valid, pairwise different names. *)
Fixpoint wf_node (n : node) : bool :=
  match n with
  | File _ => true
  | Dir es =>
      distinct (map fst es)
      && (fix each (es : directory) : bool :=
            match es with
            | [] => true
            | (name, child) :: es' => valid_name name && wf_node child && each es'
            end) es
  end.

Definition wf_entry (e : string * node) : Prop :=
  valid_name (fst e) = true /\ wf_node (snd e) = true.

(** The regular files directly in a directory, as (path below the root of
    the walk, data). *)
Fixpoint files_here (prefix : list string) (es : directory)
  : list (list string * content) :=
  match es with
  | [] => []
  | (name, File c) :: es' => (prefix ++ [name], c) :: files_here prefix es'
  | (_, Dir _) :: es' => files_here prefix es'
  end.

(** All regular files below a node, top-down: the files of a directory
    before those of its subdirectories. *)
Fixpoint files_under (prefix : list string) (n : node)
  : list (list string * content) :=
  match n with
  | File _ => []
  | Dir es =>
      files_here prefix es
      ++ (fix below (es : directory) : list (list string * content) :=
            match es with
            | [] => []
            | (name, child) :: es' =>
                files_under (prefix ++ [name]) child ++ below es'
            end) es
  end.

(** The files below the subdirectories of a directory. *)
Definition files_below (prefix : list string) (es : directory)
  : list (list string * content) :=
  flat_map (fun e => files_under (prefix ++ [fst e]) (snd e)) es.

(** The path of a file relative to the root of the walk, as a string. *)
Definition relative_path (segs : list string) : string := Str.join "/" segs.

(** The archive member a file should become. *)
Definition member_of (f : list string * content) : string * content :=
  (relative_path (fst f), snd f).

(** The files a filter on paths lets through. *)
Definition kept (keep : list string -> bool) (fs : list (list string * content))
  : list (list string * content) :=
  filter (fun f => keep (fst f)) fs.

(** The lines printed for a list of files, [say] being applied to each
    archive name. *)
Definition lines (say : string -> list string) (fs : list (list string * content))
  : list string :=
  flat_map (fun f => say (relative_path (fst f))) fs.

(** An absolute, normalised working directory with the given components. *)
Definition cwd_of (csegs : list string) : string := "/" +++ Str.join "/" csegs.

(** A file of Builder B's staging tree survives the exclusion filter when
    the predicate rejects neither it nor a directory above it; the predicate
    sees paths that start with the staging directory. *)
Definition survives_B (f : list string * content) : bool :=
  negb (should_exclude (Str.join "/" (source_dir :: fst f))).

(** The same test on the path components below the staging directory. *)
Definition keep_B (segs : list string) : bool :=
  negb (exclude_loop (source_dir :: segs)).

(** The line Builder B prints for an archived file. *)
Definition say_B (arcname : string) : list string := ["Added: " +++ arcname].

(** Builder A keeps every file and prints nothing for it. *)
Definition keep_all (segs : list string) : bool := true.
Definition say_nothing (arcname : string) : list string := [].

(** The files of the tree at name [p] of a directory listing, if any. *)
Definition files_at (p : string) (d : directory) : list (list string * content) :=
  match assoc p d with
  | Some n => files_under [] n
  | None => []
  end.

(** The closing lines of Builder B for an archive of [size] bytes. *)
Definition summary_B (size : N) : list string :=
  [ newline +++ "✅ Deployment package created: " +++ zip_path;
    "📦 Size: " +++ format_mb size +++ " MB";
    "🚀 Ready for AWS Elastic Beanstalk deployment" ].

(** The lines of Builder A for an archive of [size] bytes. *)
Definition banner_A : string :=
  "🚀 Creating clean AWS deployment package with Python...".

Definition summary_A (size : N) : list string :=
  [ "✅ Clean AWS deployment package created: " +++ zip_A;
    "📦 Size: " +++ format_mb size +++ " MB";
    "🎯 Ready for AWS Elastic Beanstalk deployment" ].

(** Every tree entry of a listing is well formed. *)
Definition wf_at (p : string) (d : directory) : bool :=
  match assoc p d with
  | Some n => wf_node n
  | None => true
  end.

(** A file whose path has an excluded directory name strictly above it. *)
Definition under_excluded_dir (segs : list string) : bool :=
  existsb should_exclude (removelast segs).

(** Something other than a directory, or nothing, is at name [p]. *)
Definition not_a_dir (p : string) (d : directory) : bool :=
  match assoc p d with
  | Some (Dir _) => false
  | _ => true
  end.

Definition archive_at (p : string) (d : directory) : option archive :=
  match assoc p d with
  | Some (File (Zip members)) => Some members
  | _ => None
  end.

Definition final_disk {A : Type} (o : outcome A) : directory :=
  match o with
  | Done _ s _ => disk s
  | Raised _ s _ => disk s
  end.

Definition printed {A : Type} (o : outcome A) : list string :=
  match o with
  | Done _ _ out => out
  | Raised _ _ out => out
  end.

Definition completed {A : Type} (o : outcome A) : bool :=
  match o with
  | Done _ _ _ => true
  | Raised _ _ _ => false
  end.

(** Something other than a regular file, or nothing, is at name [p]. *)
Definition not_a_file (p : string) (d : directory) : bool :=
  match assoc p d with
  | Some (File _) => false
  | _ => true
  end.

(** A step that, when it completes, keeps the property [I] of the process
    state and prints nothing. *)
Definition preserves {A : Type} (I : process -> Prop) (m : M A) : Prop :=
  forall s a s' out, m s = Done a s' out -> I s -> I s' /\ out = [].

(** Builder A while it fills its staging directory: the other entries [rest]
    of the working directory are untouched, the staging directory comes
    last and is well formed, and no archive is open. *)
Definition staging (dir : string) (rest : directory) (s : process) : Prop :=
  exists staged,
    s = mkProcess dir (rest ++ [(staging_A, Dir staged)]) None
    /\ wf_node (Dir staged) = true.

(** The working directory of Builder A once the previous archive and the
    previous staging directory are gone. *)
Definition clean_A (d : directory) : directory :=
  drop staging_A (drop zip_A d).

(** Builder A from the staging step on. *)
Definition after_cleanup_A (st_size : node -> N) : M unit :=
  stage_A ;;
  zip_stage_A ;;
  shutil_rmtree staging_A ;;
  size_bytes <- getsize st_size zip_A ;;
  print ("✅ Clean AWS deployment package created: " +++ zip_A) ;;
  print ("📦 Size: " +++ format_mb size_bytes +++ " MB") ;;
  print "🎯 Ready for AWS Elastic Beanstalk deployment".

(** The entries of directory [app] in the scenario of the specification:
    [app/index.js], [app/.git/config], [app/.ebextensions/env.config]. *)
Definition scenario_app (c1 c2 c3 : content) : directory :=
  [ ("index.js", File c1);
    (".git", Dir [("config", File c2)]);
    (".ebextensions", Dir [("env.config", File c3)]) ].

(** What Builder A stages.  The directories among [names] that exist in
    [d], and the regular files among [names] that exist in [d], in the
    order of [names]. *)
Definition copied_dirs (d : directory) (names : list string) : directory :=
  flat_map (fun x => match assoc x d with
                     | Some (Dir es) => [(x, Dir es)]
                     | _ => []
                     end) names.

Definition copied_files (d : directory) (names : list string) : directory :=
  flat_map (fun x => match assoc x d with
                     | Some (File c) => [(x, File c)]
                     | _ => []
                     end) names.

Definition procfile : content := Bytes ("web: npm start" +++ newline).

(** The staging directory Builder A assembles from working directory [d]. *)
Definition staged_tree (d : directory) : directory :=
  copied_dirs d essential_dirs
    ++ copied_files d files_to_copy
    ++ copied_dirs d [".platform"]
    ++ [("Procfile", File procfile)].

(** The working directories in which no step of Builder A meets a path of
    the wrong kind: what it deletes or copies as a file is not a
    directory, what it deletes or copies as a tree is not a file. *)
Definition env_A (d : directory) : bool :=
  not_a_dir zip_A d
  && not_a_file staging_A d
  && forallb (fun x => not_a_file x d) (essential_dirs ++ [".platform"])
  && forallb (fun x => not_a_dir x d) files_to_copy.

(** The members of Builder A's archive for working directory [d]. *)
Definition members_A (d : directory) : archive :=
  map member_of (files_under [] (Dir (staged_tree d))).

(** Builder A in working directory [dir] while it fills the staging
    directory: [rest] are the other entries, [staged] those staged so far. *)
Definition at_stage (dir : string) (rest staged : directory) : process :=
  mkProcess dir (rest ++ [(staging_A, Dir staged)]) None.

(** * Facts about the string primitives *)

Lemma append_nil_r (s : string) : s +++ "" = s.
Proof. induction s as [|c s IH]; simpl; congruence. Qed.

Lemma append_assoc (a b c : string) : (a +++ b) +++ c = a +++ b +++ c.
Proof. induction a as [|x a IH]; simpl; congruence. Qed.

Lemma prefix_nil (s : string) : String.prefix "" s = true.
Proof. destruct s; reflexivity. Qed.

Lemma prefix_cons (a b : ascii) (p s : string) :
  String.prefix (String a p) (String b s) = Ascii.eqb a b && String.prefix p s.
Proof.
  cbn [String.prefix]. destruct (ascii_dec a b) as [->|ne].
  - rewrite Ascii.eqb_refl. reflexivity.
  - apply Ascii.eqb_neq in ne. rewrite ne. reflexivity.
Qed.

Lemma prefix_cons_nil (a : ascii) (p : string) :
  String.prefix (String a p) "" = false.
Proof. reflexivity. Qed.

Lemma prefix_append (p r : string) : String.prefix p (p +++ r) = true.
Proof.
  induction p as [|c p IH].
  - apply prefix_nil.
  - cbn [String.append]. rewrite prefix_cons, Ascii.eqb_refl. exact IH.
Qed.

Lemma prefix_inv (p s : string) :
  String.prefix p s = true -> exists r, s = p +++ r.
Proof.
  revert s; induction p as [|c p IH]; intros s H.
  - exists s; reflexivity.
  - destruct s as [|d s]; [discriminate|].
    rewrite prefix_cons in H. apply andb_true_iff in H as [Hc Hp].
    apply Ascii.eqb_eq in Hc as ->.
    destruct (IH _ Hp) as [r ->]. exists r; reflexivity.
Qed.

Lemma contains_cons (pat : string) (c : ascii) (s : string) :
  Str.contains pat (String c s)
  = String.prefix pat (String c s) || Str.contains pat s.
Proof. reflexivity. Qed.

Lemma contains_nil (pat : string) :
  Str.contains pat "" = String.prefix pat "".
Proof. cbn [Str.contains]. apply orb_false_r. Qed.

Lemma contains_of_prefix (p s : string) :
  String.prefix p s = true -> Str.contains p s = true.
Proof.
  intros H. destruct s.
  - rewrite contains_nil. exact H.
  - rewrite contains_cons, H. reflexivity.
Qed.

(** [Str.contains] is Python's substring test. *)
Lemma contains_intro (pre pat post : string) :
  Str.contains pat (pre +++ pat +++ post) = true.
Proof.
  induction pre as [|c pre IH].
  - cbn [String.append]. apply contains_of_prefix, prefix_append.
  - cbn [String.append]. rewrite contains_cons, IH. apply orb_true_r.
Qed.

Lemma contains_inv (pat s : string) :
  Str.contains pat s = true -> exists pre post, s = pre +++ pat +++ post.
Proof.
  induction s as [|c s IH]; intros H.
  - rewrite contains_nil in H. destruct (prefix_inv _ _ H) as [r E].
    exists "", r; exact E.
  - rewrite contains_cons in H. apply orb_true_iff in H as [H|H].
    + destruct (prefix_inv _ _ H) as [r E]. exists "", r; exact E.
    + destruct (IH H) as (pre & post & ->). exists (String c pre), post; reflexivity.
Qed.

Lemma contains_refl (s : string) : Str.contains s s = true.
Proof.
  pose proof (contains_intro "" s "") as H. cbn [String.append] in H.
  rewrite append_nil_r in H. exact H.
Qed.

Lemma contains_slash_cons (c : ascii) (s : string) :
  Str.contains "/" (String c s) = Ascii.eqb c "/" || Str.contains "/" s.
Proof.
  rewrite contains_cons, prefix_cons, prefix_nil, andb_true_r.
  rewrite (Ascii.eqb_sym c). reflexivity.
Qed.

Lemma split_not_nil (sep : ascii) (s : string) : Str.split sep s <> [].
Proof.
  induction s as [|c s IH]; simpl; [discriminate|].
  destruct (Ascii.eqb c sep); [discriminate|].
  destruct (Str.split sep s); [contradiction|discriminate].
Qed.

Lemma split_app (sep : ascii) (a b : string) :
  Str.split sep (a +++ String sep b) = Str.split sep a ++ Str.split sep b.
Proof.
  induction a as [|c a IH]; simpl.
  - rewrite Ascii.eqb_refl. reflexivity.
  - destruct (Ascii.eqb c sep); [rewrite IH; reflexivity|].
    rewrite IH. destruct (Str.split sep a) eqn:E.
    + exfalso; eapply split_not_nil; eauto.
    + reflexivity.
Qed.

Lemma split_no_slash (s : string) :
  Str.contains "/" s = false -> Str.split "/" s = [s].
Proof.
  induction s as [|c s IH]; intros H; [reflexivity|].
  rewrite contains_slash_cons in H. apply orb_false_iff in H as [Hc Hs].
  simpl. rewrite Hc, (IH Hs). reflexivity.
Qed.


(** * Valid names and slash-joined paths *)

Lemma valid_name_inv (s : string) :
  valid_name s = true ->
  String.eqb s "" = false /\ String.eqb s "." = false
  /\ String.eqb s ".." = false /\ Str.contains "/" s = false.
Proof.
  unfold valid_name. intros H.
  repeat (apply andb_true_iff in H as [H ?]).
  repeat split; apply negb_true_iff; assumption.
Qed.

Lemma valid_name_head (s : string) :
  valid_name s = true ->
  exists c rest, s = String c rest /\ Ascii.eqb c "/" = false.
Proof.
  intros H. apply valid_name_inv in H as (H0 & _ & _ & Hs).
  destruct s as [|c rest]; [discriminate|].
  rewrite contains_slash_cons in Hs. apply orb_false_iff in Hs as [Hc _].
  exists c, rest. split; [reflexivity | exact Hc].
Qed.

Lemma join_cons (x y : string) (r : list string) :
  Str.join "/" (x :: y :: r) = x +++ String "/" (Str.join "/" (y :: r)).
Proof. reflexivity. Qed.

Lemma join_app (a b : list string) :
  a <> [] -> b <> [] ->
  Str.join "/" (a ++ b) = Str.join "/" a +++ String "/" (Str.join "/" b).
Proof.
  intros Ha Hb. induction a as [|x a IH]; [contradiction|].
  destruct a as [|y a].
  - destruct b as [|z b]; [contradiction|]. reflexivity.
  - change ((x :: y :: a) ++ b) with (x :: y :: (a ++ b)).
    rewrite !join_cons. change (y :: a ++ b) with ((y :: a) ++ b).
    rewrite IH by discriminate. rewrite append_assoc. reflexivity.
Qed.

Lemma join_head (x : string) (r : list string) :
  valid_name x = true ->
  exists c rest, Str.join "/" (x :: r) = String c rest /\ Ascii.eqb c "/" = false.
Proof.
  intros H. destruct (valid_name_head _ H) as (c & rest & -> & Hc).
  destruct r as [|y r].
  - exists c, rest; split; [reflexivity | exact Hc].
  - rewrite join_cons. exists c. eexists. split; [reflexivity | exact Hc].
Qed.

Lemma split_join (segs : list string) :
  forallb valid_name segs = true -> segs <> [] ->
  Str.split "/" (Str.join "/" segs) = segs.
Proof.
  induction segs as [|x segs IH]; intros Hv Hne; [contradiction|].
  cbn [forallb] in Hv. apply andb_true_iff in Hv as [Hx Hv].
  apply valid_name_inv in Hx as (_ & _ & _ & Hx).
  destruct segs as [|y r].
  - apply split_no_slash, Hx.
  - rewrite join_cons, split_app, (split_no_slash _ Hx), IH by (auto; discriminate).
    reflexivity.
Qed.

Lemma startswith_slash_false (c : ascii) (s : string) :
  Ascii.eqb c "/" = false -> Str.startswith (String c s) "/" = false.
Proof.
  intros H. unfold Str.startswith. rewrite prefix_cons, Ascii.eqb_sym, H. reflexivity.
Qed.

Lemma endswith_cons (c : ascii) (s suf : string) :
  Str.endswith (String c s) suf
  = String.eqb (String c s) suf || Str.endswith s suf.
Proof. reflexivity. Qed.

Lemma endswith_no_slash (s : string) :
  Str.contains "/" s = false -> Str.endswith s "/" = false.
Proof.
  induction s as [|c s IH]; intros H; [reflexivity|].
  rewrite contains_slash_cons in H. apply orb_false_iff in H as [Hc Hs].
  rewrite endswith_cons, (IH Hs), orb_false_r.
  cbn [String.eqb]. rewrite Hc. reflexivity.
Qed.

Lemma endswith_app (a b : string) :
  b <> "" -> Str.endswith (a +++ b) "/" = Str.endswith b "/".
Proof.
  intros Hb. induction a as [|c a IH]; [reflexivity|].
  cbn [String.append]. rewrite endswith_cons, IH.
  destruct (a +++ b) eqn:E.
  - destruct a; [cbn in E; contradiction | discriminate].
  - cbn [String.eqb]. destruct (Ascii.eqb c "/"); reflexivity.
Qed.

Lemma join_not_empty (x : string) (r : list string) :
  valid_name x = true -> Str.join "/" (x :: r) <> "".
Proof.
  intros H. destruct (join_head x r H) as (c & rest & -> & _). discriminate.
Qed.

Lemma endswith_join (segs : list string) :
  forallb valid_name segs = true -> segs <> [] ->
  Str.endswith (Str.join "/" segs) "/" = false.
Proof.
  induction segs as [|x segs IH]; intros Hv Hne; [contradiction|].
  cbn [forallb] in Hv. apply andb_true_iff in Hv as [Hx Hv].
  destruct segs as [|y r].
  - apply endswith_no_slash. apply valid_name_inv in Hx. tauto.
  - rewrite join_cons.
    change (x +++ String "/" (Str.join "/" (y :: r)))
      with (x +++ "/" +++ Str.join "/" (y :: r)).
    rewrite <- append_assoc, endswith_app.
    + apply IH; [exact Hv | discriminate].
    + cbn [forallb] in Hv. apply andb_true_iff in Hv as [Hy _].
      apply join_not_empty, Hy.
Qed.

Lemma eqb_empty_false (s : string) : s <> "" -> String.eqb s "" = false.
Proof. intros H. apply String.eqb_neq, H. Qed.

(** [os.path.join] of a relative path and a name appends ["/name"]. *)
Lemma join2_valid (l : list string) (x : string) :
  forallb valid_name l = true -> l <> [] -> valid_name x = true ->
  OsPath.join2 (Str.join "/" l) x = Str.join "/" (l ++ [x]).
Proof.
  intros Hl Hne Hx. unfold OsPath.join2.
  destruct (valid_name_head _ Hx) as (c & rest & E & Hc).
  rewrite E at 1. rewrite (startswith_slash_false _ _ Hc).
  rewrite (endswith_join _ Hl Hne), orb_false_r.
  destruct l as [|y l]; [contradiction|].
  cbn [forallb] in Hl. apply andb_true_iff in Hl as [Hy Hl].
  rewrite (eqb_empty_false _ (join_not_empty y l Hy)).
  rewrite join_app by discriminate. reflexivity.
Qed.

Lemma forallb_snoc {A} (f : A -> bool) (l : list A) (x : A) :
  forallb f (l ++ [x]) = forallb f l && f x.
Proof. rewrite forallb_app. cbn. rewrite andb_true_r. reflexivity. Qed.

Lemma join_fold (l p : list string) :
  forallb valid_name l = true -> l <> [] -> forallb valid_name p = true ->
  fold_left OsPath.join2 p (Str.join "/" l) = Str.join "/" (l ++ p).
Proof.
  revert l. induction p as [|x p IH]; intros l Hl Hne Hp.
  - rewrite app_nil_r. reflexivity.
  - cbn [forallb] in Hp. apply andb_true_iff in Hp as [Hx Hp].
    cbn [fold_left]. rewrite join2_valid by assumption.
    rewrite IH.
    + rewrite <- app_assoc. reflexivity.
    + rewrite forallb_snoc, Hl, Hx. reflexivity.
    + destruct l; discriminate.
    + exact Hp.
Qed.

Lemma ospath_join_valid (a : string) (p : list string) :
  forallb valid_name (a :: p) = true ->
  OsPath.join a p = Str.join "/" (a :: p).
Proof.
  intros H. cbn [forallb] in H. apply andb_true_iff in H as [Ha Hp].
  unfold OsPath.join. change a with (Str.join "/" [a]) at 1.
  rewrite join_fold; [reflexivity | cbn; rewrite Ha; reflexivity | discriminate | exact Hp].
Qed.

Lemma keep_component_valid (s : string) :
  valid_name s = true -> Pathlib.keep_component s = true.
Proof.
  intros H. apply valid_name_inv in H as (H0 & H1 & _).
  unfold Pathlib.keep_component. rewrite H0, H1. reflexivity.
Qed.

Lemma filter_all {A} (f : A -> bool) (l : list A) :
  forallb f l = true -> filter f l = l.
Proof.
  induction l as [|x l IH]; intros H; [reflexivity|].
  cbn in *. apply andb_true_iff in H as [Hx Hl]. rewrite Hx, IH; auto.
Qed.

Lemma forallb_impl {A} (f g : A -> bool) (l : list A) :
  (forall x, f x = true -> g x = true) ->
  forallb f l = true -> forallb g l = true.
Proof.
  intros Hfg H. rewrite forallb_forall in *. auto.
Qed.

Lemma components_join (segs : list string) :
  forallb valid_name segs = true -> segs <> [] ->
  components (Str.join "/" segs) = segs.
Proof.
  intros Hv Hne. unfold components. rewrite split_join by assumption.
  apply filter_all. eapply forallb_impl; [apply keep_component_valid | exact Hv].
Qed.

Lemma splitroot_other (c : ascii) (s : string) :
  Ascii.eqb c "/" = false ->
  Pathlib.splitroot (String c s) = ("", String c s).
Proof.
  destruct c as [[] [] [] [] [] [] [] []]; intros H;
    first [reflexivity | discriminate H].
Qed.

Lemma parts_join (segs : list string) :
  forallb valid_name segs = true -> segs <> [] ->
  Pathlib.parts (Str.join "/" segs) = segs.
Proof.
  intros Hv Hne. destruct segs as [|x r]; [contradiction|].
  pose proof Hv as Hv'. cbn [forallb] in Hv'. apply andb_true_iff in Hv' as [Hx _].
  destruct (join_head x r Hx) as (c & rest & E & Hc).
  unfold Pathlib.parts. rewrite E, (splitroot_other _ _ Hc). cbn [String.eqb app].
  rewrite <- E, split_join by assumption.
  apply filter_all. eapply forallb_impl; [apply keep_component_valid | exact Hv].
Qed.

Lemma should_exclude_join (segs : list string) :
  forallb valid_name segs = true -> segs <> [] ->
  should_exclude (Str.join "/" segs) = exclude_loop segs.
Proof. intros Hv Hne. unfold should_exclude. rewrite parts_join; auto. Qed.


(** * [normpath], [abspath] and [relpath] on well-formed paths *)

Lemma norm_step_valid (k : nat) (acc : list string) (s : string) :
  valid_name s = true -> OsPath.norm_step k acc s = acc ++ [s].
Proof.
  intros H. apply valid_name_inv in H as (H0 & H1 & H2 & _).
  unfold OsPath.norm_step. rewrite H0, H1, H2. reflexivity.
Qed.

Lemma norm_fold_valid (k : nat) (segs acc : list string) :
  forallb valid_name segs = true ->
  fold_left (OsPath.norm_step k) segs acc = acc ++ segs.
Proof.
  revert acc. induction segs as [|x segs IH]; intros acc H.
  - rewrite app_nil_r. reflexivity.
  - cbn [forallb] in H. apply andb_true_iff in H as [Hx Hs].
    cbn [fold_left]. rewrite norm_step_valid, IH, <- app_assoc by assumption.
    reflexivity.
Qed.

Lemma normpath_relative (segs : list string) :
  forallb valid_name segs = true -> segs <> [] ->
  OsPath.normpath (Str.join "/" segs) = Str.join "/" segs.
Proof.
  intros Hv Hne. destruct segs as [|x r]; [contradiction|].
  pose proof Hv as Hv'. cbn [forallb] in Hv'. apply andb_true_iff in Hv' as [Hx _].
  destruct (join_head x r Hx) as (c & rest & E & Hc).
  assert (Str.startswith (Str.join "/" (x :: r)) "/" = false) as Hs
      by (rewrite E; apply startswith_slash_false, Hc).
  unfold OsPath.normpath.
  rewrite (eqb_empty_false _ (join_not_empty x r Hx)), Hs.
  rewrite split_join, norm_fold_valid by assumption.
  cbn [OsPath.slashes String.append app].
  rewrite (eqb_empty_false _ (join_not_empty x r Hx)). reflexivity.
Qed.

Lemma split_cwd_of (csegs : list string) :
  forallb valid_name csegs = true ->
  Str.split "/" (cwd_of csegs) = "" :: match csegs with [] => [""] | _ => csegs end.
Proof.
  intros Hv. unfold cwd_of. cbn [String.append Str.split]. cbn [Ascii.eqb Bool.eqb].
  f_equal. destruct csegs; [reflexivity|]. apply split_join; [exact Hv | discriminate].
Qed.

Lemma normpath_cwd_of (csegs : list string) :
  forallb valid_name csegs = true ->
  OsPath.normpath (cwd_of csegs) = cwd_of csegs.
Proof.
  intros Hv.
  assert (cwd_of csegs = String "/" (Str.join "/" csegs)) as E by reflexivity.
  assert (String.eqb (cwd_of csegs) "" = false) as H0 by reflexivity.
  assert (Str.startswith (cwd_of csegs) "/" = true) as H1.
  { rewrite E. unfold Str.startswith. rewrite prefix_cons, prefix_nil. reflexivity. }
  assert (Str.startswith (cwd_of csegs) "//" = false) as H2.
  { rewrite E. unfold Str.startswith.
    rewrite prefix_cons. destruct csegs as [|x r]; [reflexivity|].
    cbn [forallb] in Hv. apply andb_true_iff in Hv as [Hx _].
    destruct (join_head x r Hx) as (c & rest & -> & Hc).
    rewrite prefix_cons, (Ascii.eqb_sym "/" c), Hc. reflexivity. }
  unfold OsPath.normpath. rewrite H0, H1, H2, (split_cwd_of _ Hv).
  cbn [andb fold_left].
  change (OsPath.norm_step 1 [] "") with (@nil string).
  destruct csegs as [|x r]; [reflexivity|].
  rewrite norm_fold_valid by assumption. reflexivity.
Qed.

Lemma endswith_cwd_of (csegs : list string) :
  forallb valid_name csegs = true ->
  Str.endswith (cwd_of csegs) "/" = OsPath.is_nil csegs.
Proof.
  intros Hv. destruct csegs as [|x r]; [reflexivity|].
  unfold cwd_of. change ("/" +++ Str.join "/" (x :: r))
    with ("/" +++ Str.join "/" (x :: r)).
  rewrite endswith_app.
  - apply endswith_join; [exact Hv | discriminate].
  - cbn [forallb] in Hv. apply andb_true_iff in Hv as [Hx _].
    apply join_not_empty, Hx.
Qed.

Lemma cwd_of_app (csegs psegs : list string) :
  psegs <> [] ->
  cwd_of (csegs ++ psegs)
  = if OsPath.is_nil csegs then cwd_of csegs +++ Str.join "/" psegs
    else cwd_of csegs +++ String "/" (Str.join "/" psegs).
Proof.
  intros Hp. destruct csegs as [|x r]; [reflexivity|].
  unfold cwd_of. cbn [OsPath.is_nil]. rewrite join_app by (auto; discriminate).
  rewrite append_assoc. reflexivity.
Qed.

(** A relative path below the working directory becomes absolute by
    appending its components to those of the working directory. *)
Lemma abspath_relative (csegs psegs : list string) :
  forallb valid_name csegs = true -> forallb valid_name psegs = true ->
  psegs <> [] ->
  OsPath.abspath (cwd_of csegs) (Str.join "/" psegs) = cwd_of (csegs ++ psegs).
Proof.
  intros Hc Hp Hne. unfold OsPath.abspath, OsPath.isabs, OsPath.join2.
  destruct psegs as [|x r]; [contradiction|].
  pose proof Hp as Hp'. cbn [forallb] in Hp'. apply andb_true_iff in Hp' as [Hx _].
  destruct (join_head x r Hx) as (c & rest & E & Hs).
  assert (Str.startswith (Str.join "/" (x :: r)) "/" = false) as Hst
      by (rewrite E; apply startswith_slash_false, Hs).
  rewrite !Hst, (endswith_cwd_of _ Hc).
  assert (String.eqb (cwd_of csegs) "" = false) as -> by reflexivity.
  cbn [orb].
  assert (forallb valid_name (csegs ++ x :: r) = true) as Hall
      by (rewrite forallb_app, Hc, Hp; reflexivity).
  rewrite <- (normpath_cwd_of _ Hall). f_equal.
  rewrite (cwd_of_app csegs (x :: r)) by discriminate.
  destruct (OsPath.is_nil csegs); reflexivity.
Qed.

Lemma nonempty_valid (s : string) :
  valid_name s = true -> OsPath.nonempty s = true.
Proof.
  intros H. apply valid_name_inv in H as (H0 & _). unfold OsPath.nonempty.
  rewrite H0. reflexivity.
Qed.

Lemma abs_components (csegs : list string) :
  forallb valid_name csegs = true ->
  filter OsPath.nonempty (Str.split "/" (cwd_of csegs)) = csegs.
Proof.
  intros Hv. rewrite (split_cwd_of _ Hv). cbn [filter OsPath.nonempty String.eqb negb].
  destruct csegs as [|x r]; [reflexivity|].
  apply filter_all. eapply forallb_impl; [apply nonempty_valid | exact Hv].
Qed.

Lemma common_len_app (l r : list string) :
  OsPath.common_len l (l ++ r) = List.length l.
Proof.
  induction l as [|x l IH]; [destruct r; reflexivity|].
  cbn. rewrite String.eqb_refl, IH. reflexivity.
Qed.

Lemma skipn_app_exact {A} (l r : list A) : skipn (List.length l) (l ++ r) = r.
Proof. induction l; cbn; auto. Qed.

Lemma abspath_name (csegs : list string) (name : string) :
  forallb valid_name csegs = true -> valid_name name = true ->
  OsPath.abspath (cwd_of csegs) name = cwd_of (csegs ++ [name]).
Proof.
  intros Hc Hn. apply (abspath_relative csegs [name]);
    [exact Hc | cbn [forallb]; rewrite Hn; reflexivity | discriminate].
Qed.

(** The archive name both builders compute: for a file [rest] levels below
    the start directory, [relpath] returns exactly those levels. *)
Lemma relpath_below (csegs : list string) (start : string) (rest : list string) :
  forallb valid_name csegs = true -> valid_name start = true ->
  forallb valid_name rest = true -> rest <> [] ->
  OsPath.relpath (cwd_of csegs) (Str.join "/" (start :: rest)) start
  = Some (Str.join "/" rest).
Proof.
  intros Hc Hs Hr Hne.
  assert (forallb valid_name (start :: rest) = true) as Hsr
      by (cbn [forallb]; rewrite Hs, Hr; reflexivity).
  assert (forallb valid_name (csegs ++ [start]) = true) as Hcs
      by (rewrite forallb_snoc, Hc, Hs; reflexivity).
  assert (forallb valid_name (csegs ++ start :: rest) = true) as Hall
      by (rewrite forallb_app, Hc, Hsr; reflexivity).
  unfold OsPath.relpath.
  rewrite (eqb_empty_false _ (join_not_empty start rest Hs)).
  rewrite abspath_name, abspath_relative by (assumption || discriminate).
  rewrite !abs_components by assumption.
  replace (csegs ++ start :: rest) with ((csegs ++ [start]) ++ rest)
    by (rewrite <- app_assoc; reflexivity).
  rewrite common_len_app, Nat.sub_diag, skipn_app_exact.
  cbn [List.repeat app]. destruct rest as [|a p]; [contradiction|].
  rewrite ospath_join_valid by assumption. reflexivity.
Qed.

Lemma lstrip_other (c : ascii) (s : string) :
  Ascii.eqb c "/" = false -> lstrip_slashes (String c s) = String c s.
Proof.
  destruct c as [[] [] [] [] [] [] [] []]; intros H;
    first [reflexivity | discriminate H].
Qed.

Lemma member_name_relative (segs : list string) :
  forallb valid_name segs = true -> segs <> [] ->
  member_name (Str.join "/" segs) = Str.join "/" segs.
Proof.
  intros Hv Hne. unfold member_name. rewrite normpath_relative by assumption.
  destruct segs as [|x r]; [contradiction|].
  cbn [forallb] in Hv. apply andb_true_iff in Hv as [Hx _].
  destruct (join_head x r Hx) as (c & rest & -> & Hc).
  apply lstrip_other, Hc.
Qed.


(** * The exclusion predicate on arbitrary path strings *)

Lemma exclude_loop_existsb (l : list string) :
  exclude_loop l = existsb (fun s => pattern_hit s || hidden_hit s) l.
Proof.
  induction l as [|x l IH]; [reflexivity|].
  cbn [exclude_loop existsb]. rewrite IH.
  destruct (pattern_hit x), (hidden_hit x); reflexivity.
Qed.

Lemma exclude_loop_app (a b : list string) :
  exclude_loop (a ++ b) = exclude_loop a || exclude_loop b.
Proof. rewrite !exclude_loop_existsb. apply existsb_app. Qed.

Lemma existsb_filter {A} (keep f : A -> bool) (l : list A) :
  existsb f (filter keep l) = existsb (fun x => keep x && f x) l.
Proof.
  induction l as [|x l IH]; [reflexivity|].
  cbn [filter existsb]. destruct (keep x); cbn [existsb andb]; rewrite IH; reflexivity.
Qed.

Lemma split_slash_cons (s : string) :
  Str.split "/" (String "/" s) = "" :: Str.split "/" s.
Proof. reflexivity. Qed.

Lemma splitroot_one (c : ascii) (s : string) :
  Ascii.eqb c "/" = false ->
  Pathlib.splitroot (String "/" (String c s)) = ("/", String c s).
Proof.
  destruct c as [[] [] [] [] [] [] [] []]; intros H;
    first [reflexivity | discriminate H].
Qed.

Lemma splitroot_two (c : ascii) (s : string) :
  Ascii.eqb c "/" = false ->
  Pathlib.splitroot (String "/" (String "/" (String c s))) = ("//", String c s).
Proof.
  destruct c as [[] [] [] [] [] [] [] []]; intros H;
    first [reflexivity | discriminate H].
Qed.

(** The parts of a path are its root, if it has one, followed by the
    segments that are neither empty nor ['.']. *)
Lemma parts_shape (p : string) :
  exists rootl,
    Pathlib.parts p = rootl ++ filter Pathlib.keep_component (segments p)
    /\ (rootl = [] \/ rootl = ["/"] \/ rootl = ["//"]).
Proof.
  unfold segments.
  destruct p as [|c1 p]; [exists []; split; [reflexivity | tauto]|].
  destruct (Ascii.eqb c1 "/") eqn:E1.
  2: { exists []. split; [|tauto]. unfold Pathlib.parts.
       rewrite (splitroot_other _ _ E1). reflexivity. }
  apply Ascii.eqb_eq in E1 as ->.
  destruct p as [|c2 p]; [exists ["/"]; split; [reflexivity | tauto]|].
  destruct (Ascii.eqb c2 "/") eqn:E2.
  2: { exists ["/"]. split; [|tauto]. unfold Pathlib.parts.
       rewrite (splitroot_one _ _ E2), split_slash_cons. reflexivity. }
  apply Ascii.eqb_eq in E2 as ->.
  destruct p as [|c3 p]; [exists ["//"]; split; [reflexivity | tauto]|].
  destruct (Ascii.eqb c3 "/") eqn:E3.
  2: { exists ["//"]. split; [|tauto]. unfold Pathlib.parts.
       rewrite (splitroot_two _ _ E3), !split_slash_cons. reflexivity. }
  apply Ascii.eqb_eq in E3 as ->.
  exists ["/"]. split; [reflexivity | tauto].
Qed.

(** What [should_exclude] computes, read off the textual segments. *)
Lemma should_exclude_segments (p : string) :
  should_exclude p
  = existsb (fun s => Pathlib.keep_component s && (pattern_hit s || hidden_hit s))
      (segments p).
Proof.
  unfold should_exclude. destruct (parts_shape p) as (rootl & -> & Hr).
  rewrite exclude_loop_app, (exclude_loop_existsb (filter _ _)), existsb_filter.
  destruct Hr as [->|[->| ->]]; reflexivity.
Qed.

Lemma pattern_hit_intro (pat seg : string) :
  In pat exclude_patterns -> Str.contains pat seg = true -> pattern_hit seg = true.
Proof.
  intros Hin Hc. unfold pattern_hit. apply existsb_exists. exists pat; auto.
Qed.

Lemma pattern_hit_keep (seg : string) :
  pattern_hit seg = true -> Pathlib.keep_component seg = true.
Proof.
  intros H. unfold Pathlib.keep_component.
  destruct (String.eqb_spec seg "") as [->|_]; [discriminate H|].
  destruct (String.eqb_spec seg ".") as [->|_]; [discriminate H|].
  reflexivity.
Qed.

Lemma should_exclude_pattern (p seg : string) :
  In seg (segments p) -> pattern_hit seg = true -> should_exclude p = true.
Proof.
  intros Hin Hhit. rewrite should_exclude_segments. apply existsb_exists.
  exists seg. split; [exact Hin|].
  rewrite (pattern_hit_keep _ Hhit), Hhit. reflexivity.
Qed.

Lemma should_exclude_clean (p : string) :
  (forall seg, In seg (segments p) ->
     pattern_hit seg = false /\ hidden_hit seg = false) ->
  should_exclude p = false.
Proof.
  intros H. rewrite should_exclude_segments.
  apply not_true_is_false. intros Hex. apply existsb_exists in Hex as (seg & Hin & Hs).
  destruct (H seg Hin) as [H1 H2]. rewrite H1, H2, andb_false_r in Hs. discriminate.
Qed.

Lemma pattern_hit_false (seg : string) :
  (forall pat, In pat exclude_patterns -> Str.contains pat seg = false) ->
  pattern_hit seg = false.
Proof.
  intros H. unfold pattern_hit. apply not_true_is_false. intros Hex.
  apply existsb_exists in Hex as (pat & Hin & Hc). rewrite (H pat Hin) in Hc.
  discriminate.
Qed.


(** * Directory listings *)

Section Assoc.
Context {A : Type}.
Implicit Types (es : list (string * A)) (k : string) (v : A).

Lemma assoc_app k es1 es2 :
  assoc k (es1 ++ es2)
  = match assoc k es1 with Some v => Some v | None => assoc k es2 end.
Proof.
  induction es1 as [|[k' v'] es1 IH]; [reflexivity|].
  cbn [app assoc]. destruct (String.eqb k' k); [reflexivity | exact IH].
Qed.

Lemma assoc_put_same k v es : assoc k (put k v es) = Some v.
Proof.
  induction es as [|[k' v'] es IH]; cbn [put assoc].
  - rewrite String.eqb_refl. reflexivity.
  - destruct (String.eqb k' k) eqn:E; cbn [assoc]; rewrite E; [reflexivity | exact IH].
Qed.

Lemma assoc_put_other k k' v es :
  k <> k' -> assoc k' (put k v es) = assoc k' es.
Proof.
  intros Hne. induction es as [|[k0 v0] es IH]; cbn [put assoc].
  - apply String.eqb_neq in Hne. rewrite Hne. reflexivity.
  - destruct (String.eqb k0 k) eqn:E; cbn [assoc].
    + apply String.eqb_eq in E as ->. apply String.eqb_neq in Hne.
      rewrite Hne. reflexivity.
    + rewrite IH. reflexivity.
Qed.

Lemma assoc_drop_same k es : assoc k (drop k es) = None.
Proof.
  induction es as [|[k' v'] es IH]; [reflexivity|].
  unfold drop in *. cbn [filter fst]. destruct (String.eqb k' k) eqn:E; cbn [negb].
  - exact IH.
  - cbn [assoc]. rewrite E. exact IH.
Qed.

Lemma assoc_drop_other k k' es :
  k <> k' -> assoc k' (drop k es) = assoc k' es.
Proof.
  intros Hne. induction es as [|[k0 v0] es IH]; [reflexivity|].
  unfold drop in *. cbn [filter fst]. destruct (String.eqb k0 k) eqn:E; cbn [negb assoc].
  - apply String.eqb_eq in E as ->. apply String.eqb_neq in Hne. rewrite Hne. exact IH.
  - rewrite IH. reflexivity.
Qed.

Lemma put_absent k v es : assoc k es = None -> put k v es = es ++ [(k, v)].
Proof.
  induction es as [|[k' v'] es IH]; intros H; [reflexivity|].
  cbn [assoc] in H. cbn [put app]. destruct (String.eqb k' k); [discriminate|].
  rewrite IH by exact H. reflexivity.
Qed.

Lemma put_last k v v' es :
  assoc k es = None -> put k v (es ++ [(k, v')]) = es ++ [(k, v)].
Proof.
  induction es as [|[k0 v0] es IH]; intros H.
  - cbn. rewrite String.eqb_refl. reflexivity.
  - cbn [assoc] in H. cbn [put app]. destruct (String.eqb k0 k); [discriminate|].
    rewrite IH by exact H. reflexivity.
Qed.

Lemma drop_absent k es : assoc k es = None -> drop k es = es.
Proof.
  induction es as [|[k' v'] es IH]; intros H; [reflexivity|].
  cbn [assoc] in H. unfold drop in *. cbn [filter fst].
  destruct (String.eqb k' k); [discriminate|]. cbn [negb]. rewrite IH by exact H.
  reflexivity.
Qed.

Lemma drop_app k es1 es2 : drop k (es1 ++ es2) = drop k es1 ++ drop k es2.
Proof. apply filter_app. Qed.

Lemma drop_single_same k v : drop k [(k, v)] = [].
Proof. unfold drop. cbn. rewrite String.eqb_refl. reflexivity. Qed.

Lemma drop_single_other k k' v : k' <> k -> drop k [(k', v)] = [(k', v)].
Proof.
  intros H. apply String.eqb_neq in H. unfold drop. cbn. rewrite H. reflexivity.
Qed.

Lemma drop_drop k es : drop k (drop k es) = drop k es.
Proof. apply drop_absent, assoc_drop_same. Qed.

Lemma mem_in k (l : list string) : Str.mem k l = true <-> In k l.
Proof.
  unfold Str.mem. rewrite existsb_exists. split.
  - intros (x & Hin & E). apply String.eqb_eq in E as ->. exact Hin.
  - intros Hin. exists k. split; [exact Hin | apply String.eqb_refl].
Qed.

Lemma assoc_in_distinct k v es :
  distinct (map fst es) = true -> In (k, v) es -> assoc k es = Some v.
Proof.
  induction es as [|[k' v'] es IH]; intros Hd Hin; [contradiction|].
  cbn [map fst distinct] in Hd. apply andb_true_iff in Hd as [Hk Hd].
  cbn [assoc]. destruct Hin as [E|Hin].
  - injection E as -> ->. rewrite String.eqb_refl. reflexivity.
  - destruct (String.eqb_spec k' k) as [->|_]; [|auto].
    apply negb_true_iff in Hk. exfalso.
    assert (Str.mem k (map fst es) = true) as Hm
        by (apply mem_in, in_map_iff; exists (k, v); auto).
    congruence.
Qed.

Lemma assoc_map {B} (g : A -> B) k es :
  assoc k (map (fun e => (fst e, g (snd e))) es) = option_map g (assoc k es).
Proof.
  induction es as [|[k' v'] es IH]; [reflexivity|].
  cbn [map assoc fst snd]. destruct (String.eqb k' k); [reflexivity | exact IH].
Qed.

End Assoc.

(** * Well-formed trees *)

Lemma node_induction (P : node -> Prop) :
  (forall c, P (File c)) ->
  (forall es, Forall (fun e => P (snd e)) es -> P (Dir es)) ->
  forall n, P n.
Proof.
  intros HF HD. fix IH 1. intros [c|es]; [apply HF|].
  apply HD. induction es as [|[name child] es IHes]; constructor.
  - apply IH.
  - exact IHes.
Qed.

Lemma wf_dir_inv (es : directory) :
  wf_node (Dir es) = true ->
  distinct (map fst es) = true /\ Forall wf_entry es.
Proof.
  cbn [wf_node]. intros H. apply andb_true_iff in H as [Hd He].
  split; [exact Hd|]. clear Hd.
  induction es as [|[name child] es IH]; constructor.
  - apply andb_true_iff in He as [He _]. apply andb_true_iff in He as [H1 H2].
    split; assumption.
  - apply IH. apply andb_true_iff in He as [_ He]. exact He.
Qed.

Lemma wf_dir_intro (es : directory) :
  distinct (map fst es) = true -> Forall wf_entry es -> wf_node (Dir es) = true.
Proof.
  intros Hd He. cbn [wf_node]. rewrite Hd. cbn [andb].
  induction He as [|[name child] es [H1 H2] He IH]; [reflexivity|].
  cbn [fst snd] in *. rewrite H1, H2. cbn [andb].
  apply IH. cbn [map distinct] in Hd. apply andb_true_iff in Hd as [_ Hd]. exact Hd.
Qed.

Lemma wf_child (es : directory) (name : string) (child : node) :
  wf_node (Dir es) = true -> In (name, child) es ->
  valid_name name = true /\ wf_node child = true
  /\ assoc name es = Some child.
Proof.
  intros Hwf Hin. apply wf_dir_inv in Hwf as [Hd He].
  rewrite Forall_forall in He. destruct (He _ Hin) as [H1 H2].
  repeat split; [exact H1 | exact H2 | apply assoc_in_distinct; assumption].
Qed.

Lemma resolve_snoc (segs : list string) (x : string) (n : node) :
  resolve (segs ++ [x]) n
  = match resolve segs n with
    | Some (Dir es) => assoc x es
    | _ => None
    end.
Proof.
  revert n. induction segs as [|s segs IH]; intros n.
  - cbn. destruct n as [c|es]; [reflexivity|]. destruct (assoc x es); reflexivity.
  - cbn [app resolve]. destruct n as [c|es]; [reflexivity|].
    destruct (assoc s es) as [child|]; [apply IH | reflexivity].
Qed.

(** * The script monad *)

Lemma after_nil {A} (r : outcome A) : after [] r = r.
Proof. destruct r; reflexivity. Qed.

Lemma after_after {A} (o1 o2 : list string) (r : outcome A) :
  after o1 (after o2 r) = after (o1 ++ o2) r.
Proof. destruct r; cbn; rewrite app_assoc; reflexivity. Qed.

Lemma bind_done {A B} (m : M A) (k : A -> M B) s a s1 o1 :
  m s = Done a s1 o1 -> bind m k s = after o1 (k a s1).
Proof. intros H. unfold bind. rewrite H. reflexivity. Qed.

Lemma bind_raised {A B} (m : M A) (k : A -> M B) s e s1 o1 :
  m s = Raised e s1 o1 -> bind m k s = Raised e s1 o1.
Proof. intros H. unfold bind. rewrite H. reflexivity. Qed.

Lemma bind_inv {A B} (m : M A) (k : A -> M B) s b s2 o :
  bind m k s = Done b s2 o ->
  exists a s1 o1 o2,
    m s = Done a s1 o1 /\ k a s1 = Done b s2 o2 /\ o = o1 ++ o2.
Proof.
  unfold bind. destruct (m s) as [a s1 o1|]; [|discriminate].
  destruct (k a s1) as [b' s2' o2|] eqn:E; cbn; [|discriminate].
  intros H. injection H as -> -> <-. exists a, s1, o1, o2. auto.
Qed.

Lemma set_zipf_same (s : process) (z : option archive) :
  zipf s = z -> set_zipf z s = s.
Proof. destruct s; cbn; intros ->; reflexivity. Qed.

Lemma set_disk_same (s : process) : set_disk (disk s) s = s.
Proof. destruct s; reflexivity. Qed.


(** * The directory walk *)

Lemma files_under_dir (prefix : list string) (es : directory) :
  files_under prefix (Dir es) = files_here prefix es ++ files_below prefix es.
Proof.
  cbn [files_under]. f_equal. unfold files_below.
  induction es as [|[name child] es IH]; [reflexivity|].
  cbn [flat_map fst snd]. rewrite IH. reflexivity.
Qed.

Lemma files_here_prefix (prefix : list string) (es : directory) f :
  In f (files_here prefix es) ->
  exists name c, fst f = prefix ++ [name] /\ snd f = c /\ In (name, File c) es.
Proof.
  induction es as [|[name [c|sub]] es IH]; cbn [files_here]; intros H.
  - contradiction.
  - destruct H as [<-|H].
    + exists name, c. cbn. auto.
    + destruct (IH H) as (n & c' & ? & ? & ?). exists n, c'. cbn. auto.
  - destruct (IH H) as (n & c' & ? & ? & ?). exists n, c'. cbn. auto.
Qed.

Lemma files_under_prefix (n : node) :
  forall prefix f, In f (files_under prefix n) -> exists q, fst f = prefix ++ q.
Proof.
  induction n as [c|es IH] using node_induction; intros prefix f H.
  - contradiction.
  - rewrite files_under_dir in H. apply in_app_iff in H as [H|H].
    + destruct (files_here_prefix _ _ _ H) as (name & c & E & _). eauto.
    + unfold files_below in H. apply in_flat_map in H as ([name child] & Hin & Hf).
      rewrite Forall_forall in IH. destruct (IH _ Hin _ _ Hf) as [q E].
      cbn [fst] in E. exists (name :: q). rewrite E, <- app_assoc. reflexivity.
Qed.

Lemma children_table visit (es : directory) :
  (fix sub (es : directory) : list (string * (string -> M unit)) :=
     match es with
     | [] => []
     | (name, child) :: es' =>
         (name, fun new_path => walk_node visit new_path child) :: sub es'
     end) es
  = map (fun e => (fst e, fun p => walk_node visit p (snd e))) es.
Proof.
  induction es as [|[name child] es IH]; [reflexivity|].
  cbn [map fst snd]. rewrite <- IH. reflexivity.
Qed.

Lemma walk_node_dir visit top (es : directory) :
  walk_node visit top (Dir es)
  = (dirs <- visit top (dirnames es) (filenames es) ;;
     for_each dirs (fun dirname =>
       match assoc dirname
               (map (fun e => (fst e, fun p => walk_node visit p (snd e))) es) with
       | Some descend => descend (OsPath.join2 top dirname)
       | None => ret tt
       end)).
Proof. cbn [walk_node]. rewrite children_table. reflexivity. Qed.

Lemma for_each_cons {A} (x : A) (xs : list A) (body : A -> M unit) :
  for_each (x :: xs) body = (body x ;; for_each xs body).
Proof. reflexivity. Qed.

Lemma kept_app keep a b : kept keep (a ++ b) = kept keep a ++ kept keep b.
Proof. apply filter_app. Qed.

Lemma lines_app say a b : lines say (a ++ b) = lines say a ++ lines say b.
Proof. apply flat_map_app. Qed.

Section Walk.

Variable visit : string -> list string -> list string -> M (list string).
Variable start : string.
Variable keep : list string -> bool.
Variable say : string -> list string.
Variable csegs : list string.

Hypothesis csegs_ok : forallb valid_name csegs = true.
Hypothesis start_ok : valid_name start = true.
Hypothesis keep_mono : forall p q, keep p = false -> keep (p ++ q) = false.

(** What one pass of the loop body does at a directory of the tree: it
    archives the kept files of that directory and leaves the kept
    subdirectories in [dirs]. *)
Hypothesis visit_ok : forall segs es s z,
  forallb valid_name segs = true ->
  wf_node (Dir es) = true ->
  cwd s = cwd_of csegs ->
  resolve (start :: segs) (Dir (disk s)) = Some (Dir es) ->
  zipf s = Some z ->
  visit (Str.join "/" (start :: segs)) (dirnames es) (filenames es) s
  = Done (filter (fun d => keep (segs ++ [d])) (dirnames es))
      (set_zipf (Some (z ++ map member_of (kept keep (files_here segs es)))) s)
      (lines say (kept keep (files_here segs es))).

Lemma kept_pruned (prefix : list string) (n : node) :
  keep prefix = false -> kept keep (files_under prefix n) = [].
Proof.
  intros Hk. unfold kept.
  pose proof (files_under_prefix n prefix) as Hp.
  induction (files_under prefix n) as [|f l IH]; [reflexivity|].
  cbn [filter]. destruct (Hp f (or_introl eq_refl)) as [q ->].
  rewrite (keep_mono _ _ Hk). apply IH. intros g Hg. apply Hp. right. exact Hg.
Qed.

Lemma set_zipf_twice (z z' : option archive) (s : process) :
  set_zipf z (set_zipf z' s) = set_zipf z s.
Proof. reflexivity. Qed.

Lemma root_path_snoc (segs : list string) (name : string) :
  forallb valid_name segs = true -> valid_name name = true ->
  OsPath.join2 (Str.join "/" (start :: segs)) name
  = Str.join "/" (start :: segs ++ [name]).
Proof.
  intros Hs Hn. change (start :: segs ++ [name]) with ((start :: segs) ++ [name]).
  apply join2_valid; [cbn [forallb]; rewrite start_ok, Hs; reflexivity
                     | discriminate | exact Hn].
Qed.

(** The walk archives exactly the kept files below its start, in top-down
    order, and prints the lines of the loop body for them. *)
Lemma walk_ok (n : node) :
  forall segs s z,
    forallb valid_name segs = true ->
    wf_node n = true ->
    cwd s = cwd_of csegs ->
    resolve (start :: segs) (Dir (disk s)) = Some n ->
    zipf s = Some z ->
    walk_node visit (Str.join "/" (start :: segs)) n s
    = Done tt
        (set_zipf (Some (z ++ map member_of (kept keep (files_under segs n)))) s)
        (lines say (kept keep (files_under segs n))).
Proof.
  induction n as [c|es IH] using node_induction; intros segs s z Hsegs Hwf Hcwd Hres Hz.
  - cbn. rewrite app_nil_r, set_zipf_same by exact Hz. reflexivity.
  - rewrite walk_node_dir, files_under_dir.
    erewrite bind_done by (apply visit_ok; eassumption).
    match goal with
    | |- context [for_each _ ?b] => set (body := b)
    end.
    set (z1 := z ++ map member_of (kept keep (files_here segs es))).
    set (s1 := set_zipf (Some z1) s).
    assert (forall sub, incl sub es ->
            forall s' z',
              cwd s' = cwd_of csegs -> disk s' = disk s -> zipf s' = Some z' ->
              for_each (filter (fun d => keep (segs ++ [d])) (dirnames sub)) body s'
              = Done tt
                  (set_zipf (Some (z' ++ map member_of (kept keep (files_below segs sub)))) s')
                  (lines say (kept keep (files_below segs sub)))) as Hloop.
    { induction sub as [|[name child] sub IHsub]; intros Hincl s' z' Hc' Hd' Hz'.
      - cbn. rewrite app_nil_r, set_zipf_same by exact Hz'. reflexivity.
      - assert (In (name, child) es) as Hin by (apply Hincl; left; reflexivity).
        assert (incl sub es) as Hincl' by (intros e He; apply Hincl; right; exact He).
        destruct (wf_child _ _ _ Hwf Hin) as (Hname & Hwfc & Hassoc).
        unfold files_below. cbn [flat_map fst snd]. fold (files_below segs sub).
        rewrite kept_app, map_app, lines_app.
        destruct child as [c|ces].
        + cbn [files_under kept filter map lines flat_map app].
          apply IHsub; assumption.
        + unfold dirnames. cbn [filter is_dir_entry snd map fst]. fold (dirnames sub).
          destruct (keep (segs ++ [name])) eqn:Hk.
          * rewrite for_each_cons.
            assert (body name s'
                    = Done tt
                        (set_zipf (Some (z' ++ map member_of
                           (kept keep (files_under (segs ++ [name]) (Dir ces))))) s')
                        (lines say (kept keep (files_under (segs ++ [name]) (Dir ces)))))
              as Hbody.
            { unfold body.
              pose proof (assoc_map (fun child (p : string) => walk_node visit p child)
                            name es) as Htab.
              cbn beta in Htab. rewrite Htab, Hassoc. cbn [option_map].
              rewrite root_path_snoc by assumption.
              rewrite Forall_forall in IH.
              change (start :: segs ++ [name]) with (start :: (segs ++ [name])).
              apply (IH _ Hin).
              - rewrite forallb_snoc, Hsegs, Hname. reflexivity.
              - exact Hwfc.
              - exact Hc'.
              - change (start :: segs ++ [name]) with ((start :: segs) ++ [name]).
                rewrite resolve_snoc, Hd', Hres. exact Hassoc.
              - exact Hz'. }
            erewrite bind_done by exact Hbody.
            erewrite IHsub; [|assumption..|reflexivity].
            cbn [after]. rewrite set_zipf_twice, app_assoc. reflexivity.
          * rewrite (kept_pruned _ _ Hk). cbn [map lines flat_map app].
            apply IHsub; assumption. }
    rewrite (Hloop es (incl_refl es) s1 z1); [| exact Hcwd | reflexivity | reflexivity].
    cbn [after]. subst s1 z1.
    rewrite set_zipf_twice, kept_app, map_app, lines_app, app_assoc. reflexivity.
Qed.

End Walk.


(** * Primitives on well-formed paths *)

Lemma lookup_join (segs : list string) (s : process) :
  forallb valid_name segs = true -> segs <> [] ->
  lookup (Str.join "/" segs) s = resolve segs (Dir (disk s)).
Proof. intros Hv Hne. unfold lookup. rewrite components_join by assumption. reflexivity. Qed.

Lemma resolve_single (p : string) (es : directory) :
  resolve [p] (Dir es) = assoc p es.
Proof. cbn. destruct (assoc p es); reflexivity. Qed.

Lemma lookup_top (p : string) (s : process) :
  valid_name p = true -> lookup p s = assoc p (disk s).
Proof.
  intros Hp. change p with (Str.join "/" [p]) at 1.
  rewrite lookup_join; [apply resolve_single | cbn; rewrite Hp; reflexivity | discriminate].
Qed.

Lemma in_parent_top (p : string) (f : string -> directory -> exn + directory)
    (s : process) (d' : directory) :
  valid_name p = true -> f p (disk s) = inr d' ->
  in_parent p f s = Done tt (set_disk d' s) [].
Proof.
  intros Hp Hf. unfold in_parent.
  change p with (Str.join "/" [p]) at 1.
  rewrite components_join; [| cbn; rewrite Hp; reflexivity | discriminate].
  cbn [split_last update_dir]. rewrite Hf. reflexivity.
Qed.

Lemma write_file_top (p : string) (c : content) (s : process) :
  valid_name p = true -> not_a_dir p (disk s) = true ->
  write_file p c s = Done tt (set_disk (put p (File c) (disk s)) s) [].
Proof.
  intros Hp Hnd. unfold write_file, not_a_dir in *. rewrite (lookup_top _ _ Hp).
  destruct (assoc p (disk s)) as [[c'|es]|]; [| discriminate |];
    apply in_parent_top; auto.
Qed.

Lemma os_path_relpath_ok (csegs : list string) (start : string)
    (rest : list string) (s : process) :
  forallb valid_name csegs = true -> valid_name start = true ->
  forallb valid_name rest = true -> rest <> [] ->
  cwd s = cwd_of csegs ->
  os_path_relpath (Str.join "/" (start :: rest)) start s
  = Done (Str.join "/" rest) s [].
Proof.
  intros Hc Hs Hr Hne Hcwd. unfold os_path_relpath.
  rewrite Hcwd, relpath_below by assumption. reflexivity.
Qed.

Lemma zip_write_file (path arcname : string) (c : content) (z : archive)
    (s : process) :
  zipf s = Some z -> lookup path s = Some (File c) ->
  zip_write path arcname s
  = Done tt (set_zipf (Some (z ++ [(member_name arcname, c)])) s) [].
Proof. intros Hz Hl. unfold zip_write. rewrite Hz, Hl. reflexivity. Qed.

Lemma os_walk_found (start : string) visit (n : node) (s : process) :
  valid_name start = true -> assoc start (disk s) = Some n ->
  os_walk start visit s = walk_node visit (Str.join "/" [start]) n s.
Proof.
  intros Hv Ha. unfold os_walk. rewrite lookup_top, Ha by exact Hv. reflexivity.
Qed.

Lemma os_walk_missing (start : string) visit (s : process) :
  valid_name start = true -> assoc start (disk s) = None ->
  os_walk start visit s = Done tt s [].
Proof.
  intros Hv Ha. unfold os_walk. rewrite lookup_top, Ha by exact Hv. reflexivity.
Qed.

Lemma dirnames_in (es : directory) (d : string) :
  In d (dirnames es) -> exists sub, In (d, Dir sub) es.
Proof.
  unfold dirnames. rewrite in_map_iff. intros ([name [c|sub]] & <- & Hin);
    apply filter_In in Hin as [Hin Hd]; [discriminate|].
  exists sub. exact Hin.
Qed.

(** * The loop bodies of the two builders *)

Section Visits.

Variable csegs : list string.
Hypothesis csegs_ok : forallb valid_name csegs = true.

Lemma source_dir_valid : valid_name source_dir = true.
Proof. reflexivity. Qed.

Lemma staging_A_valid : valid_name staging_A = true.
Proof. reflexivity. Qed.

Lemma keep_B_path (segs : list string) :
  forallb valid_name segs = true ->
  negb (should_exclude (Str.join "/" (source_dir :: segs))) = keep_B segs.
Proof.
  intros Hv. unfold keep_B. rewrite should_exclude_join; [reflexivity | | discriminate].
  cbn [forallb]. rewrite Hv. reflexivity.
Qed.

Lemma keep_B_mono (p q : list string) :
  keep_B p = false -> keep_B (p ++ q) = false.
Proof.
  unfold keep_B. rewrite !negb_false_iff. intros H.
  change (source_dir :: p ++ q) with ((source_dir :: p) ++ q).
  rewrite exclude_loop_app, H. reflexivity.
Qed.

Lemma visit_B_ok (segs : list string) (es : directory) (s : process) (z : archive) :
  forallb valid_name segs = true ->
  wf_node (Dir es) = true ->
  cwd s = cwd_of csegs ->
  resolve (source_dir :: segs) (Dir (disk s)) = Some (Dir es) ->
  zipf s = Some z ->
  visit_B (Str.join "/" (source_dir :: segs)) (dirnames es) (filenames es) s
  = Done (filter (fun d => keep_B (segs ++ [d])) (dirnames es))
      (set_zipf (Some (z ++ map member_of (kept keep_B (files_here segs es)))) s)
      (lines say_B (kept keep_B (files_here segs es))).
Proof.
  intros Hsegs Hwf Hcwd Hres Hz. unfold visit_B.
  assert (forall name, valid_name name = true ->
            OsPath.join2 (Str.join "/" (source_dir :: segs)) name
            = Str.join "/" (source_dir :: segs ++ [name])) as Hjoin
      by (intros; apply root_path_snoc; auto using source_dir_valid).
  assert (forall sub, incl sub es ->
          forall s' z', cwd s' = cwd_of csegs -> disk s' = disk s -> zipf s' = Some z' ->
            for_each (filenames sub) (fun file =>
              when (negb (should_exclude
                            (OsPath.join2 (Str.join "/" (source_dir :: segs)) file)))
                (arcname <- os_path_relpath
                              (OsPath.join2 (Str.join "/" (source_dir :: segs)) file)
                              source_dir ;;
                 zip_write (OsPath.join2 (Str.join "/" (source_dir :: segs)) file)
                   arcname ;;
                 print ("Added: " +++ arcname))) s'
            = Done tt
                (set_zipf (Some (z' ++ map member_of (kept keep_B (files_here segs sub)))) s')
                (lines say_B (kept keep_B (files_here segs sub)))) as Hloop.
  { induction sub as [|[name child] sub IHsub]; intros Hincl s' z' Hc' Hd' Hz'.
    - cbn. rewrite app_nil_r, set_zipf_same by exact Hz'. reflexivity.
    - assert (In (name, child) es) as Hin by (apply Hincl; left; reflexivity).
      assert (incl sub es) as Hincl' by (intros e He; apply Hincl; right; exact He).
      destruct (wf_child _ _ _ Hwf Hin) as (Hname & Hwfc & Hassoc).
      destruct child as [c|ces].
      2: { unfold filenames. cbn [filter is_dir_entry snd negb files_here].
           apply IHsub; assumption. }
      unfold filenames. cbn [filter is_dir_entry snd negb map fst files_here].
      fold (filenames sub). rewrite for_each_cons.
      assert (forallb valid_name (segs ++ [name]) = true) as Hsn
          by (rewrite forallb_snoc, Hsegs, Hname; reflexivity).
      rewrite (Hjoin _ Hname).
      change (source_dir :: segs ++ [name]) with (source_dir :: (segs ++ [name])).
      rewrite (keep_B_path _ Hsn).
      unfold kept. cbn [filter fst]. fold (kept keep_B (files_here segs sub)).
      destruct (keep_B (segs ++ [name])) eqn:Hk; cbn [when].
      + erewrite bind_done.
        2: { erewrite bind_done
               by (apply os_path_relpath_ok with (csegs := csegs);
                   auto using source_dir_valid; destruct segs; discriminate).
             erewrite bind_done.
             2: { apply zip_write_file with (c := c); [exact Hz'|].
                  rewrite lookup_join.
                  - change (source_dir :: segs ++ [name])
                      with ((source_dir :: segs) ++ [name]).
                    rewrite resolve_snoc, Hd', Hres. exact Hassoc.
                  - cbn [forallb]. rewrite Hsn. reflexivity.
                  - discriminate. }
             cbn [after print app]. reflexivity. }
        rewrite member_name_relative by (auto; destruct segs; discriminate).
        erewrite IHsub; [|assumption..|reflexivity].
        cbn [after map lines flat_map app member_of fst snd].
        rewrite set_zipf_twice, <- app_assoc. reflexivity.
      + unfold ret at 1. erewrite bind_done by reflexivity.
        rewrite after_nil. apply IHsub; assumption. }
  erewrite bind_done
    by (apply (Hloop es (incl_refl es)); [exact Hcwd | reflexivity | exact Hz]).
  cbn [ret after]. rewrite app_nil_r. f_equal.
  apply filter_ext_in. intros d Hd. destruct (dirnames_in _ _ Hd) as [sub Hin].
  destruct (wf_child _ _ _ Hwf Hin) as (Hname & _).
  rewrite (Hjoin _ Hname).
  change (source_dir :: segs ++ [d]) with (source_dir :: (segs ++ [d])).
  apply keep_B_path. rewrite forallb_snoc, Hsegs, Hname. reflexivity.
Qed.

Lemma filter_true {A} (l : list A) : filter (fun _ => true) l = l.
Proof. induction l as [|x l IH]; cbn; congruence. Qed.

Lemma kept_all (fs : list (list string * content)) : kept keep_all fs = fs.
Proof. apply filter_true. Qed.

Lemma lines_nothing (fs : list (list string * content)) : lines say_nothing fs = [].
Proof. induction fs as [|f fs IH]; cbn; auto. Qed.

Lemma visit_A_ok (segs : list string) (es : directory) (s : process) (z : archive) :
  forallb valid_name segs = true ->
  wf_node (Dir es) = true ->
  cwd s = cwd_of csegs ->
  resolve (staging_A :: segs) (Dir (disk s)) = Some (Dir es) ->
  zipf s = Some z ->
  visit_A (Str.join "/" (staging_A :: segs)) (dirnames es) (filenames es) s
  = Done (filter (fun d => keep_all (segs ++ [d])) (dirnames es))
      (set_zipf (Some (z ++ map member_of (kept keep_all (files_here segs es)))) s)
      (lines say_nothing (kept keep_all (files_here segs es))).
Proof.
  intros Hsegs Hwf Hcwd Hres Hz. unfold visit_A.
  rewrite lines_nothing, kept_all. unfold keep_all at 1. rewrite filter_true.
  assert (forall sub, incl sub es ->
          forall s' z', cwd s' = cwd_of csegs -> disk s' = disk s -> zipf s' = Some z' ->
            for_each (filenames sub) (fun file =>
              arcname <- os_path_relpath
                           (OsPath.join2 (Str.join "/" (staging_A :: segs)) file)
                           staging_A ;;
              zip_write (OsPath.join2 (Str.join "/" (staging_A :: segs)) file)
                arcname) s'
            = Done tt
                (set_zipf (Some (z' ++ map member_of (files_here segs sub))) s') [])
    as Hloop.
  { induction sub as [|[name child] sub IHsub]; intros Hincl s' z' Hc' Hd' Hz'.
    - cbn. rewrite app_nil_r, set_zipf_same by exact Hz'. reflexivity.
    - assert (In (name, child) es) as Hin by (apply Hincl; left; reflexivity).
      assert (incl sub es) as Hincl' by (intros e He; apply Hincl; right; exact He).
      destruct (wf_child _ _ _ Hwf Hin) as (Hname & Hwfc & Hassoc).
      destruct child as [c|ces].
      2: { unfold filenames. cbn [filter is_dir_entry snd negb files_here].
           apply IHsub; assumption. }
      unfold filenames. cbn [filter is_dir_entry snd negb map fst files_here].
      fold (filenames sub). rewrite for_each_cons.
      assert (forallb valid_name (segs ++ [name]) = true) as Hsn
          by (rewrite forallb_snoc, Hsegs, Hname; reflexivity).
      rewrite (root_path_snoc staging_A staging_A_valid _ _ Hsegs Hname).
      change (staging_A :: segs ++ [name]) with (staging_A :: (segs ++ [name])).
      erewrite bind_done.
      2: { erewrite bind_done
             by (apply os_path_relpath_ok with (csegs := csegs);
                 auto using staging_A_valid; destruct segs; discriminate).
           rewrite after_nil.
           apply zip_write_file with (c := c); [exact Hz'|].
           rewrite lookup_join.
           - change (staging_A :: segs ++ [name])
               with ((staging_A :: segs) ++ [name]).
             rewrite resolve_snoc, Hd', Hres. exact Hassoc.
           - cbn [forallb]. rewrite Hsn. reflexivity.
           - discriminate. }
      rewrite member_name_relative by (auto; destruct segs; discriminate).
      erewrite IHsub; [|assumption..|reflexivity].
      cbn [after map app member_of fst snd].
      rewrite set_zipf_twice, <- app_assoc. reflexivity. }
  erewrite bind_done
    by (apply (Hloop es (incl_refl es)); [exact Hcwd | reflexivity | exact Hz]).
  reflexivity.
Qed.

End Visits.


(** * Deleting before recreating, and the archive on disk *)

Lemma path_exists_top (p : string) (s : process) :
  valid_name p = true ->
  path_exists p s = Done (is_some (assoc p (disk s))) s [].
Proof. intros Hp. unfold path_exists. rewrite lookup_top by exact Hp. reflexivity. Qed.

Lemma remove_if_present (p : string) (s : process) :
  valid_name p = true -> not_a_dir p (disk s) = true ->
  when (is_some (assoc p (disk s))) (os_remove p) s
  = Done tt (set_disk (drop p (disk s)) s) [].
Proof.
  intros Hp Hnd. unfold not_a_dir in Hnd.
  destruct (assoc p (disk s)) as [[c|es]|] eqn:E; cbn [is_some when].
  - unfold os_remove. rewrite lookup_top, E by exact Hp.
    apply in_parent_top; auto.
  - discriminate.
  - rewrite drop_absent, set_disk_same by exact E. reflexivity.
Qed.

Lemma not_a_dir_drop (p : string) (d : directory) : not_a_dir p (drop p d) = true.
Proof. unfold not_a_dir. rewrite assoc_drop_same. reflexivity. Qed.

Lemma not_a_dir_put_file (p : string) (c : content) (d : directory) :
  not_a_dir p (put p (File c) d) = true.
Proof. unfold not_a_dir. rewrite assoc_put_same. reflexivity. Qed.

Lemma zip_open_top (p : string) (s : process) :
  valid_name p = true -> not_a_dir p (disk s) = true ->
  zip_open p s
  = Done tt (mkProcess (cwd s) (put p (File (Bytes "")) (disk s)) (Some [])) [].
Proof.
  intros Hp Hnd. unfold zip_open.
  erewrite bind_done by (apply write_file_top; assumption). reflexivity.
Qed.

Lemma zip_close_top (p : string) (s : process) (members : archive) :
  valid_name p = true -> not_a_dir p (disk s) = true -> zipf s = Some members ->
  zip_close p s
  = Done tt (mkProcess (cwd s) (put p (File (Zip members)) (disk s)) None) [].
Proof.
  intros Hp Hnd Hz. unfold zip_close. rewrite Hz.
  erewrite bind_done by (apply write_file_top; assumption). reflexivity.
Qed.

Lemma put_put {A} (k : string) (v v' : A) (es : list (string * A)) :
  put k v (put k v' es) = put k v es.
Proof.
  induction es as [|[k0 v0] es IH]; cbn [put].
  - rewrite String.eqb_refl. reflexivity.
  - destruct (String.eqb k0 k) eqn:E; cbn [put]; rewrite E; [reflexivity|].
    rewrite IH. reflexivity.
Qed.

(** A [with ZipFile(...)] block whose body only adds members. *)
Lemma with_zip_top (p : string) (body : M unit) (s : process)
    (members : archive) (out : list string) :
  valid_name p = true -> not_a_dir p (disk s) = true ->
  body (mkProcess (cwd s) (put p (File (Bytes "")) (disk s)) (Some []))
  = Done tt (mkProcess (cwd s) (put p (File (Bytes "")) (disk s)) (Some members)) out ->
  with_zip p body s
  = Done tt (mkProcess (cwd s) (put p (File (Zip members)) (disk s)) None) out.
Proof.
  intros Hp Hnd Hbody. unfold with_zip.
  erewrite bind_done by (apply zip_open_top; assumption).
  rewrite after_nil. unfold finally. rewrite Hbody.
  rewrite (zip_close_top p _ members Hp); [| apply not_a_dir_put_file | reflexivity].
  cbn [cwd disk]. rewrite put_put, app_nil_r. reflexivity.
Qed.

Lemma getsize_top (st_size : node -> N) (p : string) (s : process) (n : node) :
  valid_name p = true -> assoc p (disk s) = Some n ->
  getsize st_size p s = Done (st_size n) s [].
Proof.
  intros Hp Ha. unfold getsize. rewrite lookup_top, Ha by exact Hp. reflexivity.
Qed.

(** * Archive Builder B, end to end *)

Section BuilderB.

Variable st_size : node -> N.
Variable csegs : list string.
Hypothesis csegs_ok : forallb valid_name csegs = true.

Lemma zip_path_valid : valid_name zip_path = true.
Proof. reflexivity. Qed.

(** The walk of Builder B, started with an empty archive open. *)
Lemma walk_B (d : directory) :
  wf_at source_dir d = true ->
  os_walk source_dir visit_B (mkProcess (cwd_of csegs) d (Some []))
  = Done tt
      (mkProcess (cwd_of csegs) d
         (Some (map member_of (kept keep_B (files_at source_dir d)))))
      (lines say_B (kept keep_B (files_at source_dir d))).
Proof.
  intros Hwf. unfold wf_at, files_at in *.
  destruct (assoc source_dir d) as [n|] eqn:E.
  - rewrite (os_walk_found _ _ n) by (auto using source_dir_valid).
    rewrite (walk_ok visit_B source_dir keep_B say_B csegs
               source_dir_valid keep_B_mono (visit_B_ok csegs csegs_ok)
               n [] _ []); auto.
    cbn [disk]. rewrite resolve_single. exact E.
  - rewrite os_walk_missing by (auto using source_dir_valid). reflexivity.
Qed.

(** What a run of Builder B leaves on disk and prints. *)
Lemma run_B (d : directory) :
  not_a_dir zip_path d = true ->
  wf_at source_dir d = true ->
  let fs := kept keep_B (files_at source_dir d) in
  let members := map member_of fs in
  run (create_deployment_zip st_size) (cwd_of csegs) d
  = Done tt
      (mkProcess (cwd_of csegs)
         (drop zip_path d ++ [(zip_path, File (Zip members))]) None)
      (lines say_B fs ++ summary_B (st_size (File (Zip members)))).
Proof.
  intros Hnd Hwf fs members. unfold run, create_deployment_zip.
  erewrite bind_done by (apply path_exists_top, zip_path_valid).
  rewrite after_nil. cbn [disk].
  erewrite bind_done
    by (apply (remove_if_present zip_path (mkProcess (cwd_of csegs) d None));
        [apply zip_path_valid | exact Hnd]).
  rewrite after_nil.
  assert (assoc source_dir (drop zip_path d) = assoc source_dir d) as Hsame
      by (apply assoc_drop_other; discriminate).
  assert (put zip_path (File (Bytes "")) (drop zip_path d)
          = drop zip_path d ++ [(zip_path, File (Bytes ""))]) as Hput
      by (apply put_absent, assoc_drop_same).
  erewrite bind_done.
  2: { apply with_zip_top with (members := members) (out := lines say_B fs).
       - apply zip_path_valid.
       - apply not_a_dir_drop.
       - cbn [set_disk cwd disk zipf]. rewrite Hput.
         set (d1 := drop zip_path d ++ _).
         assert (assoc source_dir d1 = assoc source_dir d) as Hd1.
         { subst d1. rewrite assoc_app, Hsame.
           destruct (assoc source_dir d); reflexivity. }
         rewrite walk_B by (unfold wf_at in *; rewrite Hd1; exact Hwf).
         unfold files_at. rewrite Hd1. reflexivity. }
  cbn [set_disk cwd disk zipf].
  rewrite put_absent by apply assoc_drop_same.
  erewrite bind_done.
  2: { apply getsize_top with (n := File (Zip members)); [apply zip_path_valid|].
       cbn [disk]. rewrite assoc_app, assoc_drop_same. cbn.
       reflexivity. }
  cbn [after bind print app]. reflexivity.
Qed.

End BuilderB.


(** * Updates below the staging directory of Builder A *)

Lemma assoc_in {A} (k : string) (v : A) (es : list (string * A)) :
  assoc k es = Some v -> In (k, v) es.
Proof.
  induction es as [|[k' v'] es IH]; cbn [assoc]; [discriminate|].
  destruct (String.eqb_spec k' k) as [->|_].
  - intros H. injection H as ->. left. reflexivity.
  - intros H. right. apply IH, H.
Qed.

Lemma assoc_none_names {A} (k : string) (es : list (string * A)) :
  assoc k es = None <-> Str.mem k (map fst es) = false.
Proof.
  induction es as [|[k' v'] es IH]; [cbn; tauto|].
  cbn [assoc map fst]. unfold Str.mem in *. cbn [existsb].
  rewrite (String.eqb_sym k k'). destruct (String.eqb k' k); cbn [orb].
  - split; discriminate.
  - exact IH.
Qed.

Lemma names_put {A} (k : string) (v : A) (es : list (string * A)) :
  map fst (put k v es)
  = if is_some (assoc k es) then map fst es else map fst es ++ [k].
Proof.
  induction es as [|[k' v'] es IH]; [reflexivity|].
  cbn [put assoc]. destruct (String.eqb k' k) eqn:E; [reflexivity|].
  cbn [map fst]. rewrite IH. destruct (is_some (assoc k es)); reflexivity.
Qed.

Lemma mem_snoc (x k : string) (l : list string) :
  Str.mem x (l ++ [k]) = Str.mem x l || String.eqb x k.
Proof. unfold Str.mem. rewrite existsb_app. cbn. rewrite orb_false_r. reflexivity. Qed.

Lemma distinct_snoc (l : list string) (k : string) :
  distinct l = true -> Str.mem k l = false -> distinct (l ++ [k]) = true.
Proof.
  induction l as [|x l IH]; intros Hd Hk; [reflexivity|].
  cbn [distinct app] in *. apply andb_true_iff in Hd as [Hx Hd].
  unfold Str.mem in Hk. cbn [existsb] in Hk. apply orb_false_iff in Hk as [Hkx Hk].
  rewrite mem_snoc, (String.eqb_sym x k), Hkx, orb_false_r, Hx. cbn [andb].
  apply IH; assumption.
Qed.

Lemma Forall_put {A} (P : string * A -> Prop) (k : string) (v : A)
    (es : list (string * A)) :
  Forall P es -> P (k, v) -> Forall P (put k v es).
Proof.
  intros Hes Hkv. induction Hes as [|[k' v'] es Hx Hes IH]; cbn [put].
  - constructor; [exact Hkv | constructor].
  - destruct (String.eqb_spec k' k) as [->|_]; constructor; auto.
Qed.

Lemma wf_put (es : directory) (k : string) (n : node) :
  wf_node (Dir es) = true -> valid_name k = true -> wf_node n = true ->
  wf_node (Dir (put k n es)) = true.
Proof.
  intros Hwf Hk Hn. apply wf_dir_inv in Hwf as [Hd He]. apply wf_dir_intro.
  - rewrite names_put. destruct (assoc k es) eqn:E; cbn [is_some]; [exact Hd|].
    apply distinct_snoc; [exact Hd | apply assoc_none_names, E].
  - apply Forall_put; [exact He | split; assumption].
Qed.

Lemma wf_entry_in (es : directory) (k : string) (n : node) :
  Forall wf_entry es -> assoc k es = Some n ->
  valid_name k = true /\ wf_node n = true.
Proof.
  intros He Ha. rewrite Forall_forall in He. apply (He (k, n)), assoc_in, Ha.
Qed.

Lemma update_dir_wf (f : directory -> exn + directory) :
  (forall sub sub', wf_node (Dir sub) = true -> f sub = inr sub' ->
                    wf_node (Dir sub') = true) ->
  forall segs es es',
    wf_node (Dir es) = true -> update_dir segs f es = inr es' ->
    wf_node (Dir es') = true.
Proof.
  intros Hf. induction segs as [|d rest IH]; intros es es' Hwf Hu.
  - cbn in Hu. eapply Hf; eassumption.
  - cbn [update_dir] in Hu. destruct (assoc d es) as [[c|sub]|] eqn:E; try discriminate.
    destruct (update_dir rest f sub) as [e|sub'] eqn:Eu; [discriminate|].
    injection Hu as <-.
    destruct (wf_entry_in es d (Dir sub) (proj2 (wf_dir_inv _ Hwf)) E) as [Hd Hsub].
    apply wf_put; [exact Hwf | exact Hd | eapply IH; eassumption].
Qed.

Lemma mkdirs_wf (ok : bool) :
  forall segs es es',
    forallb valid_name segs = true -> wf_node (Dir es) = true ->
    mkdirs ok segs es = inr es' -> wf_node (Dir es') = true.
Proof.
  induction segs as [|d rest IH]; intros es es' Hv Hwf Hm.
  - cbn in Hm. injection Hm as <-. exact Hwf.
  - cbn [forallb] in Hv. apply andb_true_iff in Hv as [Hd Hrest].
    cbn [mkdirs] in Hm. destruct (assoc d es) as [[c|sub]|] eqn:E; try discriminate.
    + destruct (OsPath.is_nil rest && negb ok); [discriminate|].
      destruct (mkdirs ok rest sub) as [e|sub'] eqn:Em; [discriminate|].
      injection Hm as <-.
      destruct (wf_entry_in es d (Dir sub) (proj2 (wf_dir_inv _ Hwf)) E) as [_ Hsub].
      apply wf_put; [exact Hwf | exact Hd | eapply IH; eassumption].
    + destruct (mkdirs ok rest []) as [e|sub'] eqn:Em; [discriminate|].
      injection Hm as <-.
      apply wf_put; [exact Hwf | exact Hd |].
      eapply IH; [exact Hrest | | exact Em]. reflexivity.
Qed.

Section Staged.

Variable rest : directory.
Hypothesis staging_free : assoc staging_A rest = None.

Lemma assoc_staged_same (n : node) :
  assoc staging_A (rest ++ [(staging_A, n)]) = Some n.
Proof. rewrite assoc_app, staging_free. cbn. reflexivity. Qed.

Lemma assoc_staged_other (name : string) (n : node) :
  name <> staging_A -> assoc name (rest ++ [(staging_A, n)]) = assoc name rest.
Proof.
  intros Hne. rewrite assoc_app. destruct (assoc name rest); [reflexivity|].
  cbn [assoc]. destruct (String.eqb_spec staging_A name); [congruence | reflexivity].
Qed.

Lemma update_dir_staged (segs : list string) (f : directory -> exn + directory)
    (staged : directory) :
  update_dir (staging_A :: segs) f (rest ++ [(staging_A, Dir staged)])
  = match update_dir segs f staged with
    | inr staged' => inr (rest ++ [(staging_A, Dir staged')])
    | inl e => inl e
    end.
Proof.
  cbn [update_dir]. rewrite assoc_staged_same.
  destruct (update_dir segs f staged); [reflexivity|].
  rewrite put_last by exact staging_free. reflexivity.
Qed.

Lemma mkdirs_staged (ok : bool) (segs : list string) (staged : directory) :
  mkdirs ok (staging_A :: segs) (rest ++ [(staging_A, Dir staged)])
  = if OsPath.is_nil segs && negb ok then inl FileExistsError
    else match mkdirs ok segs staged with
         | inr staged' => inr (rest ++ [(staging_A, Dir staged')])
         | inl e => inl e
         end.
Proof.
  cbn [mkdirs]. rewrite assoc_staged_same.
  destruct (OsPath.is_nil segs && negb ok); [reflexivity|].
  destruct (mkdirs ok segs staged); [reflexivity|].
  rewrite put_last by exact staging_free. reflexivity.
Qed.

End Staged.


(** * Steps that keep a property of the state and print nothing *)

Section Preserves.

Variable I : process -> Prop.

Lemma preserves_ret {A} (a : A) : preserves I (ret a).
Proof. intros s a' s' out H Hs. injection H as _ <- <-. auto. Qed.

Lemma preserves_bind {A B} (m : M A) (k : A -> M B) :
  preserves I m -> (forall a, preserves I (k a)) -> preserves I (bind m k).
Proof.
  intros Hm Hk s b s' out H Hs.
  apply bind_inv in H as (a & s1 & o1 & o2 & H1 & H2 & ->).
  destruct (Hm _ _ _ _ H1 Hs) as [Hs1 ->].
  destruct (Hk a _ _ _ _ H2 Hs1) as [Hs2 ->]. auto.
Qed.

Lemma preserves_when (c : bool) (m : M unit) :
  preserves I m -> preserves I (when c m).
Proof. intros Hm. destruct c; [exact Hm | apply preserves_ret]. Qed.

Lemma preserves_for_each {A} (xs : list A) (body : A -> M unit) :
  (forall x, In x xs -> preserves I (body x)) -> preserves I (for_each xs body).
Proof.
  induction xs as [|x xs IH]; intros Hb; [apply preserves_ret|].
  cbn [for_each]. apply preserves_bind.
  - apply Hb. left. reflexivity.
  - intros _. apply IH. intros y Hy. apply Hb. right. exact Hy.
Qed.

Lemma preserves_path_exists (p : string) : preserves I (path_exists p).
Proof. intros s a s' out H Hs. injection H as _ <- <-. auto. Qed.

Lemma preserves_path_isdir (p : string) : preserves I (path_isdir p).
Proof. intros s a s' out H Hs. injection H as _ <- <-. auto. Qed.

End Preserves.

(** * Builder A fills its staging directory *)

Lemma split_last_cons (x : string) (segs : list string) :
  segs <> [] ->
  split_last (x :: segs)
  = match split_last segs with
    | Some (parent, name) => Some (x :: parent, name)
    | None => None
    end.
Proof. destruct segs; [contradiction | reflexivity]. Qed.

Lemma split_last_valid (segs parent : list string) (name : string) :
  forallb valid_name segs = true -> split_last segs = Some (parent, name) ->
  valid_name name = true.
Proof.
  revert parent. induction segs as [|x segs IH]; intros parent Hv H; [discriminate|].
  cbn [forallb] in Hv. apply andb_true_iff in Hv as [Hx Hv].
  destruct segs as [|y segs].
  - injection H as _ <-. exact Hx.
  - rewrite split_last_cons in H by discriminate.
    destruct (split_last (y :: segs)) as [[p n]|] eqn:E; [|discriminate].
    injection H as _ <-. eapply IH; eauto.
Qed.

Lemma basename_valid (name : string) :
  valid_name name = true -> basename name = name.
Proof.
  intros H. apply valid_name_inv in H as (_ & _ & _ & H).
  unfold basename. rewrite split_no_slash by exact H. reflexivity.
Qed.

Section Staging.

Variable dir : string.
Variable rest : directory.
Hypothesis staging_free : assoc staging_A rest = None.
Hypothesis rest_wf : Forall wf_entry rest.

Lemma in_parent_under (segs : list string) (n : node) :
  forallb valid_name segs = true -> segs <> [] -> wf_node n = true ->
  preserves (staging dir rest)
    (in_parent (Str.join "/" (staging_A :: segs))
       (fun name es => inr (put name n es))).
Proof.
  intros Hv Hne Hn s a s' out H (staged & -> & Hwf).
  unfold in_parent in H.
  rewrite components_join in H
    by (cbn [forallb]; try rewrite Hv; (reflexivity || discriminate)).
  rewrite split_last_cons in H by exact Hne.
  destruct (split_last segs) as [[parent name]|] eqn:E; [|discriminate].
  cbn [disk] in H. rewrite (update_dir_staged rest staging_free) in H.
  destruct (update_dir parent _ staged) as [e|staged'] eqn:Eu; [discriminate|].
  injection H as _ <- <-. split; [|reflexivity].
  exists staged'. split; [reflexivity|].
  eapply update_dir_wf; [| exact Hwf | exact Eu].
  intros sub sub' Hsub Hf. injection Hf as <-.
  apply wf_put; [exact Hsub | eapply split_last_valid; eauto | exact Hn].
Qed.

Lemma write_file_under (segs : list string) (c : content) :
  forallb valid_name segs = true -> segs <> [] ->
  preserves (staging dir rest) (write_file (Str.join "/" (staging_A :: segs)) c).
Proof.
  intros Hv Hne s a s' out H Hs. unfold write_file in H.
  destruct (lookup _ s) as [[c'|es]|]; [| discriminate |];
    eapply (in_parent_under segs (File c)); eauto.
Qed.

Lemma os_makedirs_under (src : string) :
  valid_name src = true ->
  preserves (staging dir rest)
    (os_makedirs (Str.join "/" [staging_A; src]) false).
Proof.
  intros Hsrc s a s' out H (staged & -> & Hwf). unfold os_makedirs in H.
  rewrite components_join in H
    by (cbn [forallb]; try rewrite Hsrc; (reflexivity || discriminate)).
  cbn [disk] in H. rewrite (mkdirs_staged rest staging_free) in H.
  cbn [OsPath.is_nil andb] in H.
  destruct (mkdirs false [src] staged) as [e|staged'] eqn:Em; [discriminate|].
  injection H as _ <- <-. split; [|reflexivity].
  exists staged'. split; [reflexivity|].
  eapply mkdirs_wf; [| exact Hwf | exact Em]. cbn. rewrite Hsrc. reflexivity.
Qed.

Lemma copytree_under (src : string) :
  valid_name src = true -> src <> staging_A ->
  preserves (staging dir rest)
    (shutil_copytree src (Str.join "/" [staging_A; src])).
Proof.
  intros Hsrc Hne s a s' out H Hs. unfold shutil_copytree in H.
  pose proof Hs as (staged & Es & Hwf).
  assert (lookup src s = assoc src rest) as Hl.
  { rewrite lookup_top by exact Hsrc. rewrite Es. cbn [disk].
    apply assoc_staged_other; assumption. }
  rewrite Hl in H. destruct (assoc src rest) as [[c|es]|] eqn:E; try discriminate.
  destruct (wf_entry_in _ _ _ rest_wf E) as [_ Hes].
  revert H Hs. apply preserves_bind; [apply os_makedirs_under, Hsrc|].
  intros _ s1 a1 s1' out1 H (staged1 & -> & Hwf1).
  rewrite components_join in H
    by (cbn [forallb]; try rewrite Hsrc; (reflexivity || discriminate)).
  cbn [disk] in H. rewrite (update_dir_staged rest staging_free) in H.
  destruct (update_dir [src] _ staged1) as [e|staged'] eqn:Eu; [discriminate|].
  injection H as _ <- <-. split; [|reflexivity].
  exists staged'. split; [reflexivity|].
  eapply update_dir_wf; [| exact Hwf1 | exact Eu].
  intros sub sub' _ Hf. injection Hf as <-. exact Hes.
Qed.

Lemma copy2_under (src : string) :
  valid_name src = true ->
  preserves (staging dir rest)
    (shutil_copy2 src (Str.join "/" [staging_A; src])).
Proof.
  intros Hsrc. unfold shutil_copy2. apply preserves_bind; [apply preserves_path_isdir|].
  intros isdir s a s' out H Hs.
  destruct (lookup src s) as [[c|es]|]; try discriminate.
  revert H Hs. destruct isdir.
  - change [staging_A; src] with ([staging_A] ++ [src]).
    rewrite (basename_valid _ Hsrc).
    change ([staging_A] ++ [src]) with [staging_A; src].
    rewrite (join2_valid [staging_A; src] src)
      by (cbn [forallb]; try rewrite Hsrc; (reflexivity || discriminate)).
    apply (write_file_under [src; src]); [|discriminate].
    cbn [forallb]. rewrite Hsrc. reflexivity.
  - apply (write_file_under [src]); [|discriminate].
    cbn [forallb]. rewrite Hsrc. reflexivity.
Qed.

Lemma essential_dirs_valid (x : string) :
  In x essential_dirs -> valid_name x = true /\ x <> staging_A.
Proof.
  intros H. repeat (destruct H as [<-|H]; [split; [reflexivity | discriminate]|]).
  contradiction.
Qed.

Lemma files_to_copy_valid (x : string) :
  In x files_to_copy -> valid_name x = true.
Proof.
  intros H. repeat (destruct H as [<-|H]; [reflexivity|]). contradiction.
Qed.

Lemma staged_path (name : string) :
  "aws-clean-deployment/" +++ name = Str.join "/" [staging_A; name].
Proof. reflexivity. Qed.

Lemma os_makedirs_staging :
  os_makedirs staging_A true (mkProcess dir rest None)
  = Done tt (mkProcess dir (rest ++ [(staging_A, Dir [])]) None) [].
Proof.
  unfold os_makedirs. change (components staging_A) with [staging_A].
  cbn [mkdirs disk]. rewrite staging_free. cbn [mkdirs].
  rewrite put_absent by exact staging_free. reflexivity.
Qed.

(** Filling the staging directory leaves the rest of the working
    directory as it was, and prints nothing. *)
Lemma stage_A_inv (s' : process) (out : list string) :
  stage_A (mkProcess dir rest None) = Done tt s' out ->
  staging dir rest s' /\ out = [].
Proof.
  unfold stage_A. intros H.
  erewrite bind_done in H by apply os_makedirs_staging.
  rewrite after_nil in H. revert H.
  match goal with
  | |- ?m _ = _ -> _ =>
      assert (preserves (staging dir rest) m) as Hp
  end.
  { apply preserves_bind.
    { apply preserves_for_each. intros x Hx.
      destruct (essential_dirs_valid x Hx) as [Hv Hne].
      apply preserves_bind; [apply preserves_path_exists|].
      intros present. apply preserves_when. rewrite staged_path.
      apply copytree_under; assumption. }
    intros _. apply preserves_bind.
    { apply preserves_for_each. intros x Hx.
      pose proof (files_to_copy_valid x Hx) as Hv.
      apply preserves_bind; [apply preserves_path_exists|].
      intros present. apply preserves_when. rewrite staged_path.
      apply copy2_under; assumption. }
    intros _. apply preserves_bind; [apply preserves_path_exists|].
    intros present. apply preserves_bind.
    { apply preserves_when. apply (copytree_under ".platform"); [reflexivity | discriminate]. }
    intros _. apply (write_file_under ["Procfile"]); [reflexivity | discriminate]. }
  intros H. eapply Hp; [exact H|].
  exists []. split; reflexivity.
Qed.

End Staging.


(** * Archive Builder A, end to end *)

Lemma zip_A_valid : valid_name zip_A = true.
Proof. reflexivity. Qed.

Lemma rmtree_if_present (p : string) (s : process) :
  valid_name p = true -> not_a_file p (disk s) = true ->
  when (is_some (assoc p (disk s))) (shutil_rmtree p) s
  = Done tt (set_disk (drop p (disk s)) s) [].
Proof.
  intros Hp Hnf. unfold not_a_file in Hnf.
  destruct (assoc p (disk s)) as [[c|es]|] eqn:E; cbn [is_some when].
  - discriminate.
  - unfold shutil_rmtree. rewrite lookup_top, E by exact Hp.
    apply in_parent_top; auto.
  - rewrite drop_absent, set_disk_same by exact E. reflexivity.
Qed.

Lemma not_a_file_drop_other (p q : string) (d : directory) :
  q <> p -> not_a_file p (drop q d) = not_a_file p d.
Proof. intros H. unfold not_a_file. rewrite assoc_drop_other by exact H. reflexivity. Qed.

(** The deletions at the start of Builder A succeed when the archive name
    is not taken by a directory and the staging name not by a file. *)
Lemma cleanup_A_ok (s : process) :
  not_a_dir zip_A (disk s) = true -> not_a_file staging_A (disk s) = true ->
  cleanup_A s = Done tt (set_disk (drop staging_A (drop zip_A (disk s))) s) [].
Proof.
  intros Hz Hs. unfold cleanup_A.
  erewrite bind_done by (apply path_exists_top, zip_A_valid). rewrite after_nil.
  erewrite bind_done by (apply remove_if_present; [apply zip_A_valid | exact Hz]).
  rewrite after_nil.
  erewrite bind_done by (apply path_exists_top, staging_A_valid). rewrite after_nil.
  rewrite rmtree_if_present.
  - reflexivity.
  - apply staging_A_valid.
  - cbn [set_disk disk]. rewrite not_a_file_drop_other by discriminate. exact Hs.
Qed.

Lemma cleanup_A_inv (s s' : process) (out : list string) :
  cleanup_A s = Done tt s' out ->
  not_a_dir zip_A (disk s) = true /\ not_a_file staging_A (disk s) = true.
Proof.
  intros H. unfold cleanup_A in H.
  erewrite bind_done in H by (apply path_exists_top, zip_A_valid).
  rewrite after_nil in H.
  destruct (not_a_dir zip_A (disk s)) eqn:Hz.
  - split; [reflexivity|].
    erewrite bind_done in H
      by (apply remove_if_present; [apply zip_A_valid | exact Hz]).
    rewrite after_nil in H.
    erewrite bind_done in H by (apply path_exists_top, staging_A_valid).
    rewrite after_nil in H. cbn [set_disk disk] in H.
    rewrite assoc_drop_other in H by discriminate.
    unfold not_a_file. destruct (assoc staging_A (disk s)) as [[c|es]|] eqn:E;
      try reflexivity.
    exfalso. cbn [is_some when] in H. unfold shutil_rmtree in H.
    rewrite lookup_top in H by apply staging_A_valid. cbn [set_disk disk] in H.
    rewrite assoc_drop_other, E in H by discriminate. discriminate.
  - exfalso. unfold not_a_dir in Hz.
    destruct (assoc zip_A (disk s)) as [[c|es]|] eqn:E; try discriminate.
    cbn [is_some when] in H.
    erewrite bind_raised in H; [discriminate|].
    unfold os_remove. rewrite lookup_top, E by apply zip_A_valid. reflexivity.
Qed.

Lemma Forall_drop {A} (P : string * A -> Prop) (k : string) (es : list (string * A)) :
  Forall P es -> Forall P (drop k es).
Proof.
  intros H. rewrite Forall_forall in *. intros e He.
  apply filter_In in He as [He _]. auto.
Qed.

Section BuilderA.

Variable st_size : node -> N.
Variable csegs : list string.
Hypothesis csegs_ok : forallb valid_name csegs = true.

Variable rest : directory.
Hypothesis staging_free : assoc staging_A rest = None.
Hypothesis zip_free : assoc zip_A rest = None.

(** Zipping a well-formed staging directory archives every file below it
    under its path relative to that directory. *)
Lemma zip_stage_A_ok (staged : directory) :
  wf_node (Dir staged) = true ->
  zip_stage_A (mkProcess (cwd_of csegs) (rest ++ [(staging_A, Dir staged)]) None)
  = Done tt
      (mkProcess (cwd_of csegs)
         (rest ++ [(staging_A, Dir staged);
                   (zip_A, File (Zip (map member_of (files_under [] (Dir staged)))))])
         None) [].
Proof.
  intros Hwf. unfold zip_stage_A.
  set (d := rest ++ [(staging_A, Dir staged)]).
  assert (assoc zip_A d = None) as Hzd.
  { subst d. rewrite assoc_app, zip_free. reflexivity. }
  assert (assoc staging_A d = Some (Dir staged)) as Hsd
      by (apply assoc_staged_same; exact staging_free).
  rewrite (with_zip_top zip_A _ _ (map member_of (files_under [] (Dir staged))) []).
  - cbn [cwd disk]. rewrite put_absent by exact Hzd. subst d.
    rewrite <- app_assoc. reflexivity.
  - apply zip_A_valid.
  - unfold not_a_dir. cbn [disk]. rewrite Hzd. reflexivity.
  - cbn [cwd disk]. rewrite put_absent by exact Hzd.
    rewrite (os_walk_found _ _ (Dir staged)); [| apply staging_A_valid |].
    2: { cbn [disk]. rewrite assoc_app, Hsd. reflexivity. }
    rewrite (walk_ok visit_A staging_A keep_all say_nothing csegs
               staging_A_valid (fun _ _ H => H) (visit_A_ok csegs csegs_ok)
               (Dir staged) [] _ []); auto.
    + rewrite kept_all, lines_nothing. reflexivity.
    + cbn [disk]. rewrite resolve_single, assoc_app, Hsd. reflexivity.
Qed.

Lemma rmtree_staging (staged : directory) (z : node) (o : option archive) :
  shutil_rmtree staging_A
    (mkProcess (cwd_of csegs) (rest ++ [(staging_A, Dir staged); (zip_A, z)]) o)
  = Done tt (mkProcess (cwd_of csegs) (rest ++ [(zip_A, z)]) o) [].
Proof.
  unfold shutil_rmtree. rewrite lookup_top by apply staging_A_valid.
  cbn [disk]. rewrite assoc_app, staging_free. cbn [assoc String.eqb].
  rewrite String.eqb_refl.
  erewrite in_parent_top; [reflexivity | apply staging_A_valid |].
  cbn [disk]. rewrite drop_app, drop_absent by exact staging_free.
  reflexivity.
Qed.

(** Builder A from the staging step on, started on a working directory
    that holds neither the archive nor the staging directory. *)
Lemma build_A (s' : process) (out : list string) :
  Forall wf_entry rest ->
  (stage_A ;; zip_stage_A ;; shutil_rmtree staging_A ;;
   size_bytes <- getsize st_size zip_A ;;
   print ("✅ Clean AWS deployment package created: " +++ zip_A) ;;
   print ("📦 Size: " +++ format_mb size_bytes +++ " MB") ;;
   print "🎯 Ready for AWS Elastic Beanstalk deployment")
    (mkProcess (cwd_of csegs) rest None) = Done tt s' out ->
  exists staged,
    wf_node (Dir staged) = true
    /\ stage_A (mkProcess (cwd_of csegs) rest None)
       = Done tt (mkProcess (cwd_of csegs) (rest ++ [(staging_A, Dir staged)]) None) []
    /\ let members := map member_of (files_under [] (Dir staged)) in
       s' = mkProcess (cwd_of csegs) (rest ++ [(zip_A, File (Zip members))]) None
       /\ out = summary_A (st_size (File (Zip members))).
Proof.
  intros Hrest H.
  apply bind_inv in H as ([] & s1 & o1 & o2 & Hstage & H & ->).
  destruct (stage_A_inv _ _ staging_free Hrest _ _ Hstage)
    as [(staged & -> & Hwf) ->].
  exists staged. split; [exact Hwf|]. split; [exact Hstage|].
  erewrite bind_done in H by (apply zip_stage_A_ok, Hwf).
  rewrite after_nil in H.
  erewrite bind_done in H by apply rmtree_staging.
  rewrite after_nil in H.
  erewrite bind_done in H.
  2: { apply getsize_top; [apply zip_A_valid|].
       cbn [disk]. rewrite assoc_app, zip_free. cbn [assoc].
       rewrite String.eqb_refl. reflexivity. }
  cbn [after bind print app] in H. injection H as <- <-.
  cbn zeta. split; reflexivity.
Qed.

End BuilderA.


Lemma after_done_inv {A} (o1 : list string) (r : outcome A) a s out :
  after o1 r = Done a s out -> exists o2, r = Done a s o2 /\ out = o1 ++ o2.
Proof.
  destruct r as [a' s0 o2|]; cbn; [|discriminate].
  intros H. injection H as -> -> <-. eauto.
Qed.

Lemma clean_A_staging (d : directory) : assoc staging_A (clean_A d) = None.
Proof. apply assoc_drop_same. Qed.

Lemma clean_A_zip (d : directory) : assoc zip_A (clean_A d) = None.
Proof.
  unfold clean_A. rewrite assoc_drop_other by discriminate. apply assoc_drop_same.
Qed.

Lemma clean_A_clean (d : directory) : clean_A (clean_A d) = clean_A d.
Proof.
  unfold clean_A at 1. rewrite (drop_absent zip_A) by apply clean_A_zip.
  apply drop_absent, clean_A_staging.
Qed.

Lemma clean_A_archived (d : directory) (z : node) :
  clean_A (clean_A d ++ [(zip_A, z)]) = clean_A d.
Proof.
  unfold clean_A at 1. rewrite drop_app, drop_single_same, app_nil_r.
  fold (clean_A (clean_A d)). apply clean_A_clean.
Qed.

Section RunA.

Variable st_size : node -> N.
Variable csegs : list string.
Hypothesis csegs_ok : forallb valid_name csegs = true.

Lemma create_aws_zip_steps :
  create_aws_zip st_size
  = (print banner_A ;; cleanup_A ;; after_cleanup_A st_size).
Proof. reflexivity. Qed.

Lemma run_A_steps (d : directory) :
  not_a_dir zip_A d = true -> not_a_file staging_A d = true ->
  run (create_aws_zip st_size) (cwd_of csegs) d
  = after [banner_A]
      (after_cleanup_A st_size (mkProcess (cwd_of csegs) (clean_A d) None)).
Proof.
  intros Hz Hs. unfold run. rewrite create_aws_zip_steps.
  erewrite bind_done by reflexivity.
  erewrite bind_done by (apply cleanup_A_ok; assumption).
  rewrite after_nil. reflexivity.
Qed.

(** Builder A behaves on a working directory as on the same directory
    with the previous archive and staging directory taken away. *)
Lemma run_A_clean (d : directory) :
  not_a_dir zip_A d = true -> not_a_file staging_A d = true ->
  run (create_aws_zip st_size) (cwd_of csegs) d
  = run (create_aws_zip st_size) (cwd_of csegs) (clean_A d).
Proof.
  intros Hz Hs. rewrite !run_A_steps; try assumption.
  - rewrite clean_A_clean. reflexivity.
  - unfold not_a_dir. rewrite clean_A_zip. reflexivity.
  - unfold not_a_file. rewrite clean_A_staging. reflexivity.
Qed.

(** What a completed run of Builder A has staged, archived and printed. *)
Lemma run_A_done (d : directory) (s' : process) (out : list string) :
  Forall wf_entry d ->
  run (create_aws_zip st_size) (cwd_of csegs) d = Done tt s' out ->
  not_a_dir zip_A d = true /\ not_a_file staging_A d = true
  /\ exists staged,
       wf_node (Dir staged) = true
       /\ (cleanup_A ;; stage_A) (mkProcess (cwd_of csegs) d None)
          = Done tt (mkProcess (cwd_of csegs)
                       (clean_A d ++ [(staging_A, Dir staged)]) None) []
       /\ let members := map member_of (files_under [] (Dir staged)) in
          s' = mkProcess (cwd_of csegs)
                 (clean_A d ++ [(zip_A, File (Zip members))]) None
          /\ out = banner_A :: summary_A (st_size (File (Zip members))).
Proof.
  intros Hwf H.
  assert (not_a_dir zip_A d = true /\ not_a_file staging_A d = true) as [Hz Hs].
  { unfold run in H. rewrite create_aws_zip_steps in H.
    erewrite bind_done in H by reflexivity.
    apply after_done_inv in H as (o2 & H & _).
    apply bind_inv in H as ([] & s1 & o1 & o3 & Hclean & _).
    apply (cleanup_A_inv _ _ _ Hclean). }
  rewrite run_A_steps in H by assumption.
  apply after_done_inv in H as (o2 & H & ->).
  unfold after_cleanup_A in H.
  apply (build_A st_size csegs csegs_ok (clean_A d)
           (clean_A_staging d) (clean_A_zip d)) in H.
  2: { unfold clean_A. apply Forall_drop, Forall_drop, Hwf. }
  destruct H as (staged & Hst & Hstage & Hs' & Hout).
  split; [exact Hz|]. split; [exact Hs|].
  exists staged. split; [exact Hst|]. split.
  - erewrite bind_done by (apply cleanup_A_ok; assumption).
    rewrite after_nil. exact Hstage.
  - cbn zeta. split; [exact Hs'|]. rewrite Hout. reflexivity.
Qed.

(** Running Builder A on the directory a completed run has left gives the
    same outcome again. *)
Lemma run_A_again (d : directory) (s' : process) (out : list string) :
  Forall wf_entry d ->
  run (create_aws_zip st_size) (cwd_of csegs) d = Done tt s' out ->
  run (create_aws_zip st_size) (cwd_of csegs) (disk s') = Done tt s' out.
Proof.
  intros Hwf H.
  destruct (run_A_done d s' out Hwf H) as (Hz & Hs & staged & _ & _ & Hs' & _).
  cbn zeta in Hs'. rewrite Hs' at 1. cbn [disk].
  rewrite run_A_clean.
  - rewrite clean_A_archived, <- run_A_clean by assumption. exact H.
  - unfold not_a_dir. rewrite assoc_app, clean_A_zip. cbn [assoc].
    rewrite String.eqb_refl. reflexivity.
  - unfold not_a_file. rewrite assoc_app, clean_A_staging. reflexivity.
Qed.

End RunA.


(** * Files of a well-formed tree *)

Lemma files_under_valid (n : node) :
  forall prefix f,
    wf_node n = true -> forallb valid_name prefix = true ->
    In f (files_under prefix n) ->
    forallb valid_name (fst f) = true /\ fst f <> [].
Proof.
  induction n as [c|es IH] using node_induction; intros prefix f Hwf Hp Hin.
  - contradiction.
  - rewrite files_under_dir in Hin. apply in_app_iff in Hin as [Hin|Hin].
    + destruct (files_here_prefix _ _ _ Hin) as (name & c & E & _ & Hes).
      destruct (wf_child _ _ _ Hwf Hes) as (Hname & _).
      rewrite E, forallb_snoc, Hp, Hname. split; [reflexivity|].
      destruct prefix; discriminate.
    + unfold files_below in Hin. apply in_flat_map in Hin as ([name child] & Hes & Hf).
      destruct (wf_child _ _ _ Hwf Hes) as (Hname & Hchild & _).
      rewrite Forall_forall in IH. apply (IH _ Hes (prefix ++ [name])); auto.
      rewrite forallb_snoc, Hp, Hname. reflexivity.
Qed.

Lemma files_at_valid (p : string) (d : directory) f :
  wf_at p d = true -> In f (files_at p d) ->
  forallb valid_name (fst f) = true /\ fst f <> [].
Proof.
  unfold wf_at, files_at. destruct (assoc p d) as [n|]; [|contradiction].
  intros Hwf Hin. apply (files_under_valid n [] f Hwf eq_refl Hin).
Qed.

Lemma join_inj (a b : list string) :
  forallb valid_name a = true -> forallb valid_name b = true ->
  a <> [] -> b <> [] ->
  Str.join "/" a = Str.join "/" b -> a = b.
Proof.
  intros Ha Hb Hna Hnb E.
  rewrite <- (split_join a Ha Hna), <- (split_join b Hb Hnb), E. reflexivity.
Qed.

Lemma kept_survives (d : directory) :
  wf_at source_dir d = true ->
  kept keep_B (files_at source_dir d) = filter survives_B (files_at source_dir d).
Proof.
  intros Hwf. unfold kept. apply filter_ext_in. intros f Hin.
  destruct (files_at_valid _ _ _ Hwf Hin) as [Hv _].
  unfold survives_B. symmetry. apply keep_B_path, Hv.
Qed.

Lemma lines_say_B (fs : list (list string * content)) :
  lines say_B fs = map (fun m => "Added: " +++ fst m) (map member_of fs).
Proof.
  induction fs as [|f fs IH]; [reflexivity|].
  cbn [lines flat_map say_B map member_of fst app]. f_equal. exact IH.
Qed.

Lemma archive_at_last (p : string) (rest : directory) (members : archive) :
  assoc p rest = None ->
  archive_at p (rest ++ [(p, File (Zip members))]) = Some members.
Proof.
  intros H. unfold archive_at. rewrite assoc_app, H. cbn [assoc].
  rewrite String.eqb_refl. reflexivity.
Qed.

Lemma exclude_loop_clean (segs : list string) :
  (forall seg, In seg segs -> pattern_hit seg = false /\ hidden_hit seg = false) ->
  exclude_loop segs = false.
Proof.
  intros H. rewrite exclude_loop_existsb. apply not_true_is_false. intros Hex.
  apply existsb_exists in Hex as (seg & Hin & Hs).
  destruct (H seg Hin) as [H1 H2]. rewrite H1, H2 in Hs. discriminate.
Qed.

Lemma exclude_loop_hit (segs : list string) (seg : string) :
  In seg segs -> exclude_loop [seg] = true -> exclude_loop segs = true.
Proof.
  intros Hin Hs. rewrite exclude_loop_existsb in *. apply existsb_exists.
  exists seg. split; [exact Hin|]. cbn in Hs. rewrite orb_false_r in Hs. exact Hs.
Qed.

Lemma in_removelast {A} (x : A) (l : list A) : In x (removelast l) -> In x l.
Proof.
  induction l as [|y l IH]; [contradiction|].
  cbn [removelast]. destruct l as [|z l]; [contradiction|].
  intros [<-|H]; [left; reflexivity | right; apply IH, H].
Qed.

Lemma count_last {A} (p : string) (rest : list (string * A)) (v : A) :
  assoc p rest = None ->
  List.length (filter (fun e => String.eqb (fst e) p) (rest ++ [(p, v)])) = 1.
Proof.
  intros H. rewrite filter_app, length_app. cbn [filter fst].
  rewrite String.eqb_refl. cbn [List.length].
  replace (filter (fun e => String.eqb (fst e) p) rest) with (@nil (string * A));
    [reflexivity|].
  induction rest as [|[k v'] rest IH]; [reflexivity|].
  cbn [assoc] in H. cbn [filter fst]. destruct (String.eqb k p); [discriminate|].
  apply IH, H.
Qed.


(** * Outcome of a run of Builder B *)

Section ClaimsB.

Variable st_size : node -> N.
Variable csegs : list string.
Hypothesis csegs_ok : forallb valid_name csegs = true.

(** A run of Builder B in a sane working directory completes; the archive
    holds the surviving files of the staging tree under their relative
    paths, and one line is printed per member before the summary. *)
Lemma run_B_outcome (d : directory) :
  not_a_dir zip_path d = true ->
  wf_at source_dir d = true ->
  let r := run (create_deployment_zip st_size) (cwd_of csegs) d in
  let members := map member_of (filter survives_B (files_at source_dir d)) in
  completed r = true
  /\ archive_at zip_path (final_disk r) = Some members
  /\ printed r
     = map (fun m => "Added: " +++ fst m) members
       ++ summary_B (st_size (File (Zip members))).
Proof.
  intros Hnd Hwf r members. subst r members.
  rewrite (run_B st_size csegs csegs_ok d Hnd Hwf). cbn zeta.
  rewrite lines_say_B, (kept_survives d Hwf).
  cbn [completed final_disk printed disk].
  rewrite archive_at_last by apply assoc_drop_same. auto.
Qed.

End ClaimsB.

Lemma perm3 {A} (a b c : A) (l : list A) :
  Permutation l [a; b; c] ->
  l = [a; b; c] \/ l = [a; c; b] \/ l = [b; a; c]
  \/ l = [b; c; a] \/ l = [c; a; b] \/ l = [c; b; a].
Proof.
  intros H.
  destruct (Permutation_vs_cons_inv H) as (l1 & l2 & ->).
  apply Permutation_sym, Permutation_cons_app_inv in H.
  apply Permutation_length_2_inv in H.
  destruct l1 as [|x [|y [|z l1]]]; cbn in H; destruct H as [H|H];
    try (injection H as -> ->); try discriminate H; subst; cbn; tauto.
Qed.



(** * Builder A stages an explicit tree *)

Lemma assoc_copied_dirs (d : directory) (names : list string) (y : string) :
  Str.mem y names = false -> assoc y (copied_dirs d names) = None.
Proof.
  induction names as [|x names IH]; intros H; [reflexivity|].
  unfold Str.mem in H. cbn [existsb] in H. apply orb_false_iff in H as [Hx H].
  unfold copied_dirs. cbn [flat_map]. fold (copied_dirs d names).
  rewrite assoc_app, (IH H).
  destruct (assoc x d) as [[c|es]|]; try reflexivity.
  cbn [assoc]. rewrite String.eqb_sym, Hx. reflexivity.
Qed.

Lemma assoc_copied_files (d : directory) (names : list string) (y : string) :
  Str.mem y names = false -> assoc y (copied_files d names) = None.
Proof.
  induction names as [|x names IH]; intros H; [reflexivity|].
  unfold Str.mem in H. cbn [existsb] in H. apply orb_false_iff in H as [Hx H].
  unfold copied_files. cbn [flat_map]. fold (copied_files d names).
  rewrite assoc_app, (IH H).
  destruct (assoc x d) as [[c|es]|]; try reflexivity.
  cbn [assoc]. rewrite String.eqb_sym, Hx. reflexivity.
Qed.

Lemma copied_dirs_cons (d : directory) (x : string) (names : list string) :
  copied_dirs d (x :: names) = copied_dirs d [x] ++ copied_dirs d names.
Proof. unfold copied_dirs. cbn [flat_map]. rewrite app_nil_r. reflexivity. Qed.

Lemma copied_files_cons (d : directory) (x : string) (names : list string) :
  copied_files d (x :: names) = copied_files d [x] ++ copied_files d names.
Proof. unfold copied_files. cbn [flat_map]. rewrite app_nil_r. reflexivity. Qed.

Section StagingSteps.

Variable dir : string.
Variable rest : directory.
Hypothesis staging_free : assoc staging_A rest = None.

Lemma lookup_rest (x : string) (staged : directory) :
  valid_name x = true -> x <> staging_A ->
  lookup x (at_stage dir rest staged) = assoc x rest.
Proof.
  intros Hx Hne. rewrite lookup_top by exact Hx. unfold at_stage; cbn [disk].
  apply assoc_staged_other; assumption.
Qed.

Lemma lookup_staged (x : string) (staged : directory) :
  valid_name x = true ->
  lookup (Str.join "/" [staging_A; x]) (at_stage dir rest staged) = assoc x staged.
Proof.
  intros Hx. rewrite lookup_join
    by (cbn [forallb]; try rewrite Hx; (reflexivity || discriminate)).
  change [staging_A; x] with ([staging_A] ++ [x]).
  rewrite resolve_snoc, resolve_single. unfold at_stage; cbn [disk].
  rewrite (assoc_staged_same rest staging_free). reflexivity.
Qed.

Lemma copytree_step (x : string) (es staged : directory) :
  valid_name x = true -> x <> staging_A ->
  assoc x rest = Some (Dir es) -> assoc x staged = None ->
  shutil_copytree x (Str.join "/" [staging_A; x]) (at_stage dir rest staged)
  = Done tt (at_stage dir rest (staged ++ [(x, Dir es)])) [].
Proof.
  intros Hx Hne Hsrc Hfree. unfold shutil_copytree.
  rewrite lookup_rest, Hsrc by assumption.
  assert (components (Str.join "/" [staging_A; x]) = [staging_A; x]) as Hcomp
      by (apply components_join;
          cbn [forallb]; try rewrite Hx; (reflexivity || discriminate)).
  erewrite bind_done.
  2: { unfold os_makedirs. rewrite Hcomp. unfold at_stage; cbn [disk].
       rewrite (mkdirs_staged rest staging_free). cbn [OsPath.is_nil andb mkdirs].
       rewrite Hfree. cbn [mkdirs]. rewrite put_absent by exact Hfree. reflexivity. }
  rewrite after_nil, Hcomp. unfold at_stage; cbn [set_disk disk cwd zipf].
  rewrite (update_dir_staged rest staging_free). cbn [update_dir].
  rewrite assoc_app, Hfree. cbn [assoc]. rewrite String.eqb_refl.
  rewrite put_last by exact Hfree. reflexivity.
Qed.

Lemma copy2_step (x : string) (c : content) (staged : directory) :
  valid_name x = true -> x <> staging_A ->
  assoc x rest = Some (File c) -> assoc x staged = None ->
  shutil_copy2 x (Str.join "/" [staging_A; x]) (at_stage dir rest staged)
  = Done tt (at_stage dir rest (staged ++ [(x, File c)])) [].
Proof.
  intros Hx Hne Hsrc Hfree. unfold shutil_copy2.
  erewrite bind_done.
  2: { unfold path_isdir. rewrite lookup_staged, Hfree by exact Hx. reflexivity. }
  rewrite after_nil, lookup_rest, Hsrc by assumption.
  unfold write_file. rewrite lookup_staged, Hfree by exact Hx.
  unfold in_parent.
  rewrite components_join
    by (cbn [forallb]; try rewrite Hx; (reflexivity || discriminate)).
  unfold at_stage; cbn [split_last disk].
  rewrite (update_dir_staged rest staging_free). cbn [update_dir].
  rewrite put_absent by exact Hfree. reflexivity.
Qed.

Lemma guarded_copytree (x : string) (staged : directory) :
  valid_name x = true -> x <> staging_A ->
  not_a_file x rest = true -> assoc x staged = None ->
  (present <- path_exists x ;;
   when present (shutil_copytree x ("aws-clean-deployment/" +++ x)))
    (at_stage dir rest staged)
  = Done tt (at_stage dir rest (staged ++ copied_dirs rest [x])) [].
Proof.
  intros Hx Hne Hkind Hfree. rewrite staged_path.
  unfold path_exists at 1. unfold bind at 1. rewrite lookup_rest by assumption.
  unfold copied_dirs, not_a_file in *. cbn [flat_map].
  destruct (assoc x rest) as [[c|es]|] eqn:E; [discriminate | |].
  - cbn [is_some when]. rewrite (copytree_step x es) by assumption.
    rewrite app_nil_r. reflexivity.
  - cbn [is_some when ret after app]. rewrite app_nil_r. reflexivity.
Qed.

Lemma guarded_copy2 (x : string) (staged : directory) :
  valid_name x = true -> x <> staging_A ->
  not_a_dir x rest = true -> assoc x staged = None ->
  (present <- path_exists x ;;
   when present (shutil_copy2 x ("aws-clean-deployment/" +++ x)))
    (at_stage dir rest staged)
  = Done tt (at_stage dir rest (staged ++ copied_files rest [x])) [].
Proof.
  intros Hx Hne Hkind Hfree. rewrite staged_path.
  unfold path_exists at 1. unfold bind at 1. rewrite lookup_rest by assumption.
  unfold copied_files, not_a_dir in *. cbn [flat_map].
  destruct (assoc x rest) as [[c|es]|] eqn:E; [| discriminate |].
  - cbn [is_some when]. rewrite (copy2_step x c) by assumption.
    rewrite app_nil_r. reflexivity.
  - cbn [is_some when ret after app]. rewrite app_nil_r. reflexivity.
Qed.

Lemma guarded_copytree_then (x : string) (staged : directory) (h : unit -> M unit) :
  valid_name x = true -> x <> staging_A ->
  not_a_file x rest = true -> assoc x staged = None ->
  (present <- path_exists x ;;
   when present (shutil_copytree x ("aws-clean-deployment/" +++ x)) ;;
   h tt)
    (at_stage dir rest staged)
  = h tt (at_stage dir rest (staged ++ copied_dirs rest [x])).
Proof.
  intros Hx Hne Hkind Hfree. rewrite staged_path.
  unfold path_exists at 1. unfold bind at 1. rewrite lookup_rest by assumption.
  unfold copied_dirs, not_a_file in *. cbn [flat_map].
  destruct (assoc x rest) as [[c|es]|] eqn:E; [discriminate | |].
  - cbn [is_some when]. erewrite bind_done by (apply (copytree_step x es); assumption).
    rewrite !after_nil, app_nil_r. reflexivity.
  - cbn [is_some when]. erewrite bind_done by reflexivity.
    rewrite !after_nil, !app_nil_r. reflexivity.
Qed.

Lemma copy_dirs_loop (names : list string) :
  forall staged,
    distinct names = true ->
    (forall x, In x names ->
       valid_name x = true /\ x <> staging_A /\ not_a_file x rest = true
       /\ assoc x staged = None) ->
    for_each names (fun dir_name =>
      present <- path_exists dir_name ;;
      when present (shutil_copytree dir_name ("aws-clean-deployment/" +++ dir_name)))
      (at_stage dir rest staged)
    = Done tt (at_stage dir rest (staged ++ copied_dirs rest names)) [].
Proof.
  induction names as [|x names IH]; intros staged Hd H.
  - cbn. rewrite app_nil_r. reflexivity.
  - cbn [distinct] in Hd. apply andb_true_iff in Hd as [Hx Hd].
    apply negb_true_iff in Hx.
    destruct (H x (or_introl eq_refl)) as (Hv & Hne & Hk & Hfree).
    rewrite for_each_cons.
    erewrite bind_done by (apply guarded_copytree; assumption).
    rewrite after_nil, IH.
    + rewrite (copied_dirs_cons rest x names), app_assoc. reflexivity.
    + exact Hd.
    + intros y Hy. destruct (H y (or_intror Hy)) as (Hvy & Hney & Hky & Hfy).
      repeat split; try assumption.
      rewrite assoc_app, Hfy. apply assoc_copied_dirs.
      unfold Str.mem. cbn [existsb]. rewrite orb_false_r.
      apply String.eqb_neq. intros ->. apply mem_in in Hy. congruence.
Qed.

Lemma copy_files_loop (names : list string) :
  forall staged,
    distinct names = true ->
    (forall x, In x names ->
       valid_name x = true /\ x <> staging_A /\ not_a_dir x rest = true
       /\ assoc x staged = None) ->
    for_each names (fun file_name =>
      present <- path_exists file_name ;;
      when present (shutil_copy2 file_name ("aws-clean-deployment/" +++ file_name)))
      (at_stage dir rest staged)
    = Done tt (at_stage dir rest (staged ++ copied_files rest names)) [].
Proof.
  induction names as [|x names IH]; intros staged Hd H.
  - cbn. rewrite app_nil_r. reflexivity.
  - cbn [distinct] in Hd. apply andb_true_iff in Hd as [Hx Hd].
    apply negb_true_iff in Hx.
    destruct (H x (or_introl eq_refl)) as (Hv & Hne & Hk & Hfree).
    rewrite for_each_cons.
    erewrite bind_done by (apply guarded_copy2; assumption).
    rewrite after_nil, IH.
    + rewrite (copied_files_cons rest x names), app_assoc. reflexivity.
    + exact Hd.
    + intros y Hy. destruct (H y (or_intror Hy)) as (Hvy & Hney & Hky & Hfy).
      repeat split; try assumption.
      rewrite assoc_app, Hfy. apply assoc_copied_files.
      unfold Str.mem. cbn [existsb]. rewrite orb_false_r.
      apply String.eqb_neq. intros ->. apply mem_in in Hy. congruence.
Qed.

(** In a working directory where the allow-listed directories are not
    files and the allow-listed files are not directories, the staging step
    builds exactly [staged_tree]. *)
Lemma stage_A_ok :
  forallb (fun x => not_a_file x rest) (essential_dirs ++ [".platform"]) = true ->
  forallb (fun x => not_a_dir x rest) files_to_copy = true ->
  stage_A (mkProcess dir rest None)
  = Done tt (at_stage dir rest (staged_tree rest)) [].
Proof.
  intros Hdirs Hfiles. unfold stage_A.
  rewrite forallb_app in Hdirs. apply andb_true_iff in Hdirs as [Hdirs Hplat].
  rewrite forallb_forall in Hdirs, Hfiles.
  erewrite bind_done by (apply os_makedirs_staging; exact staging_free).
  rewrite after_nil. fold (at_stage dir rest []).
  erewrite bind_done.
  2: { apply copy_dirs_loop; [reflexivity|]. intros x Hx.
       destruct (essential_dirs_valid x Hx) as [Hv Hne]. auto. }
  rewrite after_nil. cbn [app].
  erewrite bind_done.
  2: { apply copy_files_loop; [reflexivity|]. intros x Hx.
       pose proof (files_to_copy_valid x Hx) as Hv.
       split; [exact Hv|]. split.
       - intros ->. cbn in Hx. repeat (destruct Hx as [Hx|Hx]; [discriminate Hx|]).
         exact Hx.
       - split; [apply Hfiles, Hx|]. apply assoc_copied_dirs.
         cbn in Hx. repeat (destruct Hx as [<-|Hx]; [reflexivity|]). contradiction. }
  rewrite after_nil.
  rewrite (guarded_copytree_then ".platform" _
             (fun _ => write_file "aws-clean-deployment/Procfile" procfile));
    [| reflexivity | discriminate | |].
  2: { cbn [forallb] in Hplat. apply andb_true_iff in Hplat as [Hp _]. exact Hp. }
  2: { rewrite assoc_app, assoc_copied_dirs, assoc_copied_files by reflexivity.
       reflexivity. }
  unfold write_file.
  change "aws-clean-deployment/Procfile" with (Str.join "/" [staging_A; "Procfile"]).
  assert (assoc "Procfile"
            ((copied_dirs rest essential_dirs ++ copied_files rest files_to_copy)
               ++ copied_dirs rest [".platform"]) = None) as Hfree.
  { rewrite !assoc_app, !assoc_copied_dirs, assoc_copied_files by reflexivity.
    reflexivity. }
  rewrite lookup_staged, Hfree by reflexivity.
  unfold in_parent.
  rewrite components_join by (reflexivity || discriminate).
  unfold at_stage; cbn [split_last disk].
  rewrite (update_dir_staged rest staging_free). cbn [update_dir].
  rewrite put_absent by exact Hfree.
  unfold staged_tree, at_stage. cbn [set_disk cwd zipf].
  rewrite <- !app_assoc. reflexivity.
Qed.

End StagingSteps.


(** * What Builder A archives *)

Lemma copied_dirs_ext (d1 d2 : directory) (names : list string) :
  (forall x, In x names -> assoc x d1 = assoc x d2) ->
  copied_dirs d1 names = copied_dirs d2 names.
Proof.
  intros H. unfold copied_dirs.
  induction names as [|x names IH]; [reflexivity|].
  cbn [flat_map]. rewrite (H x (or_introl eq_refl)), IH; [reflexivity|].
  intros y Hy. apply H. right. exact Hy.
Qed.

Lemma copied_files_ext (d1 d2 : directory) (names : list string) :
  (forall x, In x names -> assoc x d1 = assoc x d2) ->
  copied_files d1 names = copied_files d2 names.
Proof.
  intros H. unfold copied_files.
  induction names as [|x names IH]; [reflexivity|].
  cbn [flat_map]. rewrite (H x (or_introl eq_refl)), IH; [reflexivity|].
  intros y Hy. apply H. right. exact Hy.
Qed.

Lemma assoc_clean_A (d : directory) (x : string) :
  x <> zip_A -> x <> staging_A -> assoc x (clean_A d) = assoc x d.
Proof.
  intros Hz Hs. unfold clean_A.
  rewrite !assoc_drop_other by congruence. reflexivity.
Qed.

Lemma allow_listed (x : string) :
  In x (essential_dirs ++ files_to_copy ++ [".platform"]) ->
  x <> zip_A /\ x <> staging_A.
Proof.
  intros H. cbn in H.
  repeat (destruct H as [<-|H]; [split; discriminate|]). contradiction.
Qed.

Lemma staged_tree_clean (d : directory) : staged_tree (clean_A d) = staged_tree d.
Proof.
  unfold staged_tree. f_equal; [|f_equal; [|f_equal]].
  - apply copied_dirs_ext. intros x Hx. apply assoc_clean_A; apply allow_listed;
      apply in_or_app; left; exact Hx.
  - apply copied_files_ext. intros x Hx. apply assoc_clean_A; apply allow_listed;
      apply in_or_app; right; apply in_or_app; left; exact Hx.
  - apply copied_dirs_ext. intros x Hx. apply assoc_clean_A; apply allow_listed;
      apply in_or_app; right; apply in_or_app; right; exact Hx.
Qed.

Lemma env_A_inv (d : directory) :
  env_A d = true ->
  not_a_dir zip_A d = true /\ not_a_file staging_A d = true
  /\ forallb (fun x => not_a_file x (clean_A d))
       (essential_dirs ++ [".platform"]) = true
  /\ forallb (fun x => not_a_dir x (clean_A d)) files_to_copy = true.
Proof.
  unfold env_A. intros H.
  apply andb_true_iff in H as [H Hfiles]. apply andb_true_iff in H as [H Hdirs].
  apply andb_true_iff in H as [Hz Hs].
  split; [exact Hz|]. split; [exact Hs|]. split.
  - rewrite forallb_forall in *. intros x Hx. unfold not_a_file.
    rewrite assoc_clean_A; [apply (Hdirs x Hx) | |]; apply allow_listed;
      apply in_app_iff in Hx as [Hx|Hx];
      (apply in_or_app; (left; exact Hx) || (right; apply in_or_app; right; exact Hx)).
  - rewrite forallb_forall in *. intros x Hx. unfold not_a_dir.
    rewrite assoc_clean_A; [apply (Hfiles x Hx) | |]; apply allow_listed;
      apply in_or_app; right; apply in_or_app; left; exact Hx.
Qed.

Section RunAExplicit.

Variable st_size : node -> N.
Variable csegs : list string.
Hypothesis csegs_ok : forallb valid_name csegs = true.

(** The first two steps of Builder A leave the staging directory filled
    with [staged_tree d]. *)
Lemma staged_A (d : directory) :
  env_A d = true ->
  (cleanup_A ;; stage_A) (mkProcess (cwd_of csegs) d None)
  = Done tt (at_stage (cwd_of csegs) (clean_A d) (staged_tree d)) [].
Proof.
  intros Henv. destruct (env_A_inv d Henv) as (Hz & Hs & Hdirs & Hfiles).
  erewrite bind_done by (apply cleanup_A_ok; assumption).
  rewrite after_nil. unfold set_disk. cbn [cwd disk zipf]. fold (clean_A d).
  rewrite (stage_A_ok _ _ (clean_A_staging d) Hdirs Hfiles), staged_tree_clean.
  reflexivity.
Qed.

Lemma staged_tree_wf (d : directory) :
  wf_node (Dir d) = true -> env_A d = true -> wf_node (Dir (staged_tree d)) = true.
Proof.
  intros Hwf Henv. destruct (env_A_inv d Henv) as (_ & _ & Hdirs & Hfiles).
  pose proof (stage_A_ok (cwd_of csegs) _ (clean_A_staging d) Hdirs Hfiles) as Hst.
  apply stage_A_inv in Hst as [(staged & E & Hstaged) _].
  - rewrite staged_tree_clean in E. unfold at_stage in E.
    injection E as E. apply app_inj_tail in E as [_ E]. injection E as <-.
    exact Hstaged.
  - apply clean_A_staging.
  - unfold clean_A. apply Forall_drop, Forall_drop, (proj2 (wf_dir_inv d Hwf)).
Qed.

(** A run of Builder A in a working directory where no path is of the
    wrong kind: it completes, leaves the archive of the staged tree as the
    last entry, and prints the banner and the summary. *)
Lemma run_A_ok (d : directory) :
  wf_node (Dir d) = true -> env_A d = true ->
  run (create_aws_zip st_size) (cwd_of csegs) d
  = Done tt
      (mkProcess (cwd_of csegs)
         (clean_A d ++ [(zip_A, File (Zip (members_A d)))]) None)
      (banner_A :: summary_A (st_size (File (Zip (members_A d))))).
Proof.
  intros Hwf Henv. destruct (env_A_inv d Henv) as (Hz & Hs & Hdirs & Hfiles).
  rewrite run_A_steps by assumption. unfold after_cleanup_A.
  erewrite bind_done
    by (apply (stage_A_ok _ _ (clean_A_staging d) Hdirs Hfiles)).
  rewrite after_nil, staged_tree_clean. unfold at_stage.
  erewrite bind_done
    by (apply (zip_stage_A_ok csegs csegs_ok _ (clean_A_staging d) (clean_A_zip d)),
          staged_tree_wf; assumption).
  rewrite after_nil.
  erewrite bind_done by (apply rmtree_staging, clean_A_staging).
  rewrite after_nil.
  erewrite bind_done.
  2: { apply getsize_top; [apply zip_A_valid|].
       cbn [disk]. rewrite assoc_app, clean_A_zip. cbn [assoc].
       rewrite String.eqb_refl. reflexivity. }
  reflexivity.
Qed.

End RunAExplicit.


(** * A completed run of Builder A met no path of the wrong kind *)

Section StagingKinds.

Variable dir : string.
Variable rest : directory.
Hypothesis staging_free : assoc staging_A rest = None.
Hypothesis rest_wf : Forall wf_entry rest.

Lemma lookup_rest_staging (x : string) (s : process) :
  valid_name x = true -> x <> staging_A -> staging dir rest s ->
  lookup x s = assoc x rest.
Proof.
  intros Hx Hne (staged & -> & _). rewrite lookup_top by exact Hx. cbn [disk].
  apply assoc_staged_other; assumption.
Qed.

Lemma guarded_copytree_kind (x : string) (s s' : process) (out : list string) :
  valid_name x = true -> x <> staging_A -> staging dir rest s ->
  (present <- path_exists x ;;
   when present (shutil_copytree x ("aws-clean-deployment/" +++ x))) s
  = Done tt s' out ->
  not_a_file x rest = true /\ staging dir rest s'.
Proof.
  intros Hx Hne Hs H. split.
  - unfold path_exists at 1 in H. unfold bind at 1 in H.
    rewrite (lookup_rest_staging x s Hx Hne Hs) in H. unfold not_a_file.
    destruct (assoc x rest) as [[c|es]|] eqn:E; try reflexivity.
    exfalso. cbn [is_some when] in H. unfold shutil_copytree in H.
    rewrite (lookup_rest_staging x s Hx Hne Hs), E in H. discriminate.
  - revert H Hs. rewrite staged_path.
    intros H Hs. eapply (preserves_bind (staging dir rest)); [| | exact H | exact Hs].
    + apply preserves_path_exists.
    + intros present. apply preserves_when.
      apply copytree_under; assumption.
Qed.

Lemma guarded_copy2_kind (x : string) (s s' : process) (out : list string) :
  valid_name x = true -> x <> staging_A -> staging dir rest s ->
  (present <- path_exists x ;;
   when present (shutil_copy2 x ("aws-clean-deployment/" +++ x))) s
  = Done tt s' out ->
  not_a_dir x rest = true /\ staging dir rest s'.
Proof.
  intros Hx Hne Hs H. split.
  - unfold path_exists at 1 in H. unfold bind at 1 in H.
    rewrite (lookup_rest_staging x s Hx Hne Hs) in H. unfold not_a_dir.
    destruct (assoc x rest) as [[c|es]|] eqn:E; try reflexivity.
    exfalso. cbn [is_some when] in H. unfold shutil_copy2 in H.
    unfold path_isdir at 1 in H. unfold bind at 1 in H.
    rewrite (lookup_rest_staging x s Hx Hne Hs), E in H. discriminate.
  - revert H Hs. rewrite staged_path.
    intros H Hs. eapply (preserves_bind (staging dir rest)); [| | exact H | exact Hs].
    + apply preserves_path_exists.
    + intros present. apply preserves_when.
      apply copy2_under; assumption.
Qed.

Lemma copy_dirs_kinds (names : list string) :
  (forall x, In x names -> valid_name x = true /\ x <> staging_A) ->
  forall s s' out,
    staging dir rest s ->
    for_each names (fun dir_name =>
      present <- path_exists dir_name ;;
      when present (shutil_copytree dir_name ("aws-clean-deployment/" +++ dir_name))) s
    = Done tt s' out ->
    forallb (fun x => not_a_file x rest) names = true /\ staging dir rest s'.
Proof.
  induction names as [|x names IH]; intros Hn s s' out Hs H.
  - injection H as <- _. auto.
  - rewrite for_each_cons in H.
    apply bind_inv in H as ([] & s1 & o1 & o2 & H1 & H2 & _).
    destruct (Hn x (or_introl eq_refl)) as [Hx Hne].
    destruct (guarded_copytree_kind x s s1 o1 Hx Hne Hs H1) as [Hk Hs1].
    destruct (IH (fun y Hy => Hn y (or_intror Hy)) s1 s' o2 Hs1 H2) as [Hks Hs'].
    cbn [forallb]. rewrite Hk, Hks. auto.
Qed.

Lemma copy_files_kinds (names : list string) :
  (forall x, In x names -> valid_name x = true /\ x <> staging_A) ->
  forall s s' out,
    staging dir rest s ->
    for_each names (fun file_name =>
      present <- path_exists file_name ;;
      when present (shutil_copy2 file_name ("aws-clean-deployment/" +++ file_name))) s
    = Done tt s' out ->
    forallb (fun x => not_a_dir x rest) names = true /\ staging dir rest s'.
Proof.
  induction names as [|x names IH]; intros Hn s s' out Hs H.
  - injection H as <- _. auto.
  - rewrite for_each_cons in H.
    apply bind_inv in H as ([] & s1 & o1 & o2 & H1 & H2 & _).
    destruct (Hn x (or_introl eq_refl)) as [Hx Hne].
    destruct (guarded_copy2_kind x s s1 o1 Hx Hne Hs H1) as [Hk Hs1].
    destruct (IH (fun y Hy => Hn y (or_intror Hy)) s1 s' o2 Hs1 H2) as [Hks Hs'].
    cbn [forallb]. rewrite Hk, Hks. auto.
Qed.

Lemma stage_A_kinds (s' : process) (out : list string) :
  stage_A (mkProcess dir rest None) = Done tt s' out ->
  forallb (fun x => not_a_file x rest) (essential_dirs ++ [".platform"]) = true
  /\ forallb (fun x => not_a_dir x rest) files_to_copy = true.
Proof.
  unfold stage_A. intros H.
  erewrite bind_done in H by (apply os_makedirs_staging; exact staging_free).
  rewrite after_nil in H.
  assert (staging dir rest (mkProcess dir (rest ++ [(staging_A, Dir [])]) None))
    as Hs0 by (exists []; split; reflexivity).
  apply bind_inv in H as ([] & s1 & o1 & o2 & H1 & H & _).
  destruct (copy_dirs_kinds essential_dirs essential_dirs_valid _ _ _ Hs0 H1)
    as [Hdirs Hs1].
  apply bind_inv in H as ([] & s2 & o3 & o4 & H2 & H & _).
  assert (forall x, In x files_to_copy -> valid_name x = true /\ x <> staging_A)
    as Hfv.
  { intros x Hx. split; [apply files_to_copy_valid, Hx|].
    intros ->. cbn in Hx. repeat (destruct Hx as [Hx|Hx]; [discriminate Hx|]).
    exact Hx. }
  destruct (copy_files_kinds files_to_copy Hfv _ _ _ Hs1 H2) as [Hfiles Hs2].
  split; [|exact Hfiles].
  rewrite forallb_app, Hdirs. cbn [andb forallb]. rewrite andb_true_r.
  unfold path_exists at 1 in H. unfold bind at 1 in H.
  rewrite (lookup_rest_staging ".platform" s2 eq_refl) in H;
    [| discriminate | exact Hs2].
  unfold not_a_file. destruct (assoc ".platform" rest) as [[c|es]|] eqn:E;
    try reflexivity.
  exfalso. cbn [is_some when] in H. unfold shutil_copytree at 1 in H.
  unfold bind at 1 in H.
  rewrite (lookup_rest_staging ".platform" s2 eq_refl) in H;
    [| discriminate | exact Hs2].
  rewrite E in H. discriminate.
Qed.

End StagingKinds.

Section RunAComplete.

Variable st_size : node -> N.
Variable csegs : list string.
Hypothesis csegs_ok : forallb valid_name csegs = true.

(** With files that [ZipFile.write] accepts, Builder A completes exactly
    in the working directories [env_A] describes. *)
Lemma run_A_completed (d : directory) :
  wf_node (Dir d) = true ->
  completed (run (create_aws_zip st_size) (cwd_of csegs) d) = env_A d.
Proof.
  intros Hwf. destruct (env_A d) eqn:Henv.
  - rewrite (run_A_ok st_size csegs csegs_ok d Hwf Henv). reflexivity.
  - destruct (run _ _ d) as [[] s' out|] eqn:Hrun; [|reflexivity].
    exfalso.
    destruct (run_A_done st_size csegs csegs_ok d s' out
                (proj2 (wf_dir_inv d Hwf)) Hrun)
      as (Hz & Hs & staged & _ & Hstage & _).
    erewrite bind_done in Hstage by (apply cleanup_A_ok; assumption).
    rewrite after_nil in Hstage. unfold set_disk in Hstage.
    cbn [cwd disk zipf] in Hstage. fold (clean_A d) in Hstage.
    apply (stage_A_kinds _ _ (clean_A_staging d)) in Hstage as [Hdirs Hfiles].
    + assert (env_A d = true); [|congruence].
      unfold env_A. rewrite Hz, Hs. cbn [andb].
      apply andb_true_iff. split.
      * rewrite forallb_forall in *. intros x Hx. specialize (Hdirs x Hx).
        unfold not_a_file in *. rewrite assoc_clean_A in Hdirs; [exact Hdirs | |];
          apply allow_listed; apply in_app_iff in Hx as [Hx|Hx];
          (apply in_or_app; (left; exact Hx) || (right; apply in_or_app; right; exact Hx)).
      * rewrite forallb_forall in *. intros x Hx. specialize (Hfiles x Hx).
        unfold not_a_dir in *. rewrite assoc_clean_A in Hfiles; [exact Hfiles | |];
          apply allow_listed; apply in_or_app; right; apply in_or_app; left; exact Hx.
    + unfold clean_A. apply Forall_drop, Forall_drop, (proj2 (wf_dir_inv d Hwf)).
Qed.

End RunAComplete.

(** A directory in the place of the archive stops Builder B at the
    deletion. *)
Lemma run_B_blocked (st_size : node -> N) (dir : string) (d es : directory) :
  assoc zip_path d = Some (Dir es) ->
  run (create_deployment_zip st_size) dir d
  = Raised IsADirectoryError (mkProcess dir d None) [].
Proof.
  intros H. unfold run, create_deployment_zip.
  erewrite bind_done by (apply path_exists_top, zip_path_valid).
  rewrite after_nil. cbn [disk]. rewrite H. cbn [is_some].
  erewrite bind_raised; [reflexivity|].
  cbn [when]. unfold os_remove. rewrite lookup_top by apply zip_path_valid.
  cbn [disk]. rewrite H. reflexivity.
Qed.


(** * The exclusion predicate: claims on path strings *)

(** C1: whenever one of the segments of a path matches an exclusion marker
    (the marker occurs in the segment; in particular the segment is the
    marker) and the segment is not one of the two allowed dot names,
    [should_exclude] returns true. *)
Theorem marker_segment_excluded (path_str seg marker : string) :
  In seg (segments path_str) ->
  In marker exclude_patterns ->
  Str.contains marker seg = true ->
  ~ In seg dot_exceptions ->
  should_exclude path_str = true.
Proof.
  intros Hseg Hmarker Hmatch _.
  apply (should_exclude_pattern path_str seg Hseg).
  apply (pattern_hit_intro marker seg Hmarker Hmatch).
Qed.

Lemma marker_segment_excluded_witness :
  should_exclude "clean-aws-deploy/app/.git/config" = true.
Proof.
  apply (marker_segment_excluded "clean-aws-deploy/app/.git/config" ".git" ".git").
  - cbn. tauto.
  - cbn. tauto.
  - reflexivity.
  - cbn. intros [H|[H|[]]]; discriminate H.
Defined.

(** C2 as stated fails: ["distribution"] does not start with a dot and is
    none of the markers, yet the predicate excludes it, because the marker
    ["dist"] occurs inside it. *)
Lemma plain_segment_counterexample :
  ~ (forall path_str,
       (forall seg, In seg (segments path_str) ->
          Str.startswith seg "." = false /\ ~ In seg exclude_patterns) ->
       should_exclude path_str = false).
Proof.
  intros H. specialize (H "distribution").
  assert (should_exclude "distribution" = true) as E by reflexivity.
  rewrite H in E; [discriminate|].
  intros seg [<-|[]]. split; [reflexivity|].
  cbn. intros Hin. repeat (destruct Hin as [Hin|Hin]; [discriminate Hin|]).
  exact Hin.
Qed.

(** C2, amended: when no segment of a path starts with a dot and no
    exclusion marker occurs in any segment, [should_exclude] returns
    false. *)
Theorem clean_segments_kept (path_str : string) :
  (forall seg, In seg (segments path_str) ->
     Str.startswith seg "." = false
     /\ forall marker, In marker exclude_patterns ->
          Str.contains marker seg = false) ->
  should_exclude path_str = false.
Proof.
  intros H. apply should_exclude_clean. intros seg Hseg.
  destruct (H seg Hseg) as [Hdot Hmarkers]. split.
  - apply pattern_hit_false, Hmarkers.
  - unfold hidden_hit. rewrite Hdot. reflexivity.
Qed.

Lemma clean_segments_kept_witness :
  should_exclude "clean-aws-deploy/app/index.js" = false.
Proof.
  apply (clean_segments_kept "clean-aws-deploy/app/index.js").
  intros seg Hseg. cbn in Hseg.
  destruct Hseg as [<-|[<-|[<-|[]]]];
    (split; [reflexivity|]);
    intros marker Hm; cbn in Hm;
    repeat (destruct Hm as [<-|Hm]; [reflexivity|]); contradiction.
Defined.

(** C8: markers are matched as contiguous substrings.  A path with a
    segment of the form [pre ++ marker ++ post] is excluded whatever [pre]
    and [post] are; so ["distribution"] and ["distance"] are excluded for
    containing ["dist"]. *)
Theorem marker_inside_segment_excluded :
  (forall path_str pre marker post,
     In marker exclude_patterns ->
     In (pre +++ marker +++ post) (segments path_str) ->
     should_exclude path_str = true)
  /\ should_exclude "distribution" = true
  /\ should_exclude "distance" = true.
Proof.
  split; [|split; reflexivity].
  intros path_str pre marker post Hmarker Hseg.
  apply (should_exclude_pattern path_str _ Hseg).
  apply (pattern_hit_intro marker _ Hmarker). apply contains_intro.
Qed.

Lemma marker_inside_segment_excluded_witness :
  should_exclude "src/distribution/index.js" = true.
Proof.
  apply (proj1 marker_inside_segment_excluded
           "src/distribution/index.js" "" "dist" "ribution").
  - cbn. tauto.
  - cbn. tauto.
Defined.


(** * Archive contents: claims on whole runs *)

(** C3: with exactly [app/index.js], [app/.git/config] and
    [app/.ebextensions/env.config] staged, in whatever order directory
    [app] lists its three entries, Builder B completes and its archive has
    exactly the members [app/index.js] and [app/.ebextensions/env.config]. *)
Theorem scenario_archive (st_size : node -> N) (csegs : list string)
    (d app : directory) (c1 c2 c3 : content) :
  forallb valid_name csegs = true ->
  not_a_dir zip_path d = true ->
  assoc source_dir d = Some (Dir [("app", Dir app)]) ->
  Permutation app (scenario_app c1 c2 c3) ->
  let r := run (create_deployment_zip st_size) (cwd_of csegs) d in
  completed r = true
  /\ archive_at zip_path (final_disk r)
     = Some [ ("app/index.js", c1); ("app/.ebextensions/env.config", c3) ].
Proof.
  intros Hc Hnd Hstaged Hperm r. subst r.
  assert (wf_at source_dir d = true
          /\ map member_of (filter survives_B (files_at source_dir d))
             = [ ("app/index.js", c1); ("app/.ebextensions/env.config", c3) ])
    as [Hwf Hmembers].
  { unfold wf_at, files_at. rewrite Hstaged.
    destruct (perm3 _ _ _ _ Hperm) as [->|[->|[->|[->|[->| ->]]]]];
      split; reflexivity. }
  destruct (run_B_outcome st_size csegs Hc d Hnd Hwf) as (Hdone & Harch & _).
  rewrite Hmembers in Harch. auto.
Qed.

Lemma scenario_archive_witness :
  archive_at zip_path
    (final_disk
       (run (create_deployment_zip (fun _ => 0%N)) (cwd_of ["srv"; "kgc"])
          [ (source_dir,
             Dir [("app", Dir (scenario_app (Bytes "js") (Bytes "git") (Bytes "eb")))]) ]))
  = Some [ ("app/index.js", Bytes "js");
           ("app/.ebextensions/env.config", Bytes "eb") ].
Proof.
  apply (scenario_archive (fun _ => 0%N) ["srv"; "kgc"] _
           (scenario_app (Bytes "js") (Bytes "git") (Bytes "eb"))
           (Bytes "js") (Bytes "git") (Bytes "eb")).
  - reflexivity.
  - reflexivity.
  - reflexivity.
  - apply Permutation_refl.
Defined.


(** C4: the archive mirrors the staging directory.  Builder B archives
    exactly the files of [clean-aws-deploy] that survive the exclusion
    filter.  Builder A stages the tree [staged_tree d] under
    [aws-clean-deployment] and archives exactly its files.  In both, every
    member is named by the path of its file relative to the staging root
    and holds that file's data, and the archive has no other member. *)
Theorem archive_round_trip (st_size : node -> N) (csegs : list string) :
  forallb valid_name csegs = true ->
  (forall d,
     not_a_dir zip_path d = true ->
     wf_at source_dir d = true ->
     let r := run (create_deployment_zip st_size) (cwd_of csegs) d in
     completed r = true
     /\ archive_at zip_path (final_disk r)
        = Some (map member_of (filter survives_B (files_at source_dir d))))
  /\ (forall d,
        wf_node (Dir d) = true ->
        env_A d = true ->
        let r := run (create_aws_zip st_size) (cwd_of csegs) d in
        exists s1,
          (cleanup_A ;; stage_A) (mkProcess (cwd_of csegs) d None) = Done tt s1 []
          /\ lookup staging_A s1 = Some (Dir (staged_tree d))
          /\ completed r = true
          /\ archive_at zip_A (final_disk r)
             = Some (map member_of (files_under [] (Dir (staged_tree d))))).
Proof.
  intros Hc. split.
  - intros d Hnd Hwf r.
    destruct (run_B_outcome st_size csegs Hc d Hnd Hwf) as (Hdone & Harch & _).
    auto.
  - intros d Hwf Henv r. subst r.
    eexists. split; [apply (staged_A csegs d Henv)|]. split.
    + rewrite lookup_top by apply staging_A_valid. unfold at_stage. cbn [disk].
      apply assoc_staged_same, clean_A_staging.
    + rewrite (run_A_ok st_size csegs Hc d Hwf Henv).
      cbn [completed final_disk disk]. split; [reflexivity|].
      apply archive_at_last, clean_A_zip.
Qed.

Lemma archive_round_trip_witness :
  archive_at zip_path
    (final_disk
       (run (create_deployment_zip (fun _ => 0%N)) (cwd_of ["srv"])
          [ (source_dir,
             Dir [ ("server", Dir [("index.js", File (Bytes "main"))]);
                   ("node_modules", Dir [("dep.js", File (Bytes "dep"))]);
                   ("Procfile", File (Bytes "web")) ]) ]))
  = Some [ ("Procfile", Bytes "web"); ("server/index.js", Bytes "main") ]
  /\ archive_at zip_A
       (final_disk
          (run (create_aws_zip (fun _ => 0%N)) (cwd_of ["srv"])
             [ ("client", Dir [("main.ts", File (Bytes "ts"))]);
               ("package.json", File (Bytes "{}")) ]))
     = Some [ ("package.json", Bytes "{}"); ("Procfile", procfile);
              ("client/main.ts", Bytes "ts") ].
Proof.
  split.
  - apply (proj1 (archive_round_trip (fun _ => 0%N) ["srv"] eq_refl)
             [ (source_dir,
                Dir [ ("server", Dir [("index.js", File (Bytes "main"))]);
                      ("node_modules", Dir [("dep.js", File (Bytes "dep"))]);
                      ("Procfile", File (Bytes "web")) ]) ]).
    + reflexivity.
    + reflexivity.
  - destruct (proj2 (archive_round_trip (fun _ => 0%N) ["srv"] eq_refl)
                [ ("client", Dir [("main.ts", File (Bytes "ts"))]);
                  ("package.json", File (Bytes "{}")) ] eq_refl eq_refl)
      as (s1 & _ & _ & _ & Harch).
    exact Harch.
Defined.

(** C5: in Builder B one predicate prunes the walk and admits the files:
    the directories left for the descent are those the predicate accepts,
    and a file with an excluded directory name anywhere above it (below
    the staging root) is not in the archive. *)
Theorem pruned_files_absent (st_size : node -> N) (csegs : list string) :
  forallb valid_name csegs = true ->
  (forall root dirs files s dirs' s' out,
     visit_B root dirs files s = Done dirs' s' out ->
     dirs' = filter (fun d => negb (should_exclude (OsPath.join2 root d))) dirs)
  /\ (forall d segs c,
        not_a_dir zip_path d = true ->
        wf_at source_dir d = true ->
        In (segs, c) (files_at source_dir d) ->
        under_excluded_dir segs = true ->
        let r := run (create_deployment_zip st_size) (cwd_of csegs) d in
        exists members,
          archive_at zip_path (final_disk r) = Some members
          /\ ~ In (relative_path segs) (map fst members)).
Proof.
  intros Hc. split.
  - intros root dirs files s dirs' s' out H. unfold visit_B in H.
    apply bind_inv in H as (a & s1 & o1 & o2 & _ & H & _).
    injection H as <- _ _. reflexivity.
  - intros d segs c Hnd Hwf Hin Hex r.
    destruct (run_B_outcome st_size csegs Hc d Hnd Hwf) as (_ & Harch & _).
    eexists. split; [exact Harch|].
    rewrite map_map. intros Hmem. apply in_map_iff in Hmem as (f & Ef & Hf).
    apply filter_In in Hf as [Hf Hsurv].
    destruct (files_at_valid _ _ _ Hwf Hf) as [Hvf Hnf].
    destruct (files_at_valid _ _ _ Hwf Hin) as [Hvs Hns]. cbn [fst] in Hvs, Hns.
    cbn [member_of fst] in Ef. unfold relative_path in Ef.
    apply join_inj in Ef; try assumption.
    unfold survives_B in Hsurv. rewrite Ef, keep_B_path in Hsurv by exact Hvs.
    unfold keep_B in Hsurv. apply negb_true_iff in Hsurv.
    unfold under_excluded_dir in Hex. apply existsb_exists in Hex as (seg & Hseg & Hx).
    apply in_removelast in Hseg.
    assert (valid_name seg = true) as Hvseg
        by (rewrite forallb_forall in Hvs; apply Hvs, Hseg).
    change seg with (Str.join "/" [seg]) in Hx.
    rewrite should_exclude_join in Hx
      by (cbn [forallb]; try rewrite Hvseg; (reflexivity || discriminate)).
    rewrite (exclude_loop_hit (source_dir :: segs) seg) in Hsurv;
      [discriminate | right; exact Hseg | exact Hx].
Qed.

Lemma pruned_files_absent_witness :
  exists members,
    archive_at zip_path
      (final_disk
         (run (create_deployment_zip (fun _ => 0%N)) (cwd_of ["srv"])
            [ (source_dir,
               Dir [ ("app", Dir [ (".git", Dir [("config", File (Bytes "c"))]);
                                   ("index.js", File (Bytes "i")) ]) ]) ]))
    = Some members
    /\ ~ In (relative_path ["app"; ".git"; "config"]) (map fst members).
Proof.
  apply (proj2 (pruned_files_absent (fun _ => 0%N) ["srv"] eq_refl)
           [ (source_dir,
              Dir [ ("app", Dir [ (".git", Dir [("config", File (Bytes "c"))]);
                                  ("index.js", File (Bytes "i")) ]) ]) ]
           ["app"; ".git"; "config"] (Bytes "c")).
  - reflexivity.
  - reflexivity.
  - cbn. tauto.
  - reflexivity.
Defined.


(** C9: ['*.log'] and ['*.tmp'] are literal substrings, not wildcards.  A
    path with a segment that merely ends in ['.log'] or ['.tmp'], in none
    of whose segments a marker occurs literally and none of whose segments
    starts with a dot outside the two allowed names, is not excluded; and
    such a file of the staging tree is a member of Builder B's archive. *)
Theorem log_suffix_is_not_a_wildcard (st_size : node -> N) (csegs : list string) :
  forallb valid_name csegs = true ->
  (forall path_str,
     (exists seg, In seg (segments path_str)
        /\ (Str.endswith seg ".log" = true \/ Str.endswith seg ".tmp" = true)) ->
     (forall seg, In seg (segments path_str) ->
        (forall marker, In marker exclude_patterns ->
           Str.contains marker seg = false)
        /\ (Str.startswith seg "." = true -> In seg dot_exceptions)) ->
     should_exclude path_str = false)
  /\ (forall d segs c,
        not_a_dir zip_path d = true ->
        wf_at source_dir d = true ->
        In (segs, c) (files_at source_dir d) ->
        (exists seg, In seg segs
           /\ (Str.endswith seg ".log" = true \/ Str.endswith seg ".tmp" = true)) ->
        (forall seg, In seg segs ->
           (forall marker, In marker exclude_patterns ->
              Str.contains marker seg = false)
           /\ (Str.startswith seg "." = true -> In seg dot_exceptions)) ->
        let r := run (create_deployment_zip st_size) (cwd_of csegs) d in
        exists members,
          archive_at zip_path (final_disk r) = Some members
          /\ In (relative_path segs, c) members).
Proof.
  intros Hc.
  assert (forall seg,
            (forall marker, In marker exclude_patterns ->
               Str.contains marker seg = false)
            /\ (Str.startswith seg "." = true -> In seg dot_exceptions) ->
            pattern_hit seg = false /\ hidden_hit seg = false) as Hclean.
  { intros seg [Hm Hdot]. split; [apply pattern_hit_false, Hm|].
    unfold hidden_hit. destruct (Str.startswith seg ".") eqn:E; [|reflexivity].
    apply mem_in in Hdot; [|reflexivity]. rewrite Hdot. reflexivity. }
  split.
  - intros path_str _ H. apply should_exclude_clean.
    intros seg Hseg. apply Hclean, H, Hseg.
  - intros d segs c Hnd Hwf Hin _ H r.
    destruct (run_B_outcome st_size csegs Hc d Hnd Hwf) as (_ & Harch & _).
    eexists. split; [exact Harch|].
    change (relative_path segs, c) with (member_of (segs, c)).
    apply in_map, filter_In. split; [exact Hin|].
    destruct (files_at_valid _ _ _ Hwf Hin) as [Hvs _]. cbn [fst] in Hvs.
    unfold survives_B. cbn [fst]. rewrite keep_B_path by exact Hvs.
    unfold keep_B. apply negb_true_iff, exclude_loop_clean.
    intros seg [<-|Hseg]; [split; reflexivity|]. apply Hclean, H, Hseg.
Qed.

Lemma log_suffix_is_not_a_wildcard_witness :
  should_exclude "logs/server.log" = false.
Proof.
  apply (proj1 (log_suffix_is_not_a_wildcard (fun _ => 0%N) [] eq_refl)
           "logs/server.log").
  - exists "server.log". split; [cbn; tauto | left; reflexivity].
  - intros seg Hseg. cbn in Hseg. destruct Hseg as [<-|[<-|[]]].
    + split; [|discriminate].
      intros marker Hm; cbn in Hm;
        repeat (destruct Hm as [<-|Hm]; [reflexivity|]); contradiction.
    + split; [|discriminate].
      intros marker Hm; cbn in Hm;
        repeat (destruct Hm as [<-|Hm]; [reflexivity|]); contradiction.
Defined.

(** C10 as stated fails: with [clean-aws-deploy] missing, Builder B still
    raises an error when the archive name is taken by a directory.  The
    deletion of the old archive comes first and ends the run in
    [IsADirectoryError]. *)
Lemma missing_staging_counterexample :
  ~ (forall (st_size : node -> N) (csegs : list string) (d : directory),
       forallb valid_name csegs = true ->
       assoc source_dir d = None ->
       completed (run (create_deployment_zip st_size) (cwd_of csegs) d) = true).
Proof.
  intros H.
  specialize (H (fun _ => 0%N) ["srv"] [(zip_path, Dir [])] eq_refl eq_refl).
  rewrite (run_B_blocked (fun _ => 0%N) (cwd_of ["srv"]) [(zip_path, Dir [])] [])
    in H by reflexivity.
  discriminate H.
Qed.

(** C10: when [clean-aws-deploy] does not exist, and the archive name is
    not taken by a directory, Builder B raises nothing: the walk yields
    nothing, an archive without members is written, and the run ends with
    the summary lines. *)
Theorem missing_staging_empty_archive (st_size : node -> N)
    (csegs : list string) (d : directory) :
  forallb valid_name csegs = true ->
  assoc source_dir d = None ->
  not_a_dir zip_path d = true ->
  run (create_deployment_zip st_size) (cwd_of csegs) d
  = Done tt
      (mkProcess (cwd_of csegs) (drop zip_path d ++ [(zip_path, File (Zip []))]) None)
      (summary_B (st_size (File (Zip [])))).
Proof.
  intros Hc Hmissing Hnd.
  rewrite (run_B st_size csegs Hc d Hnd).
  - unfold files_at. rewrite Hmissing. reflexivity.
  - unfold wf_at. rewrite Hmissing. reflexivity.
Qed.

Lemma missing_staging_empty_archive_witness :
  run (create_deployment_zip (fun _ => 22%N)) (cwd_of ["srv"])
    [ ("README.md", File (Bytes "kgc")) ]
  = Done tt
      (mkProcess (cwd_of ["srv"])
         [ ("README.md", File (Bytes "kgc")); (zip_path, File (Zip [])) ] None)
      (summary_B 22%N).
Proof.
  apply (missing_staging_empty_archive (fun _ => 22%N) ["srv"]
           [ ("README.md", File (Bytes "kgc")) ]).
  - reflexivity.
  - reflexivity.
  - reflexivity.
Defined.


(** * Deleting before recreating, and what the builders print *)

(** C6: in a working directory where no path is of the wrong kind, Builder
    A completes, and running it again on the directory it has left
    completes with the same outcome, so one archive remains: it is listed
    once, holds the members of one run only, and the staging directory is
    gone.  The deletions at the start are guarded: with the targets missing
    they are not attempted and nothing is raised, although the unguarded
    calls would raise; with a prior archive or staging directory present
    they remove it.  Builder B guards the deletion of its prior archive in
    the same way. *)
Theorem rerun_leaves_one_archive (st_size : node -> N) (csegs : list string) :
  forallb valid_name csegs = true ->
  (forall d,
     wf_node (Dir d) = true ->
     env_A d = true ->
     let r1 := run (create_aws_zip st_size) (cwd_of csegs) d in
     let r2 := run (create_aws_zip st_size) (cwd_of csegs) (final_disk r1) in
     completed r1 = true
     /\ r2 = r1
     /\ List.length (filter (fun e => String.eqb (fst e) zip_A) (final_disk r2)) = 1
     /\ assoc staging_A (final_disk r2) = None
     /\ archive_at zip_A (final_disk r2) = Some (members_A d))
  /\ (forall s,
        assoc zip_A (disk s) = None -> assoc staging_A (disk s) = None ->
        cleanup_A s = Done tt s []
        /\ os_remove zip_A s = Raised FileNotFoundError s []
        /\ shutil_rmtree staging_A s = Raised FileNotFoundError s [])
  /\ (forall s,
        not_a_dir zip_A (disk s) = true -> not_a_file staging_A (disk s) = true ->
        exists s',
          cleanup_A s = Done tt s' []
          /\ assoc zip_A (disk s') = None /\ assoc staging_A (disk s') = None)
  /\ (forall s,
        assoc zip_path (disk s) = None ->
        (present <- path_exists zip_path ;; when present (os_remove zip_path)) s
        = Done tt s []
        /\ os_remove zip_path s = Raised FileNotFoundError s [])
  /\ (forall d,
        not_a_dir zip_path d = true -> wf_at source_dir d = true ->
        let r := run (create_deployment_zip st_size) (cwd_of csegs) d in
        completed r = true
        /\ List.length (filter (fun e => String.eqb (fst e) zip_path) (final_disk r)) = 1).
Proof.
  intros Hc. split; [|split; [|split; [|split]]].
  - intros d Hwf Henv r1 r2.
    pose proof (run_A_ok st_size csegs Hc d Hwf Henv) as Hrun.
    assert (r2 = r1) as E.
    { subst r1 r2. rewrite Hrun at 1. cbn [final_disk].
      rewrite (run_A_again st_size csegs Hc d _ _ (proj2 (wf_dir_inv d Hwf)) Hrun).
      symmetry. exact Hrun. }
    rewrite E. subst r1. rewrite Hrun. cbn [completed final_disk disk].
    split; [reflexivity|]. split; [reflexivity|].
    split; [apply count_last, clean_A_zip|]. split.
    + rewrite assoc_app, clean_A_staging. reflexivity.
    + apply archive_at_last, clean_A_zip.
  - intros s Hz Hs. split; [|split].
    + rewrite cleanup_A_ok.
      * rewrite (drop_absent zip_A), (drop_absent staging_A), set_disk_same
          by assumption.
        reflexivity.
      * unfold not_a_dir. rewrite Hz. reflexivity.
      * unfold not_a_file. rewrite Hs. reflexivity.
    + unfold os_remove. rewrite lookup_top, Hz by apply zip_A_valid. reflexivity.
    + unfold shutil_rmtree. rewrite lookup_top, Hs by apply staging_A_valid.
      reflexivity.
  - intros s Hz Hs. eexists. split; [apply cleanup_A_ok; assumption|].
    cbn [set_disk disk]. fold (clean_A (disk s)).
    split; [apply clean_A_zip | apply clean_A_staging].
  - intros s Hz. split.
    + erewrite bind_done by (apply path_exists_top, zip_path_valid).
      rewrite Hz. reflexivity.
    + unfold os_remove. rewrite lookup_top, Hz by apply zip_path_valid. reflexivity.
  - intros d Hnd Hwf r. split.
    + apply (run_B_outcome st_size csegs Hc d Hnd Hwf).
    + subst r. rewrite (run_B st_size csegs Hc d Hnd Hwf). cbn [final_disk disk].
      apply count_last, assoc_drop_same.
Qed.

Lemma rerun_leaves_one_archive_witness :
  run (create_aws_zip (fun _ => 0%N)) (cwd_of ["srv"])
    (final_disk
       (run (create_aws_zip (fun _ => 0%N)) (cwd_of ["srv"])
          [ ("client", Dir [("main.ts", File (Bytes "ts"))]);
            (zip_A, File (Bytes "stale")) ]))
  = run (create_aws_zip (fun _ => 0%N)) (cwd_of ["srv"])
      [ ("client", Dir [("main.ts", File (Bytes "ts"))]);
        (zip_A, File (Bytes "stale")) ].
Proof.
  apply (proj1 (rerun_leaves_one_archive (fun _ => 0%N) ["srv"] eq_refl)
           [ ("client", Dir [("main.ts", File (Bytes "ts"))]);
             (zip_A, File (Bytes "stale")) ]).
  - reflexivity.
  - reflexivity.
Defined.

(** C7 as stated fails for Builder A: started in an empty directory it
    archives [Procfile], and none of the lines it prints names it. *)
Lemma builder_A_prints_no_paths :
  ~ (forall st_size csegs d s' out,
       forallb valid_name csegs = true ->
       run (create_aws_zip st_size) (cwd_of csegs) d = Done tt s' out ->
       forall members name,
         archive_at zip_A (disk s') = Some members ->
         In name (map fst members) ->
         exists line, In line out /\ Str.contains name line = true).
Proof.
  intros H.
  assert (exists s' out,
            run (create_aws_zip (fun _ => 0%N)) (cwd_of []) [] = Done tt s' out
            /\ archive_at zip_A (disk s')
               = Some [("Procfile", Bytes ("web: npm start" +++ newline))]
            /\ forallb (fun line => negb (Str.contains "Procfile" line)) out = true)
    as (s' & out & Hrun & Harch & Hout).
  { eexists. eexists. split; [vm_compute; reflexivity|].
    split; vm_compute; reflexivity. }
  destruct (H (fun _ => 0%N) [] [] s' out eq_refl Hrun _ "Procfile" Harch)
    as (line & Hline & Hc); [left; reflexivity|].
  rewrite forallb_forall in Hout. apply Hout in Hline.
  rewrite Hc in Hline. discriminate.
Qed.

(** C7, amended: Builder B prints one line ["Added: <member name>"] for
    each member of its archive, in archive order, and then its summary,
    whose second line gives the archive size in megabytes to one decimal.
    Builder A prints its start banner and a summary of the same shape, and
    no line per archived path. *)
Theorem printed_lines (st_size : node -> N) (csegs : list string) :
  forallb valid_name csegs = true ->
  (forall d,
     not_a_dir zip_path d = true ->
     wf_at source_dir d = true ->
     let r := run (create_deployment_zip st_size) (cwd_of csegs) d in
     exists members,
       archive_at zip_path (final_disk r) = Some members
       /\ printed r
          = map (fun m => "Added: " +++ fst m) members
            ++ [ newline +++ "✅ Deployment package created: " +++ zip_path;
                 "📦 Size: " +++ format_mb (st_size (File (Zip members))) +++ " MB";
                 "🚀 Ready for AWS Elastic Beanstalk deployment" ])
  /\ (forall d,
        wf_node (Dir d) = true ->
        env_A d = true ->
        let r := run (create_aws_zip st_size) (cwd_of csegs) d in
        exists members,
          archive_at zip_A (final_disk r) = Some members
          /\ printed r
             = [ "🚀 Creating clean AWS deployment package with Python...";
                 "✅ Clean AWS deployment package created: " +++ zip_A;
                 "📦 Size: " +++ format_mb (st_size (File (Zip members))) +++ " MB";
                 "🎯 Ready for AWS Elastic Beanstalk deployment" ]).
Proof.
  intros Hc. split.
  - intros d Hnd Hwf r.
    destruct (run_B_outcome st_size csegs Hc d Hnd Hwf) as (_ & Harch & Hout).
    eexists. split; [exact Harch | exact Hout].
  - intros d Hwf Henv r. subst r.
    rewrite (run_A_ok st_size csegs Hc d Hwf Henv). cbn [final_disk printed disk].
    eexists. split; [apply archive_at_last, clean_A_zip | reflexivity].
Qed.

Lemma printed_lines_witness :
  exists members,
    archive_at zip_path
      (final_disk
         (run (create_deployment_zip (fun _ => 262144%N)) (cwd_of ["srv"])
            [ (source_dir, Dir [("index.js", File (Bytes "main"))]) ]))
    = Some members
    /\ printed
         (run (create_deployment_zip (fun _ => 262144%N)) (cwd_of ["srv"])
            [ (source_dir, Dir [("index.js", File (Bytes "main"))]) ])
       = map (fun m => "Added: " +++ fst m) members
         ++ [ newline +++ "✅ Deployment package created: " +++ zip_path;
              "📦 Size: " +++ format_mb 262144%N +++ " MB";
              "🚀 Ready for AWS Elastic Beanstalk deployment" ].
Proof.
  apply (proj1 (printed_lines (fun _ => 262144%N) ["srv"] eq_refl)
           [ (source_dir, Dir [("index.js", File (Bytes "main"))]) ]).
  - reflexivity.
  - reflexivity.
Defined.


(** * Further properties of the exclusion predicate *)

Lemma segments_slash (a b : string) :
  segments (a +++ String "/" b) = segments a ++ segments b.
Proof. apply split_app. Qed.

Lemma should_exclude_sep (a b : string) :
  should_exclude (a +++ String "/" b) = should_exclude a || should_exclude b.
Proof.
  rewrite !should_exclude_segments, segments_slash. apply existsb_app.
Qed.

(** X1: the predicate looks at each segment on its own: a path made of two
    parts joined by a slash is excluded exactly when one of the parts is. *)
Theorem should_exclude_slash (a b : string) :
  should_exclude (a +++ String "/" b) = should_exclude a || should_exclude b.
Proof.
  rewrite !should_exclude_segments, segments_slash. apply existsb_app.
Qed.

Lemma startswith_dot_inv (seg : string) :
  Str.startswith seg "." = true <-> exists rest, seg = String "." rest.
Proof.
  unfold Str.startswith. split.
  - intros H. apply prefix_inv in H as [r ->]. exists r. reflexivity.
  - intros [rest ->]. rewrite prefix_cons, prefix_nil. reflexivity.
Qed.

(** X2: exactly which paths are excluded.  [should_exclude] is true if and
    only if some segment, other than an empty one or ['.'], has a marker
    inside it, or starts with a dot and is not one of the two allowed
    names.  Leading, trailing and doubled slashes and ['.'] segments never
    matter. *)
Theorem should_exclude_iff (path_str : string) :
  should_exclude path_str = true <->
  exists seg,
    In seg (segments path_str) /\ seg <> "" /\ seg <> "."
    /\ ((exists marker pre post,
           In marker exclude_patterns /\ seg = pre +++ marker +++ post)
        \/ ((exists rest, seg = String "." rest) /\ ~ In seg dot_exceptions)).
Proof.
  rewrite should_exclude_segments, existsb_exists. split.
  - intros (seg & Hin & H). apply andb_true_iff in H as [Hkeep Hhit].
    exists seg. split; [exact Hin|].
    unfold Pathlib.keep_component in Hkeep.
    apply andb_true_iff in Hkeep as [H0 H1].
    apply negb_true_iff, String.eqb_neq in H0.
    apply negb_true_iff, String.eqb_neq in H1.
    split; [exact H0|]. split; [exact H1|].
    apply orb_true_iff in Hhit as [Hp|Hd].
    + left. unfold pattern_hit in Hp. apply existsb_exists in Hp as (m & Hm & Hc).
      apply contains_inv in Hc as (pre & post & E). exists m, pre, post. auto.
    + right. unfold hidden_hit in Hd. apply andb_true_iff in Hd as [Hs Hn].
      split; [apply startswith_dot_inv, Hs|].
      apply negb_true_iff in Hn. intros Hin'. apply mem_in in Hin'. congruence.
  - intros (seg & Hin & H0 & H1 & H). exists seg. split; [exact Hin|].
    unfold Pathlib.keep_component.
    apply String.eqb_neq in H0. apply String.eqb_neq in H1. rewrite H0, H1.
    cbn [negb andb]. apply orb_true_iff. destruct H as [(m & pre & post & Hm & ->)|[Hd Hn]].
    + left. apply (pattern_hit_intro m _ Hm), contains_intro.
    + right. unfold hidden_hit. apply startswith_dot_inv in Hd. rewrite Hd.
      cbn [andb]. apply negb_true_iff, not_true_is_false.
      intros Hm. apply Hn, mem_in, Hm.
Qed.

Lemma endswith_slash_inv (s : string) :
  Str.endswith s "/" = true -> exists r, s = r +++ "/".
Proof.
  induction s as [|c s IH]; intros H; [discriminate H|].
  rewrite endswith_cons in H. apply orb_true_iff in H as [H|H].
  - apply String.eqb_eq in H. exists "". exact H.
  - destruct (IH H) as [r ->]. exists (String c r). reflexivity.
Qed.

Lemma should_exclude_empty : should_exclude "" = false.
Proof. reflexivity. Qed.

(** X3: the predicate composes with [os.path.join].  For a name that does
    not start with a slash, the joined path is excluded exactly when the
    directory path or the name is; so once a directory is excluded,
    everything [os.walk] could list below it is excluded too. *)
Theorem should_exclude_join2 (root name : string) :
  Str.startswith name "/" = false ->
  should_exclude (OsPath.join2 root name)
  = should_exclude root || should_exclude name.
Proof.
  intros Hname. unfold OsPath.join2. rewrite Hname.
  destruct (String.eqb_spec root "") as [->|Hroot]; [reflexivity|].
  cbn [orb]. destruct (Str.endswith root "/") eqn:Hend.
  - destruct (endswith_slash_inv root Hend) as [r ->].
    rewrite append_assoc. cbn [String.append].
    rewrite !should_exclude_sep, should_exclude_empty, orb_false_r. reflexivity.
  - apply (should_exclude_sep root name).
Qed.

Lemma should_exclude_join2_witness :
  should_exclude (OsPath.join2 "clean-aws-deploy/node_modules" "left-pad")
  = should_exclude "clean-aws-deploy/node_modules" || should_exclude "left-pad".
Proof.
  apply (should_exclude_join2 "clean-aws-deploy/node_modules" "left-pad").
  reflexivity.
Defined.

(** X4: the verdict on a staged path does not depend on the staging
    directory's own name: the predicate says of
    ["clean-aws-deploy/" ++ p] what it says of [p]. *)
Theorem should_exclude_below_source_dir (p : string) :
  should_exclude (source_dir +++ String "/" p) = should_exclude p.
Proof. rewrite should_exclude_sep. reflexivity. Qed.

(** * The size line *)

Lemma double_of_near (n : N) :
  (double_of n <= n + n / 9007199254740992
   /\ n <= double_of n + n / 9007199254740992)%N.
Proof.
  unfold double_of.
  pose proof (N.div_mod n 9007199254740992 ltac:(discriminate)) as Hd.
  pose proof (N.mod_lt n 9007199254740992 ltac:(discriminate)) as Hm.
  set (d := (n / 9007199254740992)%N) in *.
  set (m := (n mod 9007199254740992)%N) in *.
  assert (2 ^ (N.log2 n - 52) * 4503599627370496 <= n \/
          (2 ^ (N.log2 n - 52) = 1 /\ n < 9007199254740992))%N as Hulp.
  { destruct (N.lt_ge_cases n 9007199254740992) as [Hs|Hl].
    - right. split; [|exact Hs].
      assert (N.log2 n - 52 = 0)%N as ->; [|reflexivity].
      apply N.sub_0_le. destruct (N.eq_0_gt_0_cases n) as [->|Hpos].
      + cbn. lia.
      + apply N.lt_succ_r. change (N.succ 52) with 53%N.
        apply N.log2_lt_pow2; [exact Hpos | exact Hs].
    - left. assert (0 < n)%N as Hpos by lia.
      assert (53 <= N.log2 n)%N as Hk
          by (apply N.log2_le_pow2; [exact Hpos | exact Hl]).
      change 4503599627370496%N with (2 ^ 52)%N.
      rewrite <- N.pow_add_r.
      replace (N.log2 n - 52 + 52)%N with (N.log2 n) by lia.
      apply N.log2_spec, Hpos. }
  set (ulp := (2 ^ (N.log2 n - 52))%N) in *.
  assert (ulp <> 0)%N as Hnz by (apply N.pow_nonzero; discriminate).
  pose proof (N.div_mod n ulp Hnz) as Hq.
  pose proof (N.mod_lt n ulp Hnz) as Hr.
  set (q := (n / ulp)%N) in *. set (r := (n mod ulp)%N) in *.
  rewrite (N.mul_comm (q + 1) ulp), (N.mul_comm q ulp), N.mul_add_distr_l,
    N.mul_1_r.
  set (P := (ulp * q)%N) in *.
  destruct ((ulp <? 2 * r)%N || ((2 * r =? ulp)%N && N.odd q)) eqn:Hup.
  - assert (ulp <= 2 * r)%N as Hge.
    { apply orb_true_iff in Hup as [H|H].
      - apply N.ltb_lt in H. lia.
      - apply andb_true_iff in H as [H _]. apply N.eqb_eq in H. lia. }
    lia.
  - apply orb_false_iff in Hup as [H _]. apply N.ltb_ge in H. lia.
Qed.

(** X5: the size both builders print.  The division gives a double within
    a relative error of 2^-53 of the size (the size itself below 2^53
    bytes), and the printed number of tenths of a unit of 2^20 bytes is
    within half a tenth of that double, an exact tie going to the even
    digit.  From 2^53 bytes on the two roundings show: 9007199255003137
    bytes are printed as 8589934592.2, although the exact quotient is
    nearer to 8589934592.3. *)
Theorem format_mb_rounds :
  (forall size_bytes : N,
     let x := double_of size_bytes in
     (x <= size_bytes + size_bytes / 2 ^ 53)%N
     /\ (size_bytes <= x + size_bytes / 2 ^ 53)%N
     /\ exists tenths : N,
          format_mb size_bytes
          = decimal (tenths / 10) +++ "." +++ decimal (tenths mod 10)
          /\ (tenths * 1048576 <= x * 10 + 524288)%N
          /\ (x * 10 <= tenths * 1048576 + 524288)%N
          /\ (((x * 10) mod 1048576 = 524288)%N -> N.even tenths = true))
  /\ format_mb 9007199255003137 = "8589934592.2"
  /\ (85899345922 * 1048576 + 524288 < 9007199255003137 * 10)%N.
Proof.
  split; [|split; [vm_compute; reflexivity | reflexivity]].
  intros size_bytes x. subst x.
  change (2 ^ 53)%N with 9007199254740992%N.
  destruct (double_of_near size_bytes) as [Hle Hge].
  split; [exact Hle|]. split; [exact Hge|].
  unfold format_mb.
  set (scaled := (double_of size_bytes * 10)%N).
  pose proof (N.div_mod scaled 1048576 ltac:(discriminate)) as Hdm.
  pose proof (N.mod_lt scaled 1048576 ltac:(discriminate)) as Hlt.
  set (q := (scaled / 1048576)%N) in *. set (r := (scaled mod 1048576)%N) in *.
  destruct ((524288 <? r)%N || ((r =? 524288)%N && N.odd q)) eqn:Hup.
  - exists (q + 1)%N. split; [reflexivity|].
    apply orb_true_iff in Hup as [Hup|Hup].
    + apply N.ltb_lt in Hup. repeat split; try lia.
    + apply andb_true_iff in Hup as [Hr Hodd]. apply N.eqb_eq in Hr.
      repeat split; try lia. intros _.
      rewrite N.even_add, <- N.negb_odd, Hodd. reflexivity.
  - exists q. split; [reflexivity|].
    apply orb_false_iff in Hup as [Hup Htie]. apply N.ltb_ge in Hup.
    repeat split; try lia. intros Hr.
    rewrite (proj2 (N.eqb_eq r 524288) Hr) in Htie. cbn [andb] in Htie.
    rewrite <- N.negb_odd, Htie. reflexivity.
Qed.


(** * Further properties of Archive Builder B *)

(** X6: a directory in the place of the archive blocks Builder B.  The
    run ends in [IsADirectoryError] at the deletion of the old archive,
    before anything is written or printed: the working directory is as it
    was.  So a run can only complete when the archive name is not taken by
    a directory. *)
Theorem builder_B_blocked_by_directory (st_size : node -> N) (dir : string)
    (d : directory) :
  not_a_dir zip_path d = false ->
  let r := run (create_deployment_zip st_size) dir d in
  r = Raised IsADirectoryError (mkProcess dir d None) []
  /\ completed r = false.
Proof.
  intros Hnd r. subst r. unfold not_a_dir in Hnd.
  destruct (assoc zip_path d) as [[c|es]|] eqn:E; try discriminate.
  rewrite (run_B_blocked st_size dir d es E). split; reflexivity.
Qed.

Lemma builder_B_blocked_by_directory_witness :
  run (create_deployment_zip (fun _ => 0%N)) "/srv"
    [ (zip_path, Dir []); (source_dir, Dir [("index.js", File (Bytes "main"))]) ]
  = Raised IsADirectoryError
      (mkProcess "/srv"
         [ (zip_path, Dir []);
           (source_dir, Dir [("index.js", File (Bytes "main"))]) ] None) [].
Proof.
  apply (builder_B_blocked_by_directory (fun _ => 0%N) "/srv"
           [ (zip_path, Dir []);
             (source_dir, Dir [("index.js", File (Bytes "main"))]) ]).
  reflexivity.
Defined.

(** X7: Builder B writes nothing but its archive.  After a run the archive
    name leads to a zip file, and every other name of the working
    directory, the staging directory among them, still leads to what it
    led to. *)
Theorem builder_B_touches_only_archive (st_size : node -> N)
    (csegs : list string) (d : directory) :
  forallb valid_name csegs = true ->
  not_a_dir zip_path d = true ->
  wf_at source_dir d = true ->
  let r := run (create_deployment_zip st_size) (cwd_of csegs) d in
  (exists members, assoc zip_path (final_disk r) = Some (File (Zip members)))
  /\ (forall name, name <> zip_path -> assoc name (final_disk r) = assoc name d).
Proof.
  intros Hc Hnd Hwf r. subst r.
  rewrite (run_B st_size csegs Hc d Hnd Hwf). cbn [final_disk disk].
  split.
  - eexists. rewrite assoc_app, assoc_drop_same. cbn [assoc].
    rewrite String.eqb_refl. reflexivity.
  - intros name Hne. rewrite assoc_app, assoc_drop_other by congruence.
    destruct (assoc name d); [reflexivity|].
    cbn [assoc]. destruct (String.eqb_spec zip_path name); [congruence | reflexivity].
Qed.

Lemma builder_B_touches_only_archive_witness :
  assoc source_dir
    (final_disk
       (run (create_deployment_zip (fun _ => 0%N)) (cwd_of ["srv"])
          [ (source_dir, Dir [("index.js", File (Bytes "main"))]);
            (zip_path, File (Bytes "stale")) ]))
  = Some (Dir [("index.js", File (Bytes "main"))]).
Proof.
  apply (proj2 (builder_B_touches_only_archive (fun _ => 0%N) ["srv"]
                  [ (source_dir, Dir [("index.js", File (Bytes "main"))]);
                    (zip_path, File (Bytes "stale")) ]
                  eq_refl eq_refl eq_refl) source_dir).
  discriminate.
Defined.

(** X8: Builder B can be run again.  A second run on the directory the
    first has left has the same outcome: same archive, same lines. *)
Theorem builder_B_rerun (st_size : node -> N) (csegs : list string)
    (d : directory) :
  forallb valid_name csegs = true ->
  not_a_dir zip_path d = true ->
  wf_at source_dir d = true ->
  let r1 := run (create_deployment_zip st_size) (cwd_of csegs) d in
  run (create_deployment_zip st_size) (cwd_of csegs) (final_disk r1) = r1.
Proof.
  intros Hc Hnd Hwf r1. subst r1.
  rewrite (run_B st_size csegs Hc d Hnd Hwf) at 1. cbn [final_disk disk].
  set (members := map member_of (kept keep_B (files_at source_dir d))).
  set (d1 := drop zip_path d ++ [(zip_path, File (Zip members))]).
  assert (assoc source_dir d1 = assoc source_dir d) as Hsrc.
  { subst d1. rewrite assoc_app, assoc_drop_other by discriminate.
    destruct (assoc source_dir d); reflexivity. }
  assert (not_a_dir zip_path d1 = true) as Hnd1.
  { unfold not_a_dir. subst d1. rewrite assoc_app, assoc_drop_same. cbn [assoc].
    rewrite String.eqb_refl. reflexivity. }
  assert (wf_at source_dir d1 = true) as Hwf1
      by (unfold wf_at in *; rewrite Hsrc; exact Hwf).
  assert (files_at source_dir d1 = files_at source_dir d) as Hfiles
      by (unfold files_at; rewrite Hsrc; reflexivity).
  assert (drop zip_path d1 = drop zip_path d) as Hdrop.
  { subst d1. rewrite drop_app, drop_drop, drop_single_same, app_nil_r. reflexivity. }
  rewrite (run_B st_size csegs Hc d1 Hnd1 Hwf1), (run_B st_size csegs Hc d Hnd Hwf).
  cbn zeta. rewrite Hfiles, Hdrop. reflexivity.
Qed.

Lemma builder_B_rerun_witness :
  run (create_deployment_zip (fun _ => 0%N)) (cwd_of ["srv"])
    (final_disk
       (run (create_deployment_zip (fun _ => 0%N)) (cwd_of ["srv"])
          [ (source_dir, Dir [("index.js", File (Bytes "main"))]) ]))
  = run (create_deployment_zip (fun _ => 0%N)) (cwd_of ["srv"])
      [ (source_dir, Dir [("index.js", File (Bytes "main"))]) ].
Proof.
  apply (builder_B_rerun (fun _ => 0%N) ["srv"]
           [ (source_dir, Dir [("index.js", File (Bytes "main"))]) ]).
  - reflexivity.
  - reflexivity.
  - reflexivity.
Defined.

(** X9: a regular file in the place of the staging directory is no error
    of its own: [os.walk] swallows the failure to list it.  When the
    archive name is not taken by a directory, Builder B completes, writes
    an archive without members and prints the summary; when it is, the run
    ends in [IsADirectoryError] at the deletion, as with any staging
    directory. *)
Theorem staging_is_a_file (st_size : node -> N) (csegs : list string)
    (d : directory) (c : content) :
  forallb valid_name csegs = true ->
  assoc source_dir d = Some (File c) ->
  let r := run (create_deployment_zip st_size) (cwd_of csegs) d in
  (not_a_dir zip_path d = true ->
     completed r = true
     /\ archive_at zip_path (final_disk r) = Some []
     /\ printed r = summary_B (st_size (File (Zip []))))
  /\ (not_a_dir zip_path d = false ->
       r = Raised IsADirectoryError (mkProcess (cwd_of csegs) d None) []).
Proof.
  intros Hc Hfile r. subst r. split.
  - intros Hnd. rewrite (run_B st_size csegs Hc d Hnd).
    + unfold files_at. rewrite Hfile. cbn [completed final_disk disk printed].
      split; [reflexivity|]. split; [|reflexivity].
      apply archive_at_last. apply assoc_drop_same.
    + unfold wf_at. rewrite Hfile. reflexivity.
  - intros Hnd. unfold not_a_dir in Hnd.
    destruct (assoc zip_path d) as [[c'|es]|] eqn:E; try discriminate.
    apply (run_B_blocked st_size _ d es E).
Qed.

Lemma staging_is_a_file_witness :
  let r := run (create_deployment_zip (fun _ => 22%N)) (cwd_of ["srv"])
             [ (source_dir, File (Bytes "oops")) ] in
  completed r = true
  /\ archive_at zip_path (final_disk r) = Some []
  /\ printed r = summary_B 22%N.
Proof.
  apply (proj1 (staging_is_a_file (fun _ => 22%N) ["srv"]
                  [ (source_dir, File (Bytes "oops")) ] (Bytes "oops")
                  eq_refl eq_refl)).
  reflexivity.
Defined.

(** X10: the archive name of a walked file.  For a file [file] found by
    the walk [dirs] levels below the start directory, whatever the working
    directory, [relpath(join(root, file), start)] is the path of the file
    below the start directory, and [ZipFile.write] keeps that name as it
    is. *)
Theorem archive_name_of_walked_file (csegs : list string) (start : string)
    (dirs : list string) (file : string) :
  forallb valid_name csegs = true ->
  valid_name start = true ->
  forallb valid_name dirs = true ->
  valid_name file = true ->
  let root := OsPath.join start dirs in
  let arcname := Str.join "/" (dirs ++ [file]) in
  OsPath.relpath (cwd_of csegs) (OsPath.join2 root file) start = Some arcname
  /\ member_name arcname = arcname.
Proof.
  intros Hc Hs Hd Hf root arcname. subst root arcname.
  assert (forallb valid_name (dirs ++ [file]) = true) as Hdf
      by (rewrite forallb_snoc, Hd, Hf; reflexivity).
  rewrite ospath_join_valid by (cbn [forallb]; rewrite Hs, Hd; reflexivity).
  rewrite (root_path_snoc start Hs dirs file Hd Hf).
  split.
  - apply relpath_below; try assumption. destruct dirs; discriminate.
  - apply member_name_relative; [exact Hdf|]. destruct dirs; discriminate.
Qed.

Lemma archive_name_of_walked_file_witness :
  OsPath.relpath (cwd_of ["home"; "u"])
    (OsPath.join2 (OsPath.join "clean-aws-deploy" ["app"; "src"]) "index.js")
    "clean-aws-deploy"
  = Some "app/src/index.js".
Proof.
  apply (archive_name_of_walked_file ["home"; "u"] "clean-aws-deploy"
           ["app"; "src"] "index.js").
  - reflexivity.
  - reflexivity.
  - reflexivity.
  - reflexivity.
Defined.


(** * The member names of an archive *)

Lemma distinct_NoDup (names : list string) :
  distinct names = true -> NoDup names.
Proof.
  induction names as [|x names IH]; intros H; constructor.
  - cbn [distinct] in H. apply andb_true_iff in H as [Hx _].
    apply negb_true_iff in Hx. intros Hin. apply mem_in in Hin. congruence.
  - apply IH. cbn [distinct] in H. apply andb_true_iff in H as [_ H]. exact H.
Qed.

Lemma files_here_in (prefix : list string) (es : directory) (name : string)
    (c : content) :
  In (prefix ++ [name], c) (files_here prefix es) -> In (name, File c) es.
Proof.
  intros H. destruct (files_here_prefix _ _ _ H) as (n & c' & E & Ec & Hin).
  cbn [fst snd] in E, Ec. apply app_inv_head in E. injection E as <-. subst c'.
  exact Hin.
Qed.

Lemma files_here_nodup (prefix : list string) (es : directory) :
  distinct (map fst es) = true -> NoDup (map fst (files_here prefix es)).
Proof.
  induction es as [|[name [c|sub]] es IH]; intros Hd; cbn [files_here map fst].
  - constructor.
  - cbn [map fst distinct] in Hd. apply andb_true_iff in Hd as [Hname Hd].
    apply negb_true_iff in Hname. constructor; [|apply IH, Hd].
    intros Hin. apply in_map_iff in Hin as ([p c'] & E & Hin).
    cbn [fst] in E. subst p. apply files_here_in in Hin.
    assert (Str.mem name (map fst es) = true) as Hm
        by (apply mem_in, in_map_iff; exists (name, File c'); auto).
    congruence.
  - cbn [map fst distinct] in Hd. apply andb_true_iff in Hd as [_ Hd].
    apply IH, Hd.
Qed.

Lemma files_below_in (prefix : list string) (es : directory) f :
  In f (files_below prefix es) ->
  exists name child q,
    In (name, child) es /\ fst f = prefix ++ name :: q
    /\ In f (files_under (prefix ++ [name]) child).
Proof.
  unfold files_below. intros H. apply in_flat_map in H as ([name child] & Hin & Hf).
  cbn [fst snd] in Hf. destruct (files_under_prefix _ _ _ Hf) as [q E].
  exists name, child, q. split; [exact Hin|]. split; [|exact Hf].
  rewrite E, <- app_assoc. reflexivity.
Qed.

(** In a well-formed tree no two files have the same path. *)
Lemma files_under_nodup (n : node) :
  forall prefix, wf_node n = true -> NoDup (map fst (files_under prefix n)).
Proof.
  induction n as [c|es IH] using node_induction; intros prefix Hwf.
  - constructor.
  - rewrite files_under_dir, map_app. pose proof (wf_dir_inv es Hwf) as [Hd He].
    apply NoDup_app.
    + apply files_here_nodup, Hd.
    + assert (forall sub, incl sub es -> distinct (map fst sub) = true ->
                NoDup (map fst (files_below prefix sub))) as Hbelow.
      { induction sub as [|[name child] sub IHsub]; intros Hincl Hds.
        - constructor.
        - unfold files_below. cbn [flat_map fst snd]. fold (files_below prefix sub).
          cbn [map fst distinct] in Hds. apply andb_true_iff in Hds as [Hname Hds].
          apply negb_true_iff in Hname.
          assert (In (name, child) es) as Hin by (apply Hincl; left; reflexivity).
          rewrite map_app. apply NoDup_app.
          + rewrite Forall_forall in IH. apply (IH _ Hin).
            apply (wf_child es name child Hwf Hin).
          + apply IHsub; [intros e Hx; apply Hincl; right; exact Hx | exact Hds].
          + intros p Hp Hq.
            apply in_map_iff in Hp as (f & <- & Hf).
            apply in_map_iff in Hq as (g & Eg & Hg).
            destruct (files_under_prefix _ _ _ Hf) as [q Ef].
            destruct (files_below_in _ _ _ Hg) as (name' & child' & q' & Hin' & Eg' & _).
            rewrite Ef, Eg', <- app_assoc in Eg. apply app_inv_head in Eg.
            injection Eg as -> _.
            assert (Str.mem name (map fst sub) = true) as Hm
                by (apply mem_in, in_map_iff; exists (name, child'); auto).
            congruence. }
      apply Hbelow; [apply incl_refl | exact Hd].
    + intros p Hp Hq.
      apply in_map_iff in Hp as (f & <- & Hf).
      apply in_map_iff in Hq as (g & Eg & Hg).
      destruct (files_here_prefix _ _ _ Hf) as (name & c & Ef & _ & Hin).
      destruct (files_below_in _ _ _ Hg) as (name' & child' & q' & Hin' & Eg' & Hg').
      rewrite Ef, Eg' in Eg. apply app_inv_head in Eg. injection Eg as -> Eq.
      destruct (wf_child es name (File c) Hwf Hin) as (_ & _ & H1).
      destruct (wf_child es name child' Hwf Hin') as (_ & _ & H2).
      rewrite H1 in H2. injection H2 as <-. contradiction.
Qed.

Lemma NoDup_map_on {A B} (f : A -> B) (l : list A) :
  (forall x y, In x l -> In y l -> f x = f y -> x = y) ->
  NoDup l -> NoDup (map f l).
Proof.
  intros Hinj Hnd. induction Hnd as [|x l Hx Hnd IH]; cbn [map]; constructor.
  - intros Hin. apply in_map_iff in Hin as (y & E & Hy).
    apply Hx. rewrite (Hinj x y); auto; [left; reflexivity | right; exact Hy].
  - apply IH. intros y z Hy Hz. apply Hinj; right; assumption.
Qed.

Lemma member_names (fs : list (list string * content)) :
  map fst (map member_of fs) = map relative_path (map fst fs).
Proof. rewrite !map_map. reflexivity. Qed.

Lemma map_fst_filter {A B} (keep : A -> bool) (l : list (A * B)) :
  map fst (filter (fun f => keep (fst f)) l) = filter keep (map fst l).
Proof.
  induction l as [|[a b] l IH]; [reflexivity|].
  cbn [filter map fst]. destruct (keep a); cbn [map fst]; rewrite IH; reflexivity.
Qed.

(** Members made from the files of a well-formed tree: their names are
    pairwise different, and each is a slash-joined list of valid names. *)
Lemma members_of_tree (n : node) (fs : list (list string * content)) :
  wf_node n = true ->
  incl fs (files_under [] n) -> NoDup (map fst fs) ->
  NoDup (map fst (map member_of fs))
  /\ forall name, In name (map fst (map member_of fs)) ->
       exists segs,
         segs <> [] /\ forallb valid_name segs = true
         /\ name = Str.join "/" segs.
Proof.
  intros Hwf Hincl Hnd. rewrite member_names.
  assert (forall p, In p (map fst fs) ->
            forallb valid_name p = true /\ p <> []) as Hvalid.
  { intros p Hp. apply in_map_iff in Hp as (f & <- & Hf).
    apply (files_under_valid n [] f Hwf eq_refl), Hincl, Hf. }
  split.
  - apply NoDup_map_on; [|exact Hnd].
    intros p q Hp Hq E. destruct (Hvalid p Hp), (Hvalid q Hq).
    apply join_inj; assumption.
  - intros name Hin. apply in_map_iff in Hin as (p & <- & Hp).
    destruct (Hvalid p Hp). exists p. auto.
Qed.

Lemma NoDup_map_filter {A B} (f : A -> B) (keep : A -> bool) (l : list A) :
  NoDup (map f l) -> NoDup (map f (filter keep l)).
Proof.
  induction l as [|x l IH]; intros H; [constructor|].
  cbn [map] in H. apply NoDup_cons_iff in H as [Hx Hl].
  cbn [filter]. destruct (keep x); [|apply IH, Hl].
  cbn [map]. constructor; [|apply IH, Hl].
  intros Hin. apply Hx. apply in_map_iff in Hin as (y & E & Hy).
  apply filter_In in Hy as [Hy _]. apply in_map_iff. exists y. auto.
Qed.

(** X11: archive member names.  In the archive of either builder no two
    members have the same name, and every name is a relative path: a
    slash-joined list of valid file names, so it does not start with a
    slash and has no empty, ['.'] or ['..'] component. *)
Theorem member_names_are_distinct_relative_paths (st_size : node -> N)
    (csegs : list string) :
  forallb valid_name csegs = true ->
  (forall d members,
     not_a_dir zip_path d = true ->
     wf_at source_dir d = true ->
     archive_at zip_path
       (final_disk (run (create_deployment_zip st_size) (cwd_of csegs) d))
     = Some members ->
     NoDup (map fst members)
     /\ forall name, In name (map fst members) ->
          exists segs,
            segs <> [] /\ forallb valid_name segs = true
            /\ name = Str.join "/" segs)
  /\ (forall d members,
        wf_node (Dir d) = true ->
        env_A d = true ->
        archive_at zip_A
          (final_disk (run (create_aws_zip st_size) (cwd_of csegs) d))
        = Some members ->
        NoDup (map fst members)
        /\ forall name, In name (map fst members) ->
             exists segs,
               segs <> [] /\ forallb valid_name segs = true
               /\ name = Str.join "/" segs).
Proof.
  intros Hc. split.
  - intros d members Hnd Hwf Harch.
    destruct (run_B_outcome st_size csegs Hc d Hnd Hwf) as (_ & Harch' & _).
    rewrite Harch' in Harch. injection Harch as <-.
    unfold wf_at, files_at in *. destruct (assoc source_dir d) as [n|].
    + apply (members_of_tree n); [exact Hwf | apply incl_filter |].
      apply NoDup_map_filter, files_under_nodup, Hwf.
    + cbn. split; [constructor | intros name []].
  - intros d members Hwf Henv Harch.
    rewrite (run_A_ok st_size csegs Hc d Hwf Henv) in Harch.
    cbn [final_disk disk] in Harch.
    rewrite archive_at_last in Harch by apply clean_A_zip.
    injection Harch as <-. unfold members_A.
    pose proof (staged_tree_wf csegs d Hwf Henv) as Hst.
    apply (members_of_tree (Dir (staged_tree d)));
      [exact Hst | apply incl_refl | apply files_under_nodup, Hst].
Qed.

Lemma member_names_are_distinct_relative_paths_witness :
  NoDup
    (map fst
       [ ("Procfile", Bytes "web"); ("server/index.js", Bytes "main");
         ("client/index.js", Bytes "view") ]).
Proof.
  apply (proj1 (member_names_are_distinct_relative_paths (fun _ => 0%N) ["srv"]
                  eq_refl)
           [ (source_dir,
              Dir [ ("server", Dir [("index.js", File (Bytes "main"))]);
                    ("client", Dir [("index.js", File (Bytes "view"))]);
                    ("Procfile", File (Bytes "web")) ]) ]).
  - reflexivity.
  - reflexivity.
  - reflexivity.
Defined.


(** * Further properties of Archive Builder A *)

(** X12: a path of the wrong kind stops Builder A.  When the archive
    name or one of the allow-listed file names is a directory, or the
    staging name or one of the allow-listed directory names is a regular
    file, the script ends in an exception. *)
Theorem builder_A_blocked_by_wrong_kind (st_size : node -> N)
    (csegs : list string) (d : directory) :
  forallb valid_name csegs = true ->
  wf_node (Dir d) = true ->
  env_A d = false ->
  completed (run (create_aws_zip st_size) (cwd_of csegs) d) = false.
Proof.
  intros Hc Hwf Henv.
  rewrite (run_A_completed st_size csegs Hc d Hwf). exact Henv.
Qed.

Lemma builder_A_blocked_by_wrong_kind_witness :
  completed
    (run (create_aws_zip (fun _ => 0%N)) (cwd_of ["srv"])
       [ ("client", Dir [("main.ts", File (Bytes "ts"))]);
         ("package.json", Dir []) ])
  = false.
Proof.
  apply (builder_A_blocked_by_wrong_kind (fun _ => 0%N) ["srv"]
           [ ("client", Dir [("main.ts", File (Bytes "ts"))]);
             ("package.json", Dir []) ]).
  - reflexivity.
  - reflexivity.
  - reflexivity.
Defined.

(** X13: Builder A leaves its sources alone.  After a completed run the
    archive name leads to a zip file, the name [aws-clean-deployment]
    leads to nothing, whatever was there before, and every other name of
    the working directory still leads to what it led to. *)
Theorem builder_A_touches_only_archive (st_size : node -> N)
    (csegs : list string) (d : directory) :
  forallb valid_name csegs = true ->
  wf_node (Dir d) = true ->
  env_A d = true ->
  let r := run (create_aws_zip st_size) (cwd_of csegs) d in
  (exists members, assoc zip_A (final_disk r) = Some (File (Zip members)))
  /\ assoc staging_A (final_disk r) = None
  /\ (forall name, name <> zip_A -> name <> staging_A ->
        assoc name (final_disk r) = assoc name d).
Proof.
  intros Hc Hwf Henv r. subst r.
  rewrite (run_A_ok st_size csegs Hc d Hwf Henv). cbn [final_disk disk].
  split; [|split].
  - eexists. rewrite assoc_app, clean_A_zip. cbn [assoc].
    rewrite String.eqb_refl. reflexivity.
  - rewrite assoc_app, clean_A_staging. reflexivity.
  - intros name Hz Hs. rewrite assoc_app, assoc_clean_A by assumption.
    destruct (assoc name d); [reflexivity|].
    cbn [assoc]. destruct (String.eqb_spec zip_A name); [congruence | reflexivity].
Qed.

Lemma builder_A_touches_only_archive_witness :
  assoc "client"
    (final_disk
       (run (create_aws_zip (fun _ => 0%N)) (cwd_of ["srv"])
          [ ("client", Dir [("main.ts", File (Bytes "ts"))]);
            (staging_A, Dir [("old", File (Bytes "left over"))]) ]))
  = Some (Dir [("main.ts", File (Bytes "ts"))]).
Proof.
  apply (proj2 (proj2 (builder_A_touches_only_archive (fun _ => 0%N) ["srv"]
                         [ ("client", Dir [("main.ts", File (Bytes "ts"))]);
                           (staging_A, Dir [("old", File (Bytes "left over"))]) ]
                         eq_refl eq_refl eq_refl)) "client");
    discriminate.
Defined.

Lemma in_copied_dirs (d es : directory) (names : list string) (x : string) :
  In x names -> assoc x d = Some (Dir es) -> In (x, Dir es) (copied_dirs d names).
Proof.
  intros Hin Ha. unfold copied_dirs. apply in_flat_map. exists x.
  split; [exact Hin|]. rewrite Ha. left. reflexivity.
Qed.

Lemma in_copied_files (d : directory) (names : list string) (x : string)
    (c : content) :
  In x names -> assoc x d = Some (File c) -> In (x, File c) (copied_files d names).
Proof.
  intros Hin Ha. unfold copied_files. apply in_flat_map. exists x.
  split; [exact Hin|]. rewrite Ha. left. reflexivity.
Qed.

Lemma in_files_here (prefix : list string) (es : directory) (name : string)
    (c : content) :
  In (name, File c) es -> In (prefix ++ [name], c) (files_here prefix es).
Proof.
  induction es as [|[n [c'|sub]] es IH]; intros H; [contradiction| |].
  - cbn [files_here]. destruct H as [E|H].
    + injection E as -> ->. left. reflexivity.
    + right. apply IH, H.
  - cbn [files_here]. destruct H as [E|H]; [discriminate E | apply IH, H].
Qed.

Lemma files_here_shift (a prefix : list string) (es : directory) :
  files_here (a ++ prefix) es
  = map (fun f => (a ++ fst f, snd f)) (files_here prefix es).
Proof.
  induction es as [|[n [c|sub]] es IH]; [reflexivity| |].
  - cbn [files_here map fst snd]. rewrite IH, <- app_assoc. reflexivity.
  - cbn [files_here]. exact IH.
Qed.

(** The files below a node, seen from further up. *)
Lemma files_under_shift (n : node) :
  forall a prefix,
    files_under (a ++ prefix) n
    = map (fun f => (a ++ fst f, snd f)) (files_under prefix n).
Proof.
  induction n as [c|es IH] using node_induction; intros a prefix; [reflexivity|].
  rewrite !files_under_dir, map_app, files_here_shift. f_equal.
  unfold files_below. induction IH as [|[name child] es Hchild _ IHes];
    [reflexivity|].
  cbn [flat_map fst snd] in *. rewrite map_app, IHes, <- app_assoc, Hchild.
  reflexivity.
Qed.

Lemma in_files_below (es : directory) (name : string) (child : node) f :
  In (name, child) es -> In f (files_under [name] child) ->
  In f (files_below [] es).
Proof.
  intros Hin Hf. unfold files_below. apply in_flat_map.
  exists (name, child). split; [exact Hin | exact Hf].
Qed.

(** X14: Builder A applies no exclusion filter.  Every file below an
    allow-listed directory that exists is archived under the directory's
    name followed by its path, whatever it is called ([node_modules]
    included), and every allow-listed regular file that exists is archived
    under its own name. *)
Theorem builder_A_archives_unfiltered (st_size : node -> N)
    (csegs : list string) (d : directory) :
  forallb valid_name csegs = true ->
  wf_node (Dir d) = true ->
  env_A d = true ->
  exists members,
    archive_at zip_A (final_disk (run (create_aws_zip st_size) (cwd_of csegs) d))
    = Some members
    /\ (forall x es p c,
          In x (essential_dirs ++ [".platform"]) ->
          assoc x d = Some (Dir es) ->
          In (p, c) (files_under [] (Dir es)) ->
          In (Str.join "/" (x :: p), c) members)
    /\ (forall x c,
          In x files_to_copy ->
          assoc x d = Some (File c) ->
          In (x, c) members).
Proof.
  intros Hc Hwf Henv. exists (members_A d). split.
  - rewrite (run_A_ok st_size csegs Hc d Hwf Henv). cbn [final_disk disk].
    apply archive_at_last, clean_A_zip.
  - unfold members_A. split.
    + intros x es p c Hx Ha Hf.
      change (Str.join "/" (x :: p), c) with (member_of (x :: p, c)).
      apply in_map. rewrite files_under_dir. apply in_or_app. right.
      apply (in_files_below _ x (Dir es)).
      * unfold staged_tree. apply in_app_iff in Hx as [Hx|Hx].
        -- apply in_or_app. left. apply in_copied_dirs; assumption.
        -- apply in_or_app. right. apply in_or_app. right. apply in_or_app. left.
           apply in_copied_dirs; assumption.
      * change [x] with ([x] ++ []). rewrite files_under_shift.
        apply in_map_iff. exists (p, c). split; [reflexivity | exact Hf].
    + intros x c Hx Ha.
      change (x, c) with (member_of ([x], c)).
      apply in_map. rewrite files_under_dir. apply in_or_app. left.
      apply (in_files_here [] _ x c). unfold staged_tree.
      apply in_or_app. right. apply in_or_app. left.
      apply in_copied_files; assumption.
Qed.

Lemma builder_A_archives_unfiltered_witness :
  exists members,
    archive_at zip_A
      (final_disk
         (run (create_aws_zip (fun _ => 0%N)) (cwd_of ["srv"])
            [ ("client",
               Dir [("node_modules", Dir [("dep.js", File (Bytes "dep"))])]) ]))
    = Some members
    /\ In ("client/node_modules/dep.js", Bytes "dep") members.
Proof.
  destruct (builder_A_archives_unfiltered (fun _ => 0%N) ["srv"]
              [ ("client",
                 Dir [("node_modules", Dir [("dep.js", File (Bytes "dep"))])]) ]
              eq_refl eq_refl eq_refl) as (members & Harch & Hdirs & _).
  exists members. split; [exact Harch|].
  apply (Hdirs "client" [("node_modules", Dir [("dep.js", File (Bytes "dep"))])]
           ["node_modules"; "dep.js"] (Bytes "dep")).
  - cbn. tauto.
  - reflexivity.
  - cbn. tauto.
Defined.

(** X15: the archive of Builder A always has the member [Procfile] with
    the line ["web: npm start"], and takes nothing from outside the
    allow-list: two working directories that agree on the allow-listed
    names give the same archive. *)
Theorem builder_A_allow_list_only (st_size : node -> N) (csegs : list string) :
  forallb valid_name csegs = true ->
  (forall d,
     wf_node (Dir d) = true -> env_A d = true ->
     exists members,
       archive_at zip_A
         (final_disk (run (create_aws_zip st_size) (cwd_of csegs) d))
       = Some members
       /\ In ("Procfile", Bytes ("web: npm start" +++ newline)) members)
  /\ (forall d1 d2,
        wf_node (Dir d1) = true -> env_A d1 = true ->
        wf_node (Dir d2) = true -> env_A d2 = true ->
        (forall x, In x (essential_dirs ++ files_to_copy ++ [".platform"]) ->
           assoc x d1 = assoc x d2) ->
        archive_at zip_A
          (final_disk (run (create_aws_zip st_size) (cwd_of csegs) d1))
        = archive_at zip_A
            (final_disk (run (create_aws_zip st_size) (cwd_of csegs) d2))).
Proof.
  intros Hc. split.
  - intros d Hwf Henv. exists (members_A d). split.
    + rewrite (run_A_ok st_size csegs Hc d Hwf Henv). cbn [final_disk disk].
      apply archive_at_last, clean_A_zip.
    + unfold members_A.
      change ("Procfile", Bytes ("web: npm start" +++ newline))
        with (member_of (["Procfile"], procfile)).
      apply in_map. rewrite files_under_dir. apply in_or_app. left.
      apply (in_files_here [] _ "Procfile" procfile). unfold staged_tree.
      apply in_or_app. right. apply in_or_app. right. apply in_or_app. right.
      left. reflexivity.
  - intros d1 d2 Hwf1 Henv1 Hwf2 Henv2 Hsame.
    rewrite (run_A_ok st_size csegs Hc d1 Hwf1 Henv1),
            (run_A_ok st_size csegs Hc d2 Hwf2 Henv2).
    cbn [final_disk disk]. rewrite !archive_at_last by apply clean_A_zip.
    f_equal. unfold members_A, staged_tree. do 3 f_equal.
    f_equal; [|f_equal; [|f_equal]].
    + apply copied_dirs_ext. intros x Hx. apply Hsame, in_or_app. left. exact Hx.
    + apply copied_files_ext. intros x Hx. apply Hsame, in_or_app. right.
      apply in_or_app. left. exact Hx.
    + apply copied_dirs_ext. intros x Hx. apply Hsame, in_or_app. right.
      apply in_or_app. right. exact Hx.
Qed.

Lemma builder_A_allow_list_only_witness :
  archive_at zip_A
    (final_disk
       (run (create_aws_zip (fun _ => 0%N)) (cwd_of ["srv"])
          [ ("client", Dir [("main.ts", File (Bytes "ts"))]);
            ("node_modules", Dir [("dep.js", File (Bytes "dep"))]) ]))
  = archive_at zip_A
      (final_disk
         (run (create_aws_zip (fun _ => 0%N)) (cwd_of ["srv"])
            [ ("client", Dir [("main.ts", File (Bytes "ts"))]) ])).
Proof.
  apply (proj2 (builder_A_allow_list_only (fun _ => 0%N) ["srv"] eq_refl)
           [ ("client", Dir [("main.ts", File (Bytes "ts"))]);
             ("node_modules", Dir [("dep.js", File (Bytes "dep"))]) ]
           [ ("client", Dir [("main.ts", File (Bytes "ts"))]) ]
           eq_refl eq_refl eq_refl eq_refl).
  intros x Hx. cbn in Hx.
  repeat (destruct Hx as [<-|Hx]; [reflexivity|]). contradiction.
Defined.

(** X16: Builder A does not roll back.  When [client] is a regular file
    the run ends in [NotADirectoryError] at the first copy, and by then the
    old archive is already deleted and an empty [aws-clean-deployment]
    directory is left behind; only the banner was printed. *)
Theorem builder_A_fails_without_rollback (st_size : node -> N) (dir : string)
    (d : directory) (c : content) :
  not_a_dir zip_A d = true ->
  not_a_file staging_A d = true ->
  assoc "client" d = Some (File c) ->
  run (create_aws_zip st_size) dir d
  = Raised NotADirectoryError
      (mkProcess dir
         (drop staging_A (drop zip_A d) ++ [(staging_A, Dir [])]) None)
      [banner_A].
Proof.
  intros Hz Hs Hclient. unfold run. rewrite create_aws_zip_steps.
  erewrite bind_done by reflexivity.
  erewrite bind_done by (apply cleanup_A_ok; assumption).
  rewrite after_nil. unfold set_disk. cbn [cwd disk zipf]. fold (clean_A d).
  unfold after_cleanup_A.
  erewrite bind_raised; [reflexivity|].
  unfold stage_A.
  erewrite bind_done by (apply os_makedirs_staging, clean_A_staging).
  rewrite after_nil.
  erewrite bind_raised; [reflexivity|].
  unfold essential_dirs. rewrite for_each_cons.
  erewrite bind_raised; [reflexivity|].
  erewrite bind_done by (apply path_exists_top; reflexivity).
  rewrite after_nil. cbn [disk].
  assert (assoc "client" (clean_A d ++ [(staging_A, Dir [])]) = Some (File c)) as E.
  { rewrite assoc_app, assoc_clean_A, Hclient by discriminate. reflexivity. }
  rewrite E. cbn [is_some when]. unfold shutil_copytree.
  rewrite lookup_top by reflexivity. cbn [disk]. rewrite E. reflexivity.
Qed.

Lemma builder_A_fails_without_rollback_witness :
  run (create_aws_zip (fun _ => 0%N)) "/srv"
    [ ("client", File (Bytes "not a directory"));
      (zip_A, File (Bytes "last good archive")) ]
  = Raised NotADirectoryError
      (mkProcess "/srv"
         [ ("client", File (Bytes "not a directory")); (staging_A, Dir []) ] None)
      [banner_A].
Proof.
  apply (builder_A_fails_without_rollback (fun _ => 0%N) "/srv"
           [ ("client", File (Bytes "not a directory"));
             (zip_A, File (Bytes "last good archive")) ]
           (Bytes "not a directory")).
  - reflexivity.
  - reflexivity.
  - reflexivity.
Defined.

